(** * FinanceDetective: the extraction pipeline of [financial_detective.py]

    A shallow embedding of the class [FinancialDetective]: the schema
    validator, the shallow repair of the pipeline, the response clean-up and
    the retry loop of the completion client, the constructor, the prompt
    builder, the two renderers and the JSON persistence of the graph, and
    around the class the command line [main] and the script
    [run_example.py].

    Python values are modelled as they reach the program: a graph is whatever
    [json.loads] returned, so every function takes an arbitrary JSON value and
    every Python operation that can raise ([x[k]], [k in x], iteration,
    [.replace], [len]) is a fallible operation of the model. *)

From Stdlib Require Import String Ascii.
From Stdlib Require Import NArith ZArith Bool Lia List.
From Stdlib Require DecimalFacts DecimalPos DecimalZ.
Import ListNotations.

Set Implicit Arguments.
Set Warnings "-register-all".

(* ================================================================== *)
(** * Python strings *)
(* ================================================================== *)

(** A Python [str] is a sequence of code points. *)
Definition pystr : Type := list N.

(** An ASCII literal of the source as a [pystr]. *)
Fixpoint str (s : string) : pystr :=
  match s with
  | EmptyString => []
  | String a r => N_of_ascii a :: str r
  end.
Arguments str s%_string : simpl never.

Fixpoint streq (a b : pystr) : bool :=
  match a, b with
  | [], [] => true
  | x :: a', y :: b' => N.eqb x y && streq a' b'
  | _, _ => false
  end.

(** [s.startswith(p)] *)
Fixpoint startswith (p s : pystr) : bool :=
  match p, s with
  | [], _ => true
  | x :: p', y :: s' => N.eqb x y && startswith p' s'
  | _ :: _, [] => false
  end.

(** [s.endswith(p)] *)
Definition endswith (p s : pystr) : bool := startswith (rev p) (rev s).

(** [needle in hay] on two strings. *)
Fixpoint contains (needle hay : pystr) : bool :=
  startswith needle hay ||
  match hay with
  | [] => false
  | _ :: t => contains needle t
  end.

(** The same as a proposition: [needle] occurs in [hay]. *)
Definition Substring (needle hay : pystr) : Prop :=
  exists a b, hay = a ++ needle ++ b.

(** [s.replace(old, new)] for one-character [old] and [new]. *)
Definition replace_char (old new : N) (s : pystr) : pystr :=
  map (fun c => if N.eqb c old then new else c) s.

(** [str.isspace] of one code point: the code points [str.strip()] removes. *)
Definition isspace (c : N) : bool :=
  ((9 <=? c) && (c <=? 13) || (28 <=? c) && (c <=? 32) ||
   (c =? 133) || (c =? 160) || (c =? 5760) ||
   (8192 <=? c) && (c <=? 8202) || (c =? 8232) || (c =? 8233) ||
   (c =? 8239) || (c =? 8287) || (c =? 12288))%N.

Fixpoint lstrip (s : pystr) : pystr :=
  match s with
  | [] => []
  | c :: r => if isspace c then lstrip r else s
  end.

Definition rstrip (s : pystr) : pystr := rev (lstrip (rev s)).

(** [s.strip()] *)
Definition strip (s : pystr) : pystr := rstrip (lstrip s).

(** [s[n:]] and [s[:-n]] for a literal [n]. *)
Definition drop_front (n : nat) (s : pystr) : pystr := skipn n s.
Definition drop_back (n : nat) (s : pystr) : pystr := firstn (length s - n) s.

(** [sep.join(lines)] *)
Fixpoint join (sep : pystr) (lines : list pystr) : pystr :=
  match lines with
  | [] => []
  | [l] => l
  | l :: rest => l ++ sep ++ join sep rest
  end.

(* ================================================================== *)
(** * JSON values, exceptions *)
(* ================================================================== *)

(** What [json.loads] builds. A [dict] keeps its keys in insertion order; a
    number is a Python [int] (the model has no [float]). *)
Inductive json : Type :=
| JNull
| JBool (b : bool)
| JInt (z : Z)
| JStr (s : pystr)
| JList (l : list json)
| JDict (d : list (pystr * json)).

Definition dict : Type := list (pystr * json).

Inductive exn : Type :=
| KeyError (k : pystr)
| TypeError
| AttributeError
| ValueError (msg : pystr)
| JSONDecodeError (msg : pystr)
| UnicodeEncodeError
| UnicodeDecodeError
| RecursionError
| Exception (msg : pystr).

Inductive result (A : Type) : Type :=
| Ok (a : A)
| Raise (e : exn).
Arguments Ok {A} a.
Arguments Raise {A} e.

Definition rbind {A B} (c : result A) (k : A -> result B) : result B :=
  match c with
  | Ok a => k a
  | Raise e => Raise e
  end.

Declare Scope py_scope.
Delimit Scope py_scope with py.
Notation "x <- c ;; k" := (rbind c (fun x => k))
  (at level 61, c at next level, right associativity) : py_scope.
Open Scope py_scope.

(** ** Dictionaries *)

Fixpoint lookup (k : pystr) (d : dict) : option json :=
  match d with
  | [] => None
  | (k', v) :: r => if streq k k' then Some v else lookup k r
  end.

Definition has_key (k : pystr) (d : dict) : bool :=
  match lookup k d with Some _ => true | None => false end.

(** [d[k] = v]: an existing key keeps its place, a new key goes last. *)
Fixpoint dict_set (k : pystr) (v : json) (d : dict) : dict :=
  match d with
  | [] => [(k, v)]
  | (k', v') :: r =>
      if streq k k' then (k', v) :: r else (k', v') :: dict_set k v r
  end.

(** ** The operations of the program on an arbitrary value *)

Definition isinstance_dict (v : json) : bool :=
  match v with JDict _ => true | _ => false end.

Definition isinstance_list (v : json) : bool :=
  match v with JList _ => true | _ => false end.

Definition is_str (k : pystr) (v : json) : bool :=
  match v with JStr s => streq s k | _ => false end.

(** [k in x] for a string literal [k]: key membership in a dict, element
    membership in a list, substring test in a string; a [TypeError]
    elsewhere. *)
Definition py_in (k : pystr) (x : json) : result bool :=
  match x with
  | JDict d => Ok (has_key k d)
  | JList l => Ok (existsb (is_str k) l)
  | JStr s => Ok (contains k s)
  | _ => Raise TypeError
  end.

(** [x[k]] for a string literal [k]. *)
Definition getitem (x : json) (k : pystr) : result json :=
  match x with
  | JDict d =>
      match lookup k d with
      | Some v => Ok v
      | None => Raise (KeyError k)
      end
  | _ => Raise TypeError
  end.

(** [x[k] = v] for a string literal [k]. *)
Definition setitem (x : json) (k : pystr) (v : json) : result json :=
  match x with
  | JDict d => Ok (JDict (dict_set k v d))
  | _ => Raise TypeError
  end.

(** [for e in x]: the elements of a list, the keys of a dict, the characters
    of a string. *)
Definition py_iter (x : json) : result (list json) :=
  match x with
  | JList l => Ok l
  | JDict d => Ok (map (fun kv => JStr (fst kv)) d)
  | JStr s => Ok (map (fun c => JStr [c]) s)
  | _ => Raise TypeError
  end.

(** [len(x)] *)
Definition py_len (x : json) : result nat :=
  match x with
  | JList l => Ok (length l)
  | JDict d => Ok (length d)
  | JStr s => Ok (length s)
  | _ => Raise TypeError
  end.

(** [x in [s1, ..., sn]] for string literals: [x == si] holds only for the
    string [si] itself. *)
Definition in_literals (x : json) (lits : list pystr) : bool :=
  existsb (fun s => is_str s x) lits.

(** A [for] loop whose body may [return]: [Some r] leaves the function with
    [r], [None] goes on to the next element. *)
Fixpoint for_return {A R} (body : A -> result (option R)) (l : list A)
  : result (option R) :=
  match l with
  | [] => Ok None
  | x :: rest =>
      o <- body x ;;
      match o with
      | Some r => Ok (Some r)
      | None => for_return body rest
      end
  end.

(* ================================================================== *)
(** * Text files *)
(* ================================================================== *)

(** Every file of the program is opened with [encoding='utf-8']. A file is
    the list of its bytes. *)

(** ** The UTF-8 codec *)

(** The bytes of one code point. A surrogate (U+D800 to U+DFFF) has no
    UTF-8 form: the codec raises [UnicodeEncodeError]. A number above
    U+10FFFF is no character of a Python string. *)
Definition utf8_encode_char (c : N) : result (list N) :=
  if (c <? 128)%N then Ok [c]
  else if (c <? 2048)%N then Ok [192 + c / 64; 128 + c mod 64]%N
  else if (c <? 65536)%N then
    if ((55296 <=? c) && (c <=? 57343))%N then Raise UnicodeEncodeError
    else Ok [224 + c / 4096; 128 + (c / 64) mod 64; 128 + c mod 64]%N
  else if (c <? 1114112)%N then
    Ok [240 + c / 262144; 128 + (c / 4096) mod 64; 128 + (c / 64) mod 64;
        128 + c mod 64]%N
  else Raise UnicodeEncodeError.

Fixpoint utf8_encode (s : pystr) : result (list N) :=
  match s with
  | [] => Ok []
  | c :: r =>
      bs <- utf8_encode_char c ;;
      rest <- utf8_encode r ;;
      Ok (bs ++ rest)
  end.

Definition is_continuation (b : N) : bool := ((128 <=? b) && (b <=? 191))%N.

(** The strict decoder: it refuses stray and missing continuation bytes,
    overlong forms, surrogates and numbers above U+10FFFF. *)
Fixpoint utf8_decode (bs : list N) : result pystr :=
  match bs with
  | [] => Ok []
  | b :: r =>
      if (b <? 128)%N then
        s <- utf8_decode r ;; Ok (b :: s)
      else if ((194 <=? b) && (b <=? 223))%N then
        match r with
        | b1 :: r1 =>
            if is_continuation b1 then
              s <- utf8_decode r1 ;;
              Ok (((b - 192) * 64 + (b1 - 128))%N :: s)
            else Raise UnicodeDecodeError
        | _ => Raise UnicodeDecodeError
        end
      else if ((224 <=? b) && (b <=? 239))%N then
        match r with
        | b1 :: b2 :: r2 =>
            let c := (((b - 224) * 64 + (b1 - 128)) * 64 + (b2 - 128))%N in
            if is_continuation b1 && is_continuation b2 &&
               (2048 <=? c)%N && negb ((55296 <=? c) && (c <=? 57343))%N
            then s <- utf8_decode r2 ;; Ok (c :: s)
            else Raise UnicodeDecodeError
        | _ => Raise UnicodeDecodeError
        end
      else if ((240 <=? b) && (b <=? 244))%N then
        match r with
        | b1 :: b2 :: b3 :: r3 =>
            let c := ((((b - 240) * 64 + (b1 - 128)) * 64 + (b2 - 128)) * 64
                      + (b3 - 128))%N in
            if is_continuation b1 && is_continuation b2 &&
               is_continuation b3 && (65536 <=? c)%N && (c <? 1114112)%N
            then s <- utf8_decode r3 ;; Ok (c :: s)
            else Raise UnicodeDecodeError
        | _ => Raise UnicodeDecodeError
        end
      else Raise UnicodeDecodeError
  end.

(** A text file opened for reading gives every line end ([\r\n] and a lone
    [\r] as well) as [\n]. *)
Fixpoint universal_newlines (s : pystr) : pystr :=
  match s with
  | [] => []
  | c :: r =>
      if (c =? 13)%N then
        10%N :: match r with
                | [] => []
                | c' :: r' =>
                    if (c' =? 10)%N then universal_newlines r'
                    else universal_newlines r
                end
      else c :: universal_newlines r
  end.

(** [f.write(s)] on a file opened for writing, where the line separator
    of the platform is the line feed: the bytes of the file. *)
Definition write_text (s : pystr) : result (list N) := utf8_encode s.

(** [f.read()] on a file opened for reading. *)
Definition read_text (file : list N) : result pystr :=
  s <- utf8_decode file ;;
  Ok (universal_newlines s).

(* ================================================================== *)
(** * [_validate_json_schema] *)
(* ================================================================== *)

Definition ENTITIES : pystr := str "entities".
Definition RELATIONSHIPS : pystr := str "relationships".
Definition ENTITY_TYPES : list pystr :=
  [str "Company"; str "RiskFactor"; str "Amount"].

(** The body of [for entity in data["entities"]]. *)
Definition check_entity (entity : json) : result (option bool) :=
  if negb (isinstance_dict entity) then Ok (Some false) else
  has_id <- py_in (str "id") entity ;;
  has_type <- (if has_id then py_in (str "type") entity else Ok false) ;;
  has_name <- (if has_id && has_type then py_in (str "name") entity
               else Ok false) ;;
  if negb has_id || negb has_type || negb has_name then Ok (Some false) else
  ty <- getitem entity (str "type") ;;
  if negb (in_literals ty ENTITY_TYPES) then Ok (Some false) else
  Ok None.

(** The body of [for rel in data["relationships"]]. *)
Definition check_relationship (rel : json) : result (option bool) :=
  if negb (isinstance_dict rel) then Ok (Some false) else
  has_source <- py_in (str "source") rel ;;
  has_target <- (if has_source then py_in (str "target") rel else Ok false) ;;
  has_type <- (if has_source && has_target then py_in (str "type") rel
               else Ok false) ;;
  if negb has_source || negb has_target || negb has_type
  then Ok (Some false) else
  Ok None.

(** The validator returns its verdict and the object it was given, as the
    object is after the call. *)
Definition _validate_json_schema (data : json) : result bool * json :=
  (if negb (isinstance_dict data) then Ok false else
   has_e <- py_in ENTITIES data ;;
   has_r <- (if has_e then py_in RELATIONSHIPS data else Ok false) ;;
   if negb has_e || negb has_r then Ok false else
   es <- getitem data ENTITIES ;;
   bad_e <- (if negb (isinstance_list es) then Ok true else
             rs <- getitem data RELATIONSHIPS ;;
             Ok (negb (isinstance_list rs))) ;;
   if (bad_e : bool) then Ok false else
   entities <- py_iter es ;;
   o <- for_return check_entity entities ;;
   match o with
   | Some b => Ok b
   | None =>
       rs <- getitem data RELATIONSHIPS ;;
       relationships <- py_iter rs ;;
       o <- for_return check_relationship relationships ;;
       match o with
       | Some b => Ok b
       | None => Ok true
       end
   end,
   data).

(* ================================================================== *)
(** * The tail of [extract_knowledge_graph]: validate, repair, report *)
(* ================================================================== *)

(** The two assignments of the repair branch. Each is guarded by its own
    [not in] test on the object as it is at that point. *)
Definition repair (graph_data : json) : result json :=
  has_e <- py_in ENTITIES graph_data ;;
  graph_data <- (if negb has_e then setitem graph_data ENTITIES (JList [])
                 else Ok graph_data) ;;
  has_r <- py_in RELATIONSHIPS graph_data ;;
  if negb has_r then setitem graph_data RELATIONSHIPS (JList [])
  else Ok graph_data.

(** [if not self._validate_json_schema(graph_data): ...] *)
Definition validate_and_repair (graph_data : json) : result json :=
  let (verdict, graph_data) := _validate_json_schema graph_data in
  valid <- verdict ;;
  if negb valid then repair graph_data else Ok graph_data.

(** The counts printed before the graph is returned. *)
Definition report_counts (graph_data : json) : result (nat * nat) :=
  es <- getitem graph_data ENTITIES ;;
  n_e <- py_len es ;;
  rs <- getitem graph_data RELATIONSHIPS ;;
  n_r <- py_len rs ;;
  Ok (n_e, n_r).

(** From the parsed response to the returned graph. *)
Definition extract_parsed (graph_data : json) : result json :=
  graph_data <- validate_and_repair graph_data ;;
  _ <- report_counts graph_data ;;
  Ok graph_data.

(* ================================================================== *)
(** * Built-ins of the Python runtime that the model leaves open *)
(* ================================================================== *)

(** [str.lower] and [str.upper] follow the Unicode tables, and the text an
    f-string gives a value that is not a string ([repr] of a list or a dict)
    is the runtime's. The program is a model over any runtime that formats
    a string as itself. *)
Class PyRuntime : Type := {
  py_lower : pystr -> pystr;
  py_upper : pystr -> pystr;
  py_format : json -> pystr;
  py_format_str : forall s, py_format (JStr s) = s
}.

(** [str(n)] of a natural number, as [len] returns it. *)
Fixpoint uint_digits (u : Decimal.uint) : pystr :=
  match u with
  | Decimal.Nil => []
  | Decimal.D0 r => 48%N :: uint_digits r
  | Decimal.D1 r => 49%N :: uint_digits r
  | Decimal.D2 r => 50%N :: uint_digits r
  | Decimal.D3 r => 51%N :: uint_digits r
  | Decimal.D4 r => 52%N :: uint_digits r
  | Decimal.D5 r => 53%N :: uint_digits r
  | Decimal.D6 r => 54%N :: uint_digits r
  | Decimal.D7 r => 55%N :: uint_digits r
  | Decimal.D8 r => 56%N :: uint_digits r
  | Decimal.D9 r => 57%N :: uint_digits r
  end.

Definition str_of_nat (n : nat) : pystr := uint_digits (Nat.to_uint n).

(** [str(z)] of an [int]. *)
Definition str_of_Z (z : Z) : pystr :=
  match Z.to_int z with
  | Decimal.Pos u => uint_digits u
  | Decimal.Neg u => 45%N :: uint_digits u
  end.

(** Truth value of a JSON value in a condition. *)
Definition truthy (v : json) : bool :=
  match v with
  | JNull => false
  | JBool b => b
  | JInt z => negb (Z.eqb z 0)
  | JStr s => negb (streq s [])
  | JList l => match l with [] => false | _ => true end
  | JDict d => match d with [] => false | _ => true end
  end.

(* ================================================================== *)
(** * [__init__] *)
(* ================================================================== *)

Record detective : Type := {
  api_provider : pystr;
  api_key : pystr;
  api_url : pystr;
  model : pystr;
  max_retries : nat
}.

Definition GROQ_URL : pystr :=
  str "https://api.groq.com/openai/v1/chat/completions".
Definition GROQ_MODEL : pystr := str "llama-3.3-70b-versatile".
Definition OPENAI_URL : pystr :=
  str "https://api.openai.com/v1/chat/completions".
Definition OPENAI_MODEL : pystr := str "gpt-4o".

(** Truth value of an [Optional[str]]. *)
Definition key_given (k : option pystr) : bool :=
  match k with
  | Some (_ :: _) => true
  | _ => false
  end.

(** [environ] is the process environment, [os.getenv] its lookup. *)
Definition __init__ {R : PyRuntime} (environ : pystr -> option pystr)
    (provider : pystr) (key : option pystr) : result detective :=
  let self_api_provider := py_lower provider in
  self_api_key <-
    (if key_given key then Ok key
     else if streq self_api_provider (str "groq")
          then Ok (environ (str "GROQ_API_KEY"))
     else if streq self_api_provider (str "openai")
          then Ok (environ (str "OPENAI_API_KEY"))
     else Raise (ValueError (str "Unknown API provider: " ++ provider))) ;;
  match self_api_key with
  | Some (c :: k) =>
      let (url, mdl) :=
        if streq self_api_provider (str "groq")
        then (GROQ_URL, GROQ_MODEL)
        else (OPENAI_URL, OPENAI_MODEL) in
      Ok {| api_provider := self_api_provider;
            api_key := c :: k;
            api_url := url;
            model := mdl;
            max_retries := 3 |}
  | _ =>
      Raise (ValueError (py_upper self_api_provider ++
                         str "_API_KEY not found in environment"))
  end.

(* ================================================================== *)
(** * [_build_extraction_prompt] *)
(* ================================================================== *)

Definition dq : pystr := [34%N].
Definition nl : pystr := [10%N].

(** The template up to the place of [{text}]. *)
Definition PROMPT_HEAD : pystr :=
  concat
  [
   str "You are a financial data extraction expert. Extract entities and relationships from the following text from a Reliance Annual Report."; nl;
   nl;
   str "EXTRACTION REQUIREMENTS:"; nl;
   str "1. ENTITIES to extract:"; nl;
   str "   - Company Names: All company names mentioned (e.g., "; dq; str "Reliance Retail"; dq; str ", "; dq; str "Jio"; dq; str ", "; dq; str "Hamleys"; dq; str ")"; nl;
   str "   - Risk Factors: Any risk factors mentioned (e.g., "; dq; str "Market volatility"; dq; str ", "; dq; str "Regulatory changes"; dq; str ")"; nl;
   str "   - Dollar Amounts: Financial figures in USD, INR, or other currencies (e.g., "; dq; str "$1.5 billion"; dq; str ", "; dq; [8218%N; 199%N; 960%N]; str "50,000 crores"; dq; str ")"; nl;
   nl;
   str "2. RELATIONSHIPS to extract:"; nl;
   str "   - Ownership: "; dq; str "Company A OWNS Company B"; dq; str " (e.g., "; dq; str "Reliance Retail OWNS Hamleys"; dq; str ")"; nl;
   str "   - Financial: "; dq; str "Company HAS Amount"; dq; str " (e.g., "; dq; str "Reliance Retail HAS $2.5 billion revenue"; dq; str ")"; nl;
   str "   - Risk: "; dq; str "Company FACES RiskFactor"; dq; str " (e.g., "; dq; str "Reliance FACES Market volatility"; dq; str ")"; nl;
   str "   - Partnership: "; dq; str "Company PARTNERS_WITH Company"; dq; str " (e.g., "; dq; str "Jio PARTNERS_WITH Google"; dq; str ")"; nl;
   nl;
   str "OUTPUT FORMAT (strict JSON):"; nl;
   str "{"; nl;
   str "  "; dq; str "entities"; dq; str ": ["; nl;
   str "    {"; nl;
   str "      "; dq; str "id"; dq; str ": "; dq; str "unique_id_1"; dq; str ","; nl;
   str "      "; dq; str "type"; dq; str ": "; dq; str "Company"; dq; str ","; nl;
   str "      "; dq; str "name"; dq; str ": "; dq; str "Reliance Retail"; dq; str ","; nl;
   str "      "; dq; str "value"; dq; str ": null,"; nl;
   str "      "; dq; str "metadata"; dq; str ": {}"; nl;
   str "    },"; nl;
   str "    {"; nl;
   str "      "; dq; str "id"; dq; str ": "; dq; str "unique_id_2"; dq; str ","; nl;
   str "      "; dq; str "type"; dq; str ": "; dq; str "Amount"; dq; str ","; nl;
   str "      "; dq; str "name"; dq; str ": "; dq; str "Revenue 2023"; dq; str ","; nl;
   str "      "; dq; str "value"; dq; str ": "; dq; str "$2.5 billion"; dq; str ","; nl;
   str "      "; dq; str "metadata"; dq; str ": {"; dq; str "currency"; dq; str ": "; dq; str "USD"; dq; str ", "; dq; str "year"; dq; str ": 2023}"; nl;
   str "    },"; nl;
   str "    {"; nl;
   str "      "; dq; str "id"; dq; str ": "; dq; str "unique_id_3"; dq; str ","; nl;
   str "      "; dq; str "type"; dq; str ": "; dq; str "RiskFactor"; dq; str ","; nl;
   str "      "; dq; str "name"; dq; str ": "; dq; str "Market volatility"; dq; str ","; nl;
   str "      "; dq; str "value"; dq; str ": null,"; nl;
   str "      "; dq; str "metadata"; dq; str ": {}"; nl;
   str "    }"; nl;
   str "  ],"; nl;
   str "  "; dq; str "relationships"; dq; str ": ["; nl;
   str "    {"; nl;
   str "      "; dq; str "source"; dq; str ": "; dq; str "unique_id_1"; dq; str ","; nl;
   str "      "; dq; str "target"; dq; str ": "; dq; str "unique_id_4"; dq; str ","; nl;
   str "      "; dq; str "type"; dq; str ": "; dq; str "OWNS"; dq; str ","; nl;
   str "      "; dq; str "metadata"; dq; str ": {"; dq; str "year"; dq; str ": 2023}"; nl;
   str "    },"; nl;
   str "    {"; nl;
   str "      "; dq; str "source"; dq; str ": "; dq; str "unique_id_1"; dq; str ","; nl;
   str "      "; dq; str "target"; dq; str ": "; dq; str "unique_id_2"; dq; str ","; nl;
   str "      "; dq; str "type"; dq; str ": "; dq; str "HAS"; dq; str ","; nl;
   str "      "; dq; str "metadata"; dq; str ": {}"; nl;
   str "    }"; nl;
   str "  ]"; nl;
   str "}"; nl;
   nl;
   str "RULES:"; nl;
   str "- Use unique IDs for each entity (e.g., "; dq; str "company_reliance_retail"; dq; str ", "; dq; str "amount_revenue_2023"; dq; str ")"; nl;
   str "- Extract ALL company names, risk factors, and dollar amounts mentioned"; nl;
   str "- Extract ALL relationships between entities"; nl;
   str "- Ensure JSON is valid and properly formatted"; nl;
   str "- Do not use regex - use your understanding of the text"; nl;
   nl;
   str "TEXT TO ANALYZE:"; nl
  ].

(** The template after [{text}]. *)
Definition PROMPT_TAIL : pystr :=
  concat
  [
   nl;
   nl;
   str "Return ONLY the JSON object, no additional text or explanation."
  ].

Definition _build_extraction_prompt (text : pystr) : pystr :=
  PROMPT_HEAD ++ text ++ PROMPT_TAIL.

(* ================================================================== *)
(** * [_call_llm]: the clean-up of a response and the retry loop *)
(* ================================================================== *)

Definition FENCE : pystr := str "```".
Definition FENCE_JSON : pystr := str "```json".

(** The clean-up of the content of a successful response: the five
    statements between [content = content.strip()] and [return content]. *)
Definition clean_response (content : pystr) : pystr :=
  let content := strip content in
  let content :=
    if startswith FENCE_JSON content then drop_front 7 content else content in
  let content :=
    if startswith FENCE content then drop_front 3 content else content in
  let content :=
    if endswith FENCE content then drop_back 3 content else content in
  strip content.

(** What [requests.post] gives back: a response, with the outcome of its
    [.json()] call, or an exception (time-out, connection error). *)
Record response : Type := {
  status_code : Z;
  text : pystr;
  json_body : result json
}.

Inductive post_outcome : Type :=
| Responded (r : response)
| PostRaised (e : exn).

(** The completion service as the client sees it: the outcome of the n-th
    request, counted from 0. *)
Definition service : Type := nat -> post_outcome.

(** What the caller can observe of a call besides its result. *)
Inductive event : Type :=
| EvPost
| EvSleep (seconds : Z).

Inductive outcome : Type :=
| Returned (content : option pystr)
| Raised (e : exn).

(** [x[0]] *)
Definition getitem0 (x : json) : result json :=
  match x with
  | JList (v :: _) => Ok v
  | JList [] => Raise (Exception (str "IndexError"))
  | JStr (c :: _) => Ok (JStr [c])
  | JStr [] => Raise (Exception (str "IndexError"))
  | JDict _ => Raise (KeyError (str "0"))
  | _ => Raise TypeError
  end.

(** [response.json()["choices"][0]["message"]["content"]] and the clean-up;
    [.strip] exists on a string only. *)
Definition response_content (r : response) : result pystr :=
  response_data <- json_body r ;;
  choices <- getitem response_data (str "choices") ;;
  choice <- getitem0 choices ;;
  message <- getitem choice (str "message") ;;
  content <- getitem message (str "content") ;;
  match content with
  | JStr s => Ok (clean_response s)
  | _ => Raise AttributeError
  end.

Definition error_msg (r : response) : pystr :=
  str "API error " ++ str_of_Z (status_code r) ++ str ": " ++ text r.

(** One pass through the body of the [for] loop: [inl] is [continue] (after
    the sleep it logged), [inr] leaves the function. *)
Definition attempt_body (retries : nat) (srv : service) (attempt : nat)
  : list event * (unit + outcome) :=
  let last := negb (Nat.ltb attempt (retries - 1)) in
  let handler (e : exn) : list event * (unit + outcome) :=
    if last then ([EvPost], inr (Raised e))
    else ([EvPost; EvSleep (2 ^ Z.of_nat attempt)], inl tt) in
  match srv attempt with
  | PostRaised e => handler e
  | Responded r =>
      if Z.eqb (status_code r) 429 then
        ([EvPost; EvSleep (2 ^ Z.of_nat attempt * 2)], inl tt)
      else if negb (Z.eqb (status_code r) 200) then
        if last then handler (Exception (error_msg r))
        else ([EvPost; EvSleep (2 ^ Z.of_nat attempt)], inl tt)
      else
        match response_content r with
        | Ok content => ([EvPost], inr (Returned (Some content)))
        | Raise e => handler e
        end
  end.

(** [for attempt in range(self.max_retries)]; a loop that ends without
    [return] or [raise] leaves the function with [None]. *)
Fixpoint retry_loop (retries : nat) (srv : service) (attempts : list nat)
  : list event * outcome :=
  match attempts with
  | [] => ([], Returned None)
  | attempt :: rest =>
      match attempt_body retries srv attempt with
      | (evs, inr out) => (evs, out)
      | (evs, inl _) =>
          let (evs', out) := retry_loop retries srv rest in
          (evs ++ evs', out)
      end
  end.

(** The prompt goes into the payload of every request; the service of the
    model stands for the answers to that payload. *)
Definition _call_llm (self : detective) (srv : service) (prompt : pystr)
  : list event * outcome :=
  retry_loop (max_retries self) srv (seq 0 (max_retries self)).

(* ================================================================== *)
(** * [generate_mermaid_chart] *)
(* ================================================================== *)

(** A [for] loop that threads an accumulator and may raise. *)
Fixpoint for_each {A S} (body : S -> A -> result S) (l : list A) (s : S)
  : result S :=
  match l with
  | [] => Ok s
  | x :: rest => s' <- body s x ;; for_each body rest s'
  end.

(** [x.replace(" ", "_").replace("-", "_")]; [.replace] exists on a string
    only. *)
Definition sanitize (s : pystr) : pystr :=
  replace_char 45 95 (replace_char 32 95 s).

Definition sanitized (x : json) : result pystr :=
  match x with
  | JStr s => Ok (sanitize s)
  | _ => Raise AttributeError
  end.

Definition STYLE_COMPANY : pystr :=
  str "fill:#4A90E2,stroke:#333,stroke-width:2px".
Definition STYLE_RISK : pystr :=
  str "fill:#E24A4A,stroke:#333,stroke-width:2px".
Definition STYLE_AMOUNT : pystr :=
  str "fill:#4AE24A,stroke:#333,stroke-width:2px".
Definition STYLE_OTHER : pystr :=
  str "fill:#E2E24A,stroke:#333,stroke-width:2px".

Definition style_of (entity_type : json) : pystr :=
  if is_str (str "Company") entity_type then STYLE_COMPANY
  else if is_str (str "RiskFactor") entity_type then STYLE_RISK
  else if is_str (str "Amount") entity_type then STYLE_AMOUNT
  else STYLE_OTHER.

(** [f'    {entity_id}["{name}"]'] *)
Definition node_line {R : PyRuntime} (entity_id : pystr) (name : json)
  : pystr :=
  str "    " ++ entity_id ++ str "[" ++ dq ++ py_format name ++ dq ++ str "]".

(** [f'    style {entity_id} {style}'] *)
Definition style_line (entity_id style : pystr) : pystr :=
  str "    style " ++ entity_id ++ str " " ++ style.

(** [f'    {source} -->|{rel_type}| {target}'] *)
Definition edge_line {R : PyRuntime} (source : pystr) (rel_type : json)
    (target : pystr) : pystr :=
  str "    " ++ source ++ str " -->|" ++ py_format rel_type ++ str "| " ++
  target.

(** The body of [for entity in graph_data["entities"]]. *)
Definition mermaid_entity {R : PyRuntime} (mermaid_lines : list pystr)
    (entity : json) : result (list pystr) :=
  raw_id <- getitem entity (str "id") ;;
  entity_id <- sanitized raw_id ;;
  name <- getitem entity (str "name") ;;
  entity_type <- getitem entity (str "type") ;;
  let style := style_of entity_type in
  Ok ((mermaid_lines ++ [node_line entity_id name])
        ++ [style_line entity_id style]).

(** The body of [for rel in graph_data["relationships"]]. *)
Definition mermaid_relationship {R : PyRuntime} (mermaid_lines : list pystr)
    (rel : json) : result (list pystr) :=
  raw_source <- getitem rel (str "source") ;;
  source <- sanitized raw_source ;;
  raw_target <- getitem rel (str "target") ;;
  target <- sanitized raw_target ;;
  rel_type <- getitem rel (str "type") ;;
  Ok (mermaid_lines ++ [edge_line source rel_type target]).

Definition GRAPH_TD : pystr := str "graph TD".

(** The list [mermaid_lines] when both loops are done. *)
Definition mermaid_lines {R : PyRuntime} (graph_data : json)
  : result (list pystr) :=
  let lines := [GRAPH_TD] in
  es <- getitem graph_data ENTITIES ;;
  entities <- py_iter es ;;
  lines <- for_each mermaid_entity entities lines ;;
  rs <- getitem graph_data RELATIONSHIPS ;;
  relationships <- py_iter rs ;;
  for_each mermaid_relationship relationships lines.

(** [full_content], the text of the chart. *)
Definition mermaid_full_content {R : PyRuntime} (graph_data : json)
  : result pystr :=
  lines <- mermaid_lines graph_data ;;
  let mermaid_content := join nl lines in
  es <- getitem graph_data ENTITIES ;;
  n_e <- py_len es ;;
  rs <- getitem graph_data RELATIONSHIPS ;;
  n_r <- py_len rs ;;
  Ok (concat
        [str "# Financial Knowledge Graph (Mermaid)"; nl;
         nl;
         str "```mermaid"; nl;
         mermaid_content; nl;
         str "```"; nl;
         nl;
         str "## Entities"; nl;
         str_of_nat n_e; str " entities extracted"; nl;
         nl;
         str "## Relationships"; nl;
         str_of_nat n_r; str " relationships extracted"; nl]).

(** The renderer: the text of the chart written to the file. *)
Definition generate_mermaid_chart {R : PyRuntime} (graph_data : json)
  : result (list N) :=
  full_content <- mermaid_full_content graph_data ;;
  write_text full_content.

(* ================================================================== *)
(** * [visualize_graph] *)
(* ================================================================== *)

(** A value that can be a dictionary key or a graph node. *)
Definition hashable (v : json) : bool :=
  match v with
  | JList _ | JDict _ => false
  | _ => true
  end.

(** [a == b] on hashable values: [True == 1] and [False == 0]. *)
Definition key_eq (a b : json) : bool :=
  match a, b with
  | JNull, JNull => true
  | JBool x, JBool y => Bool.eqb x y
  | JBool x, JInt z | JInt z, JBool x => Z.eqb (if x then 1 else 0) z
  | JInt x, JInt y => Z.eqb x y
  | JStr x, JStr y => streq x y
  | _, _ => false
  end.

(** A dictionary with arbitrary hashable keys, in insertion order. *)
Definition kmem {V} (k : json) (m : list (json * V)) : bool :=
  existsb (fun kv => key_eq k (fst kv)) m.

Fixpoint kset {V} (k : json) (v : V) (m : list (json * V))
  : list (json * V) :=
  match m with
  | [] => [(k, v)]
  | (k', v') :: r =>
      if key_eq k k' then (k', v) :: r else (k', v') :: kset k v r
  end.

(** The attributes [label], [type] and [name] of a node. *)
Record node_attrs : Type := {
  n_label : json;
  n_type : json;
  n_name : json
}.

(** A [networkx.DiGraph] as the renderer fills it: nodes with their
    attributes and edges with their label, each in insertion order. *)
Record digraph : Type := {
  nodes : list (json * node_attrs);
  edges : list ((json * json) * json)
}.

Definition edge_key_eq (e e' : json * json) : bool :=
  key_eq (fst e) (fst e') && key_eq (snd e) (snd e').

Fixpoint eset (e : json * json) (lbl : json) (m : list ((json * json) * json))
  : list ((json * json) * json) :=
  match m with
  | [] => [(e, lbl)]
  | (e', l') :: r =>
      if edge_key_eq e e' then (e', lbl) :: r else (e', l') :: eset e lbl r
  end.

(** [G.add_node(n, label=..., type=..., name=...)] *)
Definition add_node (n : json) (a : node_attrs) (G : digraph)
  : result digraph :=
  match n with
  | JNull => Raise (ValueError (str "None cannot be a node"))
  | _ => Ok {| nodes := kset n a (nodes G); edges := edges G |}
  end.

(** [G.add_edge(u, v, type=t, label=t)] between two nodes of [G]. *)
Definition add_edge (u v lbl : json) (G : digraph) : digraph :=
  {| nodes := nodes G; edges := eset (u, v) lbl (edges G) |}.

(** [x.get(k)] *)
Definition py_get (x : json) (k : pystr) : result json :=
  match x with
  | JDict d => Ok (match lookup k d with Some v => v | None => JNull end)
  | _ => Raise AttributeError
  end.

(** [x += s] for a string [s]: concatenation on a string; a list is extended
    by the characters of [s]; a [TypeError] elsewhere. *)
Definition iadd_str (x : json) (s : pystr) : result json :=
  match x with
  | JStr t => Ok (JStr (t ++ s))
  | JList l => Ok (JList (l ++ map (fun c => JStr [c]) s))
  | _ => Raise TypeError
  end.

(** The body of [for entity in graph_data["entities"]]. When the name is a
    list, [+=] extends that very list, so the attribute [name] read
    afterwards is the extended list as well. *)
Definition visualize_entity {R : PyRuntime}
    (st : list (json * json) * digraph) (entity : json)
  : result (list (json * json) * digraph) :=
  let (entity_map, G) := st in
  entity_id <- getitem entity (str "id") ;;
  entity_map <- (if hashable entity_id then Ok (kset entity_id entity entity_map)
                 else Raise TypeError) ;;
  name <- getitem entity (str "name") ;;
  value <- py_get entity (str "value") ;;
  node_label <- (if truthy value
                 then iadd_str name (nl ++ str "(" ++ py_format value ++ str ")")
                 else Ok name) ;;
  entity_type <- getitem entity (str "type") ;;
  let name_attr := match name with JList _ => node_label | _ => name end in
  G <- add_node entity_id
         {| n_label := node_label; n_type := entity_type;
            n_name := name_attr |} G ;;
  Ok (entity_map, G).

(** [k in entity_map] *)
Definition member {V} (k : json) (m : list (json * V)) : result bool :=
  if hashable k then Ok (kmem k m) else Raise TypeError.

(** The body of [for rel in graph_data["relationships"]]. *)
Definition visualize_relationship (entity_map : list (json * json))
    (G : digraph) (rel : json) : result digraph :=
  source <- getitem rel (str "source") ;;
  target <- getitem rel (str "target") ;;
  has_source <- member source entity_map ;;
  has_target <- (if has_source then member target entity_map else Ok false) ;;
  if has_source && has_target then
    rel_type <- getitem rel (str "type") ;;
    Ok (add_edge source target rel_type G)
  else Ok G.

(** The graph [G] when both loops are done. *)
Definition build_graph {R : PyRuntime} (graph_data : json) : result digraph :=
  es <- getitem graph_data ENTITIES ;;
  entities <- py_iter es ;;
  st <- for_each visualize_entity entities ([], {| nodes := []; edges := [] |}) ;;
  let (entity_map, G) := (st : list (json * json) * digraph) in
  rs <- getitem graph_data RELATIONSHIPS ;;
  relationships <- py_iter rs ;;
  for_each (visualize_relationship entity_map) relationships G.

(** What the drawing calls are given. *)
Record drawing : Type := {
  node_colors : list pystr;
  labels : list (json * json);
  edge_labels : list ((json * json) * json)
}.

Definition color_of (entity_type : json) : pystr :=
  if is_str (str "Company") entity_type then str "#4A90E2"
  else if is_str (str "RiskFactor") entity_type then str "#E24A4A"
  else if is_str (str "Amount") entity_type then str "#4AE24A"
  else str "#E2E24A".

(** [x[:20]] *)
Definition first20 (x : json) : result json :=
  match x with
  | JStr s => Ok (JStr (firstn 20 s))
  | JList l => Ok (JList (firstn 20 l))
  | _ => Raise TypeError
  end.

Fixpoint node_labels (ns : list (json * node_attrs))
  : result (list (json * json)) :=
  match ns with
  | [] => Ok []
  | (n, a) :: r =>
      l <- first20 (n_name a) ;;
      ls <- node_labels r ;;
      Ok ((n, l) :: ls)
  end.

(** [G.edges()] lists the edges source by source, in the order of the
    nodes. *)
Definition edges_in_order (G : digraph) : list ((json * json) * json) :=
  flat_map (fun n => filter (fun e => key_eq (fst (fst e)) (fst n)) (edges G))
           (nodes G).

(** The renderer up to the calls into the plotting library: the graph, the
    colours of its nodes, their labels and the labels of its edges. *)
Definition visualize_graph {R : PyRuntime} (graph_data : json)
  : result drawing :=
  G <- build_graph graph_data ;;
  let colors := map (fun n => color_of (n_type (snd n))) (nodes G) in
  lbls <- node_labels (nodes G) ;;
  Ok {| node_colors := colors; labels := lbls;
        edge_labels := edges_in_order G |}.

(* ================================================================== *)
(** * The validator as the specification words it *)
(* ================================================================== *)

(** "Contains [k]": the value is a keyed record with a field [k]. *)
Definition contains_field (k : pystr) (rec : json) : Prop :=
  exists d v, rec = JDict d /\ lookup k d = Some v.

(** "Every entity record contains id, type (one of the three enumerated
    kinds), and name". *)
Definition spec_entity (e : json) : Prop :=
  contains_field (str "id") e /\
  (exists d t, e = JDict d /\ lookup (str "type") d = Some (JStr t) /\
               In t ENTITY_TYPES) /\
  contains_field (str "name") e.

(** "Every relationship record contains source, target, and type". *)
Definition spec_relationship (r : json) : Prop :=
  contains_field (str "source") r /\
  contains_field (str "target") r /\
  contains_field (str "type") r.

(** "The candidate is a keyed record containing both entities and
    relationships, both values are ordered sequences", of entity records and
    of relationship records. *)
Definition spec_valid (candidate : json) : Prop :=
  exists d es rs,
    candidate = JDict d /\
    lookup ENTITIES d = Some (JList es) /\
    lookup RELATIONSHIPS d = Some (JList rs) /\
    Forall spec_entity es /\
    Forall spec_relationship rs.

(** "If entities is absent it is defaulted to an empty sequence, and likewise
    for relationships": the pairs the repair adds to a keyed record. *)
Definition missing_defaults (d : dict) : dict :=
  (if has_key ENTITIES d then [] else [(ENTITIES, JList [])]) ++
  (if has_key RELATIONSHIPS d then [] else [(RELATIONSHIPS, JList [])]).

(* ================================================================== *)
(** * A runtime for the worked examples *)
(* ================================================================== *)

Definition ascii_lower (s : pystr) : pystr :=
  map (fun c => if ((65 <=? c) && (c <=? 90))%N then (c + 32)%N else c) s.

Definition ascii_upper (s : pystr) : pystr :=
  map (fun c => if ((97 <=? c) && (c <=? 122))%N then (c - 32)%N else c) s.

(** Strings and scalars as CPython formats them; the examples format no
    list and no dict, which stand as a bare pair of brackets here. *)
Definition example_format (v : json) : pystr :=
  match v with
  | JNull => str "None"
  | JBool true => str "True"
  | JBool false => str "False"
  | JInt z => str_of_Z z
  | JStr s => s
  | JList _ => str "[]"
  | JDict _ => str "{}"
  end.

Definition example_runtime : PyRuntime :=
  {| py_lower := ascii_lower;
     py_upper := ascii_upper;
     py_format := example_format;
     py_format_str := fun s => eq_refl |}.

Definition no_environ : pystr -> option pystr := fun _ => None.

(** A service stub that answers every request with a rate-limit signal, and
    the object the tests construct. *)
Definition always_429 : service :=
  fun _ => Responded {| status_code := 429;
                        text := str "rate limited";
                        json_body := Raise (ValueError (str "no JSON")) |}.

Definition groq_detective : detective :=
  {| api_provider := str "groq";
     api_key := str "test_key";
     api_url := GROQ_URL;
     model := GROQ_MODEL;
     max_retries := 3 |}.

(** A response wrapped in two layers of fences. *)
Definition doubly_fenced : pystr :=
  concat [str "```"; nl; str "```json"; nl; str "{}"; nl; str "```"; nl;
          str "```"].

(* ================================================================== *)
(** * The flow chart as the specification words it *)
(* ================================================================== *)

(** The field [k] of a record ([None] when there is none). *)
Definition field (k : pystr) (rec : json) : json :=
  match rec with
  | JDict d => match lookup k d with Some v => v | None => JNull end
  | _ => JNull
  end.

Definition text_of (v : json) : pystr :=
  match v with JStr s => s | _ => [] end.

(** "One node declaration per entity": the sanitized id, then the label in
    brackets and quotes. *)
Definition node_declaration {R : PyRuntime} (e : json) : pystr :=
  node_line (sanitize (text_of (field (str "id") e))) (field (str "name") e).

(** "One styled declaration per entity keyed by kind". *)
Definition style_declaration (e : json) : pystr :=
  style_line (sanitize (text_of (field (str "id") e)))
             (style_of (field (str "type") e)).

(** "One edge declaration per relationship labeled by relationship type". *)
Definition edge_declaration {R : PyRuntime} (r : json) : pystr :=
  edge_line (sanitize (text_of (field (str "source") r)))
            (field (str "type") r)
            (sanitize (text_of (field (str "target") r))).

(** The records the renderer can read: an entity with a string id, a name
    and a type; a relationship with string endpoints and a type. *)
Definition renderable_entity (e : json) : Prop :=
  exists d i n t,
    e = JDict d /\ lookup (str "id") d = Some (JStr i) /\
    lookup (str "name") d = Some n /\ lookup (str "type") d = Some t.

Definition renderable_relationship (r : json) : Prop :=
  exists d s t ty,
    r = JDict d /\ lookup (str "source") d = Some (JStr s) /\
    lookup (str "target") d = Some (JStr t) /\
    lookup (str "type") d = Some ty.

(** "Replacing spaces and hyphens with underscores". *)
Definition spec_sanitize (s : pystr) : pystr :=
  map (fun c => if (N.eqb c 32 || N.eqb c 45)%bool then 95%N else c) s.

(** ** Example graphs *)

Definition entity (id type name : string) (value : json) : json :=
  JDict [(str "id", JStr (str id)); (str "type", JStr (str type));
         (str "name", JStr (str name)); (str "value", value);
         (str "metadata", JDict [])].

Definition relationship (source target type : string) : json :=
  JDict [(str "source", JStr (str source)); (str "target", JStr (str target));
         (str "type", JStr (str type)); (str "metadata", JDict [])].

Definition graph_dict (es rs : list json) : dict :=
  [(ENTITIES, JList es); (RELATIONSHIPS, JList rs)].

Definition graph (es rs : list json) : json := JDict (graph_dict es rs).

(** The example of the specification: two companies, one of which owns the
    other. *)
Definition two_companies : json :=
  graph [entity "c1" "Company" "Reliance Retail" JNull;
         entity "c2" "Company" "Hamleys" JNull]
        [relationship "c1" "c2" "OWNS"].

(** An amount with its value. *)
Definition one_amount : json :=
  graph [entity "amount 2023-a" "Amount" "Revenue 2023"
                (JStr (str "$2.5 billion"))]
        [].

(** A relationship whose target is no entity of the graph. *)
Definition dangling_graph : json :=
  graph [entity "c1" "Company" "Reliance Retail" JNull]
        [relationship "c1" "ghost" "OWNS"].

(** The lines of the chart: the header, two lines per entity in the order of
    the entities, then one line per relationship in their order. *)
Definition chart_lines {R : PyRuntime} (es rs : list json) : list pystr :=
  GRAPH_TD ::
  flat_map (fun e => [node_declaration e; style_declaration e]) es ++
  map edge_declaration rs.

(* ================================================================== *)
(** * Dangling relationships as the specification words them *)
(* ================================================================== *)

(** "The graph's entity ids". *)
Definition entity_ids (es : list json) : list json :=
  map (field (str "id")) es.

Definition is_entity_id (es : list json) (v : json) : bool :=
  existsb (key_eq v) (entity_ids es).

(** A relationship "whose source or target id is not present among the
    graph's entity ids": its endpoints are read in the order source, target,
    and an endpoint can be looked up when it is hashable. *)
Definition dangling (es : list json) (rel : json) : bool :=
  match getitem rel (str "source"), getitem rel (str "target") with
  | Ok s, Ok t =>
      hashable s &&
      (negb (is_entity_id es s) || (hashable t && negb (is_entity_id es t)))
  | _, _ => false
  end.

Definition without_dangling (es rs : list json) : list json :=
  filter (fun r => negb (dangling es r)) rs.

(* ================================================================== *)
(** * [save_graph_json]: the persisted graph *)
(* ================================================================== *)

(** [json.dump(graph_data, f, indent=2, ensure_ascii=False)] runs the
    encoder of the standard library with its pretty-printing generator:
    items are separated by a comma and a new line, keys by a colon and a
    space, and a string keeps every character but the quote, the backslash
    and the control characters below U+0020. The text it yields goes through
    the UTF-8 encoder of the file [f]. *)

(** One lower-case hexadecimal digit. *)
Definition hexdigit (n : N) : N :=
  if (n <? 10)%N then (48 + n)%N else (87 + n)%N.

(** [ESCAPE_DCT]: the replacement of one character of a string. *)
Definition escape_char (c : N) : pystr :=
  if (c =? 92)%N then [92; 92]%N
  else if (c =? 34)%N then [92; 34]%N
  else if (c =? 8)%N then [92; 98]%N
  else if (c =? 12)%N then [92; 102]%N
  else if (c =? 10)%N then [92; 110]%N
  else if (c =? 13)%N then [92; 114]%N
  else if (c =? 9)%N then [92; 116]%N
  else if (c <? 32)%N
       then [92; 117; 48; 48; hexdigit (c / 16); hexdigit (c mod 16)]%N
  else [c].

(** [encode_basestring] *)
Definition encode_basestring (s : pystr) : pystr :=
  dq ++ flat_map escape_char s ++ dq.

(** ['\n' + _indent * _current_indent_level] for [_indent] of two spaces. *)
Definition newline_indent (level : nat) : pystr :=
  nl ++ repeat 32%N (2 * level).

(** [_iterencode], with the chunks it yields joined: [_iterencode_list] for
    a list, [_iterencode_dict] for a dict, whose keys are strings. *)
Fixpoint iterencode (o : json) (level : nat) {struct o} : pystr :=
  match o with
  | JStr s => encode_basestring s
  | JNull => str "null"
  | JBool true => str "true"
  | JBool false => str "false"
  | JInt z => str_of_Z z
  | JList lst =>
      match lst with
      | [] => str "[]"
      | _ :: _ =>
          str "[" ++ newline_indent (S level) ++
          join (str "," ++ newline_indent (S level))
               (map (fun value => iterencode value (S level)) lst) ++
          newline_indent level ++ str "]"
      end
  | JDict dct =>
      match dct with
      | [] => str "{}"
      | _ :: _ =>
          str "{" ++ newline_indent (S level) ++
          join (str "," ++ newline_indent (S level))
               (map (fun item =>
                       match item with
                       | (key, value) =>
                           encode_basestring key ++ str ": " ++
                           iterencode value (S level)
                       end) dct) ++
          newline_indent level ++ str "}"
      end
  end.

(** What [json.dump] writes, as text. *)
Definition json_dump (graph_data : json) : pystr := iterencode graph_data 0.

(** [with open(output_path, 'w', encoding='utf-8') as f: json.dump(...)]:
    the bytes of the file. *)
Definition save_graph_json (graph_data : json) : result (list N) :=
  write_text (json_dump graph_data).

(** ** Reading the file back: [json.loads] *)

(** The decoder of the standard library, over the text that is left to read
    rather than over an index into it. Errors keep their message and drop
    the position. The model has no [float]: a number with a fraction or an
    exponent, [NaN] and [Infinity] are reported as [ValueError] with the
    message [float]. *)

Definition is_ws (c : N) : bool :=
  ((c =? 32) || (c =? 9) || (c =? 10) || (c =? 13))%N.

(** [_w(s, end).end()] *)
Fixpoint skip_ws (s : pystr) : pystr :=
  match s with
  | [] => []
  | c :: r => if is_ws c then skip_ws r else s
  end.

Definition hexval (c : N) : option N :=
  if ((48 <=? c) && (c <=? 57))%N then Some (c - 48)%N
  else if ((97 <=? c) && (c <=? 102))%N then Some (c - 87)%N
  else if ((65 <=? c) && (c <=? 70))%N then Some (c - 55)%N
  else None.

(** The four hexadecimal digits of a [\u] escape. *)
Definition decode_uXXXX (h1 h2 h3 h4 : N) : option N :=
  match hexval h1, hexval h2, hexval h3, hexval h4 with
  | Some a, Some b, Some c, Some d =>
      Some (((a * 16 + b) * 16 + c) * 16 + d)%N
  | _, _, _, _ => None
  end.

(** [BACKSLASH] *)
Definition backslash (esc : N) : option N :=
  if (esc =? 34)%N then Some 34%N
  else if (esc =? 92)%N then Some 92%N
  else if (esc =? 47)%N then Some 47%N
  else if (esc =? 98)%N then Some 8%N
  else if (esc =? 102)%N then Some 12%N
  else if (esc =? 110)%N then Some 10%N
  else if (esc =? 114)%N then Some 13%N
  else if (esc =? 116)%N then Some 9%N
  else None.

Definition UNTERMINATED : exn :=
  JSONDecodeError (str "Unterminated string starting at").
Definition INVALID_CONTROL : exn :=
  JSONDecodeError (str "Invalid control character at").
Definition INVALID_ESCAPE : exn := JSONDecodeError (str "Invalid \escape").
Definition INVALID_UXXXX : exn :=
  JSONDecodeError (str "Invalid \uXXXX escape").
Definition EXPECTING_VALUE : exn := JSONDecodeError (str "Expecting value").
Definition EXPECTING_COMMA : exn :=
  JSONDecodeError (str "Expecting ',' delimiter").
Definition EXPECTING_COLON : exn :=
  JSONDecodeError (str "Expecting ':' delimiter").
Definition EXPECTING_NAME : exn :=
  JSONDecodeError (str "Expecting property name enclosed in double quotes").
Definition EXTRA_DATA : exn := JSONDecodeError (str "Extra data").
Definition FLOAT : exn := ValueError (str "float").

(** [scanstring(s, end, strict=True)]: [s] is the text after the opening
    quote and [chunks] what has been decoded. A high surrogate escape
    followed by a low surrogate escape is one character. *)
Fixpoint scanstring (s : pystr) (chunks : pystr) {struct s}
  : result (pystr * pystr) :=
  match s with
  | [] => Raise UNTERMINATED
  | c :: r =>
      if (c =? 34)%N then Ok (chunks, r)
      else if (c <? 32)%N then Raise INVALID_CONTROL
      else if negb (c =? 92)%N then scanstring r (chunks ++ [c])
      else
        match r with
        | [] => Raise UNTERMINATED
        | esc :: r1 =>
            if negb (esc =? 117)%N then
              match backslash esc with
              | Some char => scanstring r1 (chunks ++ [char])
              | None => Raise INVALID_ESCAPE
              end
            else
              match r1 with
              | h1 :: h2 :: h3 :: h4 :: r2 =>
                  match decode_uXXXX h1 h2 h3 h4 with
                  | None => Raise INVALID_UXXXX
                  | Some uni =>
                      match r2 with
                      | b :: u :: g1 :: g2 :: g3 :: g4 :: r3 =>
                          if ((55296 <=? uni) && (uni <=? 56319) &&
                              (b =? 92) && (u =? 117))%N
                          then
                            match decode_uXXXX g1 g2 g3 g4 with
                            | None => Raise INVALID_UXXXX
                            | Some uni2 =>
                                if ((56320 <=? uni2) && (uni2 <=? 57343))%N
                                then
                                  scanstring r3
                                    (chunks ++
                                     [65536 + ((uni - 55296) * 1024 +
                                               (uni2 - 56320))]%N)
                                else scanstring r2 (chunks ++ [uni])
                            end
                          else scanstring r2 (chunks ++ [uni])
                      | _ => scanstring r2 (chunks ++ [uni])
                      end
                  end
              | _ => Raise INVALID_UXXXX
              end
        end
  end.

(** ** Numbers: [NUMBER_RE] *)

Definition is_digit (c : N) : bool := ((48 <=? c) && (c <=? 57))%N.

Definition digit_of (c : N) : Decimal.uint -> Decimal.uint :=
  if (c =? 48)%N then Decimal.D0
  else if (c =? 49)%N then Decimal.D1
  else if (c =? 50)%N then Decimal.D2
  else if (c =? 51)%N then Decimal.D3
  else if (c =? 52)%N then Decimal.D4
  else if (c =? 53)%N then Decimal.D5
  else if (c =? 54)%N then Decimal.D6
  else if (c =? 55)%N then Decimal.D7
  else if (c =? 56)%N then Decimal.D8
  else Decimal.D9.

(** [\d*]: the longest run of digits and the text after it. *)
Fixpoint take_digits (s : pystr) : Decimal.uint * pystr :=
  match s with
  | [] => (Decimal.Nil, [])
  | c :: r =>
      if is_digit c then
        let (u, rest) := take_digits r in (digit_of c u, rest)
      else (Decimal.Nil, s)
  end.

(** [(\.\d+)?] matches something. *)
Definition has_frac (s : pystr) : bool :=
  match s with
  | dot :: d :: _ => (dot =? 46)%N && is_digit d
  | _ => false
  end.

(** [\d+] after the optional fraction is skipped. *)
Definition after_frac (s : pystr) : pystr :=
  if has_frac s then snd (take_digits (tl s)) else s.

(** [([eE][-+]?\d+)?] matches something. *)
Definition has_exp (s : pystr) : bool :=
  match s with
  | e :: r =>
      ((e =? 101) || (e =? 69))%N &&
      match r with
      | sign :: r' =>
          if ((sign =? 45) || (sign =? 43))%N
          then match r' with d :: _ => is_digit d | [] => false end
          else is_digit sign
      | [] => false
      end
  | [] => false
  end.

(** [match_number]: the integer part (an optional minus sign, then a lone
    zero or a digit from 1 to 9 and any digits) as a signed decimal number,
    the text after it, and whether a fraction or an exponent follows. *)
Definition match_number (s : pystr)
  : option (Decimal.int * pystr * bool) :=
  let (negative, s1) :=
    match s with
    | c :: r => if (c =? 45)%N then (true, r) else (false, s)
    | [] => (false, s)
    end in
  let sign (u : Decimal.uint) : Decimal.int :=
    if negative then Decimal.Neg u else Decimal.Pos u in
  match s1 with
  | [] => None
  | c :: r =>
      if (c =? 48)%N then
        Some (sign (Decimal.D0 Decimal.Nil), r,
              has_frac r || has_exp (after_frac r))
      else if is_digit c then
        let (u, rest) := take_digits s1 in
        Some (sign u, rest, has_frac rest || has_exp (after_frac rest))
      else None
  end.

(** ** [JSONArray], [JSONObject] and the scanner *)

(** [dict(pairs)]: a key met again keeps its place and takes the new
    value. *)
Definition dict_of_pairs (pairs : list (pystr * json)) : dict :=
  fold_left (fun d kv => dict_set (fst kv) (snd kv) d) pairs [].

Section Decoder.
(** Both take the scanner as an argument, as in the library. The number [n]
    bounds the passes of their [while True] loops. *)
Variable scan_once : pystr -> result (json * pystr).

Fixpoint array_loop (n : nat) (s : pystr) (values : list json)
  : result (list json * pystr) :=
  match n with
  | O => Raise RecursionError
  | S n' =>
      p <- scan_once s ;;
      let values := values ++ [fst p] in
      match skip_ws (snd p) with
      | [] => Raise EXPECTING_COMMA
      | c :: r =>
          if (c =? 93)%N then Ok (values, r)
          else if negb (c =? 44)%N then Raise EXPECTING_COMMA
          else array_loop n' (skip_ws r) values
      end
  end.

Definition JSONArray (n : nat) (s : pystr) : result (list json * pystr) :=
  match skip_ws s with
  | c :: r => if (c =? 93)%N then Ok ([], r) else array_loop n (c :: r) []
  | [] => array_loop n [] []
  end.

(** [s] is the text after the opening quote of a key. *)
Fixpoint object_loop (n : nat) (s : pystr) (pairs : list (pystr * json))
  : result (list (pystr * json) * pystr) :=
  match n with
  | O => Raise RecursionError
  | S n' =>
      k <- scanstring s [] ;;
      match skip_ws (snd k) with
      | [] => Raise EXPECTING_COLON
      | colon :: r =>
          if negb (colon =? 58)%N then Raise EXPECTING_COLON
          else
            p <- scan_once (skip_ws r) ;;
            let pairs := pairs ++ [(fst k, fst p)] in
            match skip_ws (snd p) with
            | [] => Raise EXPECTING_COMMA
            | c :: r' =>
                if (c =? 125)%N then Ok (pairs, r')
                else if negb (c =? 44)%N then Raise EXPECTING_COMMA
                else
                  match skip_ws r' with
                  | [] => Raise EXPECTING_NAME
                  | q :: r'' =>
                      if (q =? 34)%N then object_loop n' r'' pairs
                      else Raise EXPECTING_NAME
                  end
            end
      end
  end.

Definition JSONObject (n : nat) (s : pystr) : result (dict * pystr) :=
  match skip_ws s with
  | [] => Raise EXPECTING_NAME
  | c :: r =>
      if (c =? 125)%N then Ok ([], r)
      else if (c =? 34)%N then
        p <- object_loop n r [] ;;
        Ok (dict_of_pairs (fst p), snd p)
      else Raise EXPECTING_NAME
  end.
End Decoder.

(** [_scan_once]. The [fuel] bounds the nesting of the recursion, which
    Python bounds by its recursion limit. *)
Fixpoint scan_once (fuel : nat) (s : pystr) {struct fuel}
  : result (json * pystr) :=
  match fuel with
  | O => Raise RecursionError
  | S fuel' =>
      match s with
      | [] => Raise EXPECTING_VALUE
      | nextchar :: r =>
          if (nextchar =? 34)%N then
            p <- scanstring r [] ;; Ok (JStr (fst p), snd p)
          else if (nextchar =? 123)%N then
            p <- JSONObject (scan_once fuel') fuel' r ;;
            Ok (JDict (fst p), snd p)
          else if (nextchar =? 91)%N then
            p <- JSONArray (scan_once fuel') fuel' r ;;
            Ok (JList (fst p), snd p)
          else if startswith (str "null") s then Ok (JNull, skipn 4 s)
          else if startswith (str "true") s then Ok (JBool true, skipn 4 s)
          else if startswith (str "false") s then Ok (JBool false, skipn 5 s)
          else
            match match_number s with
            | Some (integer, rest, is_float) =>
                if (is_float : bool) then Raise FLOAT
                else Ok (JInt (Z.of_int integer), rest)
            | None =>
                if startswith (str "NaN") s || startswith (str "Infinity") s
                   || startswith (str "-Infinity") s
                then Raise FLOAT
                else Raise EXPECTING_VALUE
            end
      end
  end.

(** [json.loads(s)] on a [str]: the test for a byte-order mark, then
    [JSONDecoder.decode]. The fuel is the length of the text and one more:
    a nested value is shorter than the text around it. *)
Definition json_loads (s : pystr) : result json :=
  if startswith [65279%N] s then
    Raise (JSONDecodeError
             (str "Unexpected UTF-8 BOM (decode using utf-8-sig)"))
  else
    let s := skip_ws s in
    p <- scan_once (S (length s)) s ;;
    match skip_ws (snd p) with
    | [] => Ok (fst p)
    | _ :: _ => Raise EXTRA_DATA
    end.

(** Reading the persisted graph back, [json.load(f)] on the file opened
    with [encoding='utf-8']: the bytes decoded as UTF-8, the line ends
    translated, the text parsed. *)
Definition load_graph_json (file : list N) : result json :=
  s <- read_text file ;;
  json_loads s.

(** ** The graphs that can be persisted *)

(** A code point with a UTF-8 form. *)
Definition encodable (c : N) : bool :=
  ((c <? 55296) || ((57343 <? c) && (c <? 1114112)))%N.

(** Every string of a value, keys included, satisfies [P]. *)
Fixpoint all_strings (P : pystr -> Prop) (v : json) {struct v} : Prop :=
  match v with
  | JStr s => P s
  | JList l =>
      (fix all (l : list json) : Prop :=
         match l with
         | [] => True
         | x :: r => all_strings P x /\ all r
         end) l
  | JDict d =>
      (fix all (d : list (pystr * json)) : Prop :=
         match d with
         | [] => True
         | (k, x) :: r => P k /\ all_strings P x /\ all r
         end) d
  | _ => True
  end.

(** No dictionary of a value has a key twice, as in every Python [dict]. *)
Fixpoint unique_keys (v : json) {struct v} : Prop :=
  match v with
  | JList l =>
      (fix all (l : list json) : Prop :=
         match l with
         | [] => True
         | x :: r => unique_keys x /\ all r
         end) l
  | JDict d =>
      NoDup (map fst d) /\
      (fix all (d : list (pystr * json)) : Prop :=
         match d with
         | [] => True
         | (_, x) :: r => unique_keys x /\ all r
         end) d
  | _ => True
  end.

(** A string without a lone surrogate (and within the range of Unicode). *)
Definition no_surrogate (s : pystr) : Prop :=
  Forall (fun c => encodable c = true) s.

(** An entity whose name ends in the lone surrogate U+D83D, as
    [json.loads] returns it for the escape [\ud83d]. *)
Definition lone_surrogate_graph : json :=
  graph [JDict [(str "id", JStr (str "c1"));
                (str "type", JStr (str "Company"));
                (str "name", JStr (str "Jio " ++ [55357%N]))]]
        [].

(** What may follow a number in a text for the number to end there: no
    digit, no point and no exponent mark. *)
Definition ends_number (rest : pystr) : Prop :=
  match rest with
  | [] => True
  | c :: _ => is_digit c = false /\ c <> 46%N /\ c <> 101%N /\ c <> 69%N
  end.

(** A character of a text that the file takes and gives back: it has a
    UTF-8 form and is no carriage return. *)
Definition text_char (c : N) : bool := encodable c && negb (c =? 13)%N.

(** A response of the completion service with the escape of a lone
    surrogate in a name. *)
Definition lone_surrogate_response : pystr :=
  concat [str "{"; dq; str "entities"; dq; str ": [{"; dq; str "id"; dq;
          str ": "; dq; str "c1"; dq; str ", "; dq; str "type"; dq;
          str ": "; dq; str "Company"; dq; str ", "; dq; str "name"; dq;
          str ": "; dq; str "Jio \ud83d"; dq; str "}], "; dq;
          str "relationships"; dq; str ": []}"].

(* ================================================================== *)
(** * [extract_knowledge_graph] *)
(* ================================================================== *)

(** The pipeline on the bytes of the input file: read, build the prompt,
    call the service, parse, validate and repair, report. [json.loads] is
    given what [_call_llm] returned; it takes a [str] and raises
    [TypeError] on [None]. *)
Definition extract_knowledge_graph (self : detective) (srv : service)
    (input_file : list N) : list event * result json :=
  match read_text input_file with
  | Raise e => ([], Raise e)
  | Ok text =>
      let prompt := _build_extraction_prompt text in
      match _call_llm self srv prompt with
      | (evs, Raised e) => (evs, Raise e)
      | (evs, Returned None) => (evs, Raise TypeError)
      | (evs, Returned (Some response_text)) =>
          (evs,
           graph_data <- json_loads response_text ;;
           extract_parsed graph_data)
      end
  end.


(* ================================================================== *)
(** * What a caller observes of the retry loop *)
(* ================================================================== *)

(** The requests a trace holds, and the seconds it slept in all. *)
Definition posts (evs : list event) : nat :=
  length (filter (fun e => match e with EvPost => true | _ => false end) evs).

Definition slept (evs : list event) : Z :=
  fold_right (fun e acc => match e with EvSleep s => (s + acc)%Z | _ => acc end)
             0%Z evs.

(** The three ways one request can end for the loop: the content it returns,
    the rate-limit signal, or the exception that a last attempt lets
    through. *)
Definition attempt_success (srv : service) (attempt : nat) : option pystr :=
  match srv attempt with
  | Responded r =>
      if Z.eqb (status_code r) 200 then
        match response_content r with
        | Ok content => Some content
        | Raise _ => None
        end
      else None
  | PostRaised _ => None
  end.

Definition rate_limited (srv : service) (attempt : nat) : bool :=
  match srv attempt with
  | Responded r => Z.eqb (status_code r) 429
  | PostRaised _ => false
  end.

Definition attempt_failure (srv : service) (attempt : nat) : option exn :=
  match srv attempt with
  | PostRaised e => Some e
  | Responded r =>
      if Z.eqb (status_code r) 429 then None
      else if Z.eqb (status_code r) 200 then
        match response_content r with
        | Ok _ => None
        | Raise e => Some e
        end
      else Some (Exception (error_msg r))
  end.

(** The seconds slept after an attempt that is tried again. *)
Definition backoff (srv : service) (attempt : nat) : Z :=
  if rate_limited srv attempt then (2 ^ Z.of_nat attempt * 2)%Z
  else (2 ^ Z.of_nat attempt)%Z.

(** The trace of [k] attempts that were all tried again. *)
Definition retried (srv : service) (k : nat) : list event :=
  flat_map (fun a => [EvPost; EvSleep (backoff srv a)]) (seq 0 k).

(** A completion body with [s] as the content of its first choice. *)
Definition completion (s : pystr) : response :=
  {| status_code := 200;
     text := [];
     json_body :=
       Ok (JDict [(str "choices",
                   JList [JDict [(str "message",
                                  JDict [(str "role", JStr (str "assistant"));
                                         (str "content", JStr s)])]])]) |}.

(** A service that fails every request with a server error. *)
Definition always_500 : service :=
  fun _ => Responded {| status_code := 500;
                        text := str "internal error";
                        json_body := Raise (ValueError (str "no JSON")) |}.

(** A service that is rate-limited once and then answers with [s]; with a
    fenced empty object; with the fenced text of a graph. *)
Definition answers_second (s : pystr) : service :=
  fun n => match n with
           | 0 => always_429 0
           | _ => Responded (completion s)
           end.

Definition second_time_lucky : service :=
  answers_second (concat [FENCE_JSON; nl; str "{}"; nl; FENCE]).

Definition fenced_reply (g : json) : pystr :=
  FENCE_JSON ++ (nl ++ json_dump g ++ nl) ++ FENCE.


(* ================================================================== *)
(** * The environment variable of a provider *)
(* ================================================================== *)

(** The variable [__init__] reads when it is given no key: the two branches
    of its [if]/[elif] on the lowercased provider. *)
Definition key_variable {R : PyRuntime} (provider : pystr) : option pystr :=
  if streq (py_lower provider) (str "groq") then Some (str "GROQ_API_KEY")
  else if streq (py_lower provider) (str "openai")
       then Some (str "OPENAI_API_KEY")
  else None.

(** An environment that holds a Groq key and nothing else. *)
Definition groq_environ : pystr -> option pystr :=
  fun var => if streq var (str "GROQ_API_KEY") then Some (str "gsk_test")
             else None.


(* ================================================================== *)
(** * The records the diagram renderer can draw *)
(* ================================================================== *)

(** An entity with a string id, a string name and a type: the label is cut
    from the name, so the name has to be a string too. *)
Definition drawable_entity (e : json) : Prop :=
  exists d i n t,
    e = JDict d /\ lookup (str "id") d = Some (JStr i) /\
    lookup (str "name") d = Some (JStr n) /\ lookup (str "type") d = Some t.

(** A relationship whose endpoints and type are strings. *)
Definition string_relationship (r : json) : Prop :=
  exists d s t ty,
    r = JDict d /\ lookup (str "source") d = Some (JStr s) /\
    lookup (str "target") d = Some (JStr t) /\
    lookup (str "type") d = Some (JStr ty).

(** The two exceptions the renderer raises on a graph that has all its
    fields. *)
Definition diagram_error (e : exn) : Prop :=
  e = TypeError \/ e = ValueError (str "None cannot be a node").

(** A graph that passes the schema check with an entity whose id is null. *)
Definition null_id_graph : json :=
  graph [JDict [(str "id", JNull); (str "type", JStr (str "Company"));
                (str "name", JStr (str "Nameless"))]]
        [].

(** The four colours of the renderer. *)
Definition COLORS : list pystr :=
  [str "#4A90E2"; str "#E24A4A"; str "#4AE24A"; str "#E2E24A"].


(* ================================================================== *)
(** * [main]: the command line *)
(* ================================================================== *)

(** The arguments as [parse_args] returns them, and the file system as
    [main] meets it: [arg_input] is the content of the file at [--input],
    [None] when there is no such file. *)
Record cli : Type := {
  arg_input : option (list N);
  arg_provider : pystr;
  arg_api_key : option pystr;
  arg_visualize : bool;
  arg_mermaid : bool
}.

(** The files a run has written in full: the JSON file at [--output], the
    picture (as what the plotting library was given) and the chart. *)
Record outputs : Type := {
  json_file : option (list N);
  png_file : option drawing;
  mermaid_file : option (list N)
}.

Definition no_outputs : outputs :=
  {| json_file := None; png_file := None; mermaid_file := None |}.

(** [choices=["groq", "openai"]] *)
Definition PROVIDERS : list pystr := [str "groq"; str "openai"].

(** The body of the second [try] once the graph is extracted. Any exception
    is caught by [except Exception] and ends the run with status 1; what was
    written before it stays. *)
Definition main_outputs {R : PyRuntime} (args : cli) (graph_data : json)
  : outputs * Z :=
  match save_graph_json graph_data with
  | Raise _ => (no_outputs, 1%Z)
  | Ok jf =>
      match (if arg_visualize args
             then rbind (visualize_graph graph_data) (fun D => Ok (Some D))
             else Ok None) with
      | Raise _ =>
          ({| json_file := Some jf; png_file := None;
              mermaid_file := None |}, 1%Z)
      | Ok png =>
          match (if arg_mermaid args
                 then rbind (generate_mermaid_chart graph_data)
                            (fun f => Ok (Some f))
                 else Ok None) with
          | Raise _ =>
              ({| json_file := Some jf; png_file := png;
                  mermaid_file := None |}, 1%Z)
          | Ok md =>
              let written := {| json_file := Some jf; png_file := png;
                                mermaid_file := md |} in
              match report_counts graph_data with
              | Raise _ => (written, 1%Z)
              | Ok _ => (written, 0%Z)
              end
          end
      end
  end.

(** [main]: the requests and sleeps of the run, the files written in full
    and the exit status. [argparse] ends the run with status 2 for a
    provider outside its choices; [sys.exit(1)] follows a missing input
    file, a [ValueError] of the constructor and any exception of the
    extraction; a run that reaches the end of [main] has status 0. *)
Definition main {R : PyRuntime} (environ : pystr -> option pystr)
    (srv : service) (args : cli) : list event * outputs * Z :=
  if negb (existsb (streq (arg_provider args)) PROVIDERS)
  then ([], no_outputs, 2%Z)
  else
    match arg_input args with
    | None => ([], no_outputs, 1%Z)
    | Some input_file =>
        match __init__ environ (arg_provider args) (arg_api_key args) with
        | Raise _ => ([], no_outputs, 1%Z)
        | Ok detector =>
            match extract_knowledge_graph detector srv input_file with
            | (evs, Raise _) => (evs, no_outputs, 1%Z)
            | (evs, Ok graph_data) =>
                let (written, status) := main_outputs args graph_data in
                (evs, written, status)
            end
        end
    end.

(** The three parts of a run. *)
Definition run_events (r : list event * outputs * Z) : list event :=
  fst (fst r).
Definition run_outputs (r : list event * outputs * Z) : outputs :=
  snd (fst r).
Definition run_status (r : list event * outputs * Z) : Z := snd r.

(** A run of the example: the Groq key comes from the environment, the
    service is rate-limited once and then sends the fenced graph, and both
    renderings are asked for. *)
Definition example_args : cli :=
  {| arg_input := Some (str "Reliance Retail owns Hamleys.");
     arg_provider := str "groq";
     arg_api_key := None;
     arg_visualize := true;
     arg_mermaid := true |}.


(* ================================================================== *)
(** * [run_example.py]: the example script *)
(* ================================================================== *)

(** [a or b] on two results of [os.getenv]. *)
Definition py_or (a b : option pystr) : option pystr :=
  if key_given a then a else b.

(** ["groq" if os.getenv("GROQ_API_KEY") else "openai"] *)
Definition example_provider (environ : pystr -> option pystr) : pystr :=
  if key_given (environ (str "GROQ_API_KEY")) then str "groq"
  else str "openai".

Definition example_key (environ : pystr -> option pystr) : option pystr :=
  py_or (environ (str "GROQ_API_KEY")) (environ (str "OPENAI_API_KEY")).

(** [main] of the script: the requests and sleeps of the run and the files
    written in full. [sample] is the content of
    [sample_reliance_report.txt], [None] when there is no such file. The
    script returns early without a key, when the constructor raises and
    when the sample is missing; every exception of the rest is caught and
    printed. What it prints is left out. *)
Definition run_example {R : PyRuntime} (environ : pystr -> option pystr)
    (srv : service) (sample : option (list N)) : list event * outputs :=
  let api_key := example_key environ in
  if negb (key_given api_key) then ([], no_outputs)
  else
    let provider := example_provider environ in
    match __init__ environ provider api_key with
    | Raise _ => ([], no_outputs)
    | Ok detector =>
        match sample with
        | None => ([], no_outputs)
        | Some input_file =>
            match extract_knowledge_graph detector srv input_file with
            | (evs, Raise _) => (evs, no_outputs)
            | (evs, Ok graph_data) =>
                match save_graph_json graph_data with
                | Raise _ => (evs, no_outputs)
                | Ok jf =>
                    match visualize_graph graph_data with
                    | Raise _ =>
                        (evs, {| json_file := Some jf; png_file := None;
                                 mermaid_file := None |})
                    | Ok D =>
                        match generate_mermaid_chart graph_data with
                        | Raise _ =>
                            (evs, {| json_file := Some jf;
                                     png_file := Some D;
                                     mermaid_file := None |})
                        | Ok mf =>
                            (evs, {| json_file := Some jf;
                                     png_file := Some D;
                                     mermaid_file := Some mf |})
                        end
                    end
                end
            end
        end
    end.

(** The arguments with which the command line does what the script does. *)
Definition example_cli (environ : pystr -> option pystr)
    (sample : option (list N)) : cli :=
  {| arg_input := sample;
     arg_provider := example_provider environ;
     arg_api_key := example_key environ;
     arg_visualize := true;
     arg_mermaid := true |}.

(* ################################################################## *)
(** * Part II: properties *)
(* ################################################################## *)

(** ** Strings *)

Lemma streq_refl (a : pystr) : streq a a = true.
Proof.
  induction a as [|x a IH]; simpl; [reflexivity|].
  now rewrite N.eqb_refl.
Qed.

Lemma streq_eq (a b : pystr) : streq a b = true <-> a = b.
Proof.
  split; [|intros ->; apply streq_refl].
  revert b; induction a as [|x a IH]; intros [|y b]; simpl; try easy.
  rewrite andb_true_iff, N.eqb_eq.
  intros [-> H]; f_equal; auto.
Qed.

Lemma streq_neq (a b : pystr) : streq a b = false <-> a <> b.
Proof.
  rewrite <- streq_eq. destruct (streq a b); split; congruence.
Qed.

Lemma streq_sym (a b : pystr) : streq a b = streq b a.
Proof.
  destruct (streq a b) eqn:E.
  - apply streq_eq in E; subst; symmetry; apply streq_refl.
  - symmetry; apply streq_neq; apply streq_neq in E; congruence.
Qed.

Lemma startswith_prefix (p s : pystr) :
  startswith p s = true <-> exists r, s = p ++ r.
Proof.
  revert s; induction p as [|x p IH]; intros s; simpl.
  - split; eauto.
  - destruct s as [|y s].
    + split; [easy|intros [r H]; discriminate].
    + rewrite andb_true_iff, N.eqb_eq, IH. split.
      * intros [-> [r ->]]; eauto.
      * intros [r H]; injection H as -> ->; eauto.
Qed.

Lemma contains_Substring (n h : pystr) :
  contains n h = true <-> Substring n h.
Proof.
  unfold Substring. induction h as [|c h IH]; simpl.
  - rewrite orb_false_r, startswith_prefix. split.
    + intros [r ->]. exists [], r. reflexivity.
    + intros [[|? ?] [b H]]; [eauto|discriminate].
  - rewrite orb_true_iff, startswith_prefix, IH. split.
    + intros [[r ->]|[a [b ->]]].
      * exists [], r; reflexivity.
      * exists (c :: a), b; reflexivity.
    + intros [[|x a] [b H]]; simpl in H.
      * left; eauto.
      * right; injection H as _ ->; eauto.
Qed.

Lemma Substring_refl (s : pystr) : Substring s s.
Proof. exists [], []. now rewrite app_nil_r. Qed.

Lemma Substring_app_l (n a b : pystr) : Substring n a -> Substring n (a ++ b).
Proof.
  intros [x [y ->]]. exists x, (y ++ b). now rewrite <- !app_assoc.
Qed.

Lemma Substring_app_r (n a b : pystr) : Substring n b -> Substring n (a ++ b).
Proof.
  intros [x [y ->]]. exists (a ++ x), y. now rewrite <- !app_assoc.
Qed.

Lemma Substring_trans (a b c : pystr) :
  Substring a b -> Substring b c -> Substring a c.
Proof.
  intros [x [y ->]] [u [v ->]].
  exists (u ++ x), (y ++ v). now rewrite <- !app_assoc.
Qed.

(** ** The validator *)

Lemma has_key_lookup (k : pystr) (d : dict) :
  has_key k d = true <-> exists v, lookup k d = Some v.
Proof.
  unfold has_key. destruct (lookup k d); split; eauto; try easy.
  intros [v H]; discriminate.
Qed.

Lemma contains_field_dict (k : pystr) (d : dict) :
  contains_field k (JDict d) <-> has_key k d = true.
Proof.
  rewrite has_key_lookup. unfold contains_field. split.
  - intros [d' [v [E H]]]. injection E as <-. eauto.
  - intros [v H]. eauto.
Qed.

Lemma in_literals_In (x : json) (lits : list pystr) :
  in_literals x lits = true <-> exists t, x = JStr t /\ In t lits.
Proof.
  unfold in_literals. rewrite existsb_exists. split.
  - intros [s [Hin Hs]]. destruct x; try discriminate.
    apply streq_eq in Hs; subst. eauto.
  - intros [t [-> Hin]]. exists t. split; [assumption|apply streq_refl].
Qed.

(** One entity: the loop body goes on exactly on a well-formed record, and
    leaves with [False] on anything else; it never raises. *)
Lemma check_entity_spec (e : json) :
  (check_entity e = Ok None /\ spec_entity e) \/
  (check_entity e = Ok (Some false) /\ ~ spec_entity e).
Proof.
  unfold check_entity, spec_entity.
  destruct e as [| | | | |d];
    try (right; split; [reflexivity|];
         intros [[d' [v [E _]]] _]; discriminate).
  cbn [isinstance_dict negb py_in rbind getitem].
  destruct (has_key (str "id") d) eqn:Hid; cbn [negb orb andb rbind].
  2:{ right; split; [reflexivity|]. intros [H _].
      apply contains_field_dict in H. congruence. }
  destruct (has_key (str "type") d) eqn:Hty; cbn [negb orb andb rbind].
  2:{ right; split; [reflexivity|]. intros [_ [[d' [t [E [H _]]]] _]].
      injection E as <-.
      assert (has_key (str "type") d = true) by (apply has_key_lookup; eauto).
      congruence. }
  destruct (has_key (str "name") d) eqn:Hnm; cbn [negb orb andb rbind].
  2:{ right; split; [reflexivity|]. intros [_ [_ H]].
      apply contains_field_dict in H. congruence. }
  apply has_key_lookup in Hty. destruct Hty as [ty Hty]. rewrite Hty.
  cbn [rbind].
  destruct (in_literals ty ENTITY_TYPES) eqn:Hin; cbn [negb].
  - left; split; [reflexivity|].
    apply in_literals_In in Hin. destruct Hin as [t [-> Hin]].
    repeat split; try (apply contains_field_dict; assumption).
    exists d, t. auto.
  - right; split; [reflexivity|]. intros [_ [[d' [t [E [H Hin']]]] _]].
    injection E as <-. rewrite Hty in H. injection H as ->.
    assert (in_literals (JStr t) ENTITY_TYPES = true)
      by (apply in_literals_In; eauto).
    congruence.
Qed.

Lemma check_relationship_spec (r : json) :
  (check_relationship r = Ok None /\ spec_relationship r) \/
  (check_relationship r = Ok (Some false) /\ ~ spec_relationship r).
Proof.
  unfold check_relationship, spec_relationship.
  destruct r as [| | | | |d];
    try (right; split; [reflexivity|];
         intros [[d' [v [E _]]] _]; discriminate).
  cbn [isinstance_dict negb py_in rbind]. rewrite !contains_field_dict.
  destruct (has_key (str "source") d); cbn [negb orb andb rbind];
    [|right; split; [reflexivity|intros [? _]; discriminate]].
  destruct (has_key (str "target") d); cbn [negb orb andb rbind];
    [|right; split; [reflexivity|intros [_ [? _]]; discriminate]].
  destruct (has_key (str "type") d); cbn [negb orb andb rbind];
    [|right; split; [reflexivity|intros [_ [_ ?]]; discriminate]].
  left; auto.
Qed.

(** A loop whose body decides a predicate decides it on the whole list. *)
Lemma for_return_decides {A} (body : A -> result (option bool))
    (P : A -> Prop) (l : list A) :
  (forall x, (body x = Ok None /\ P x) \/
             (body x = Ok (Some false) /\ ~ P x)) ->
  (for_return body l = Ok None /\ Forall P l) \/
  (for_return body l = Ok (Some false) /\ ~ Forall P l).
Proof.
  intros Hbody. induction l as [|x l IH]; simpl.
  - left; split; [reflexivity|constructor].
  - destruct (Hbody x) as [[E Hx]|[E Hx]]; rewrite E; simpl.
    + destruct IH as [[E' Hl]|[E' Hl]]; rewrite E'.
      * left; split; [reflexivity|constructor; assumption].
      * right; split; [reflexivity|]. intros H; inversion H; auto.
    + right; split; [reflexivity|]. intros H; inversion H; auto.
Qed.

(** The validator is total, hands its argument back, and its verdict is
    [spec_valid]. *)
Lemma validate_total (data : json) :
  exists b : bool,
    _validate_json_schema data = (Ok b, data) /\
    (b = true <-> spec_valid data).
Proof.
  unfold _validate_json_schema, spec_valid.
  destruct data as [| | | | |d];
    try (exists false; split; [reflexivity|];
         split; [discriminate|intros [d' [es [rs [E _]]]]; discriminate]).
  simpl.
  destruct (lookup ENTITIES d) as [es|] eqn:He.
  2:{ exists false. unfold has_key; rewrite He; simpl.
      split; [reflexivity|].
      split; [discriminate|].
      intros [d' [es [rs [E [H _]]]]]. injection E as <-. congruence. }
  destruct (lookup RELATIONSHIPS d) as [rs|] eqn:Hr.
  2:{ exists false. unfold has_key; rewrite He, Hr; simpl.
      split; [reflexivity|].
      split; [discriminate|].
      intros [d' [es' [rs' [E [_ [H _]]]]]]. injection E as <-. congruence. }
  unfold has_key; rewrite He, Hr; simpl.
  destruct es as [| | | | les|];
    try (exists false; split; [reflexivity|];
         split; [discriminate|];
         intros [d' [es' [rs' [E [H _]]]]]; injection E as <-; congruence).
  destruct rs as [| | | | lrs|];
    try (exists false; split; [reflexivity|];
         split; [discriminate|];
         intros [d' [es' [rs' [E [_ [H _]]]]]]; injection E as <-; congruence).
  simpl.
  destruct (for_return_decides check_entity spec_entity les check_entity_spec)
    as [[E Hes]|[E Hes]]; rewrite E; simpl.
  - destruct (for_return_decides check_relationship spec_relationship lrs
                check_relationship_spec) as [[E' Hrs]|[E' Hrs]];
      rewrite E'; simpl.
    + exists true. split; [reflexivity|]. split; [|reflexivity].
      intros _. exists d, les, lrs. auto.
    + exists false. split; [reflexivity|]. split; [discriminate|].
      intros [d' [es' [rs' [Ed [_ [H [_ Hf]]]]]]]. injection Ed as <-.
      rewrite Hr in H. injection H as <-. contradiction.
  - exists false. split; [reflexivity|]. split; [discriminate|].
    intros [d' [es' [rs' [Ed [H [_ [Hf _]]]]]]]. injection Ed as <-.
    rewrite He in H. injection H as <-. contradiction.
Qed.

Lemma validate_decides (data : json) :
  (_validate_json_schema data = (Ok true, data) /\ spec_valid data) \/
  (_validate_json_schema data = (Ok false, data) /\ ~ spec_valid data).
Proof.
  destruct (validate_total data) as [[|] [E Hb]].
  - left. split; [assumption|]. now apply Hb.
  - right. split; [assumption|]. intros H. apply Hb in H. discriminate.
Qed.

(** C2. For every value, the validator returns a Boolean without raising
    and leaves the value as it was, and the Boolean is true exactly when the
    value is a keyed record with the keys entities and relationships, both
    lists, every entity a record with id, name and a type among Company,
    RiskFactor and Amount, every relationship a record with source, target
    and type; on every other value it is false. *)
Theorem validate_json_schema_spec (data : json) :
  exists b : bool,
    _validate_json_schema data = (Ok b, data) /\
    (b = true <-> spec_valid data) /\
    (b = false <-> ~ spec_valid data).
Proof.
  destruct (validate_decides data) as [[E H]|[E H]].
  - exists true. split; [exact E|]. split; split; intros; try easy.
  - exists false. split; [exact E|]. split; split; intros; try easy.
Qed.

(** ** The shallow repair *)

Lemma has_key_app (k : pystr) (d d' : dict) :
  has_key k (d ++ d') = has_key k d || has_key k d'.
Proof.
  unfold has_key. induction d as [|[k' v] d IH]; simpl.
  - now destruct (lookup k d').
  - destruct (streq k k'); [reflexivity|exact IH].
Qed.

(** Assigning to a key the record does not have appends the pair and leaves
    every other pair where it was. *)
Lemma dict_set_absent (k : pystr) (v : json) (d : dict) :
  has_key k d = false -> dict_set k v d = d ++ [(k, v)].
Proof.
  unfold has_key. induction d as [|[k' v'] d IH]; simpl; [reflexivity|].
  destruct (streq k k'); [discriminate|].
  intros H. now rewrite IH.
Qed.

Lemma repair_dict (d : dict) :
  repair (JDict d) = Ok (JDict (d ++ missing_defaults d)).
Proof.
  unfold repair, missing_defaults. cbn [py_in rbind].
  destruct (has_key ENTITIES d) eqn:He; cbn [negb setitem rbind py_in].
  - destruct (has_key RELATIONSHIPS d) eqn:Hr; cbn [negb setitem].
    + now rewrite app_nil_r.
    + now rewrite dict_set_absent.
  - rewrite dict_set_absent by assumption.
    rewrite has_key_app.
    change (has_key RELATIONSHIPS [(ENTITIES, JList [])]) with false.
    rewrite orb_false_r.
    destruct (has_key RELATIONSHIPS d) eqn:Hr; cbn [negb setitem].
    + reflexivity.
    + rewrite dict_set_absent.
      * now rewrite <- app_assoc.
      * rewrite has_key_app, Hr. reflexivity.
Qed.

Lemma spec_valid_keys (d : dict) :
  spec_valid (JDict d) ->
  has_key ENTITIES d = true /\ has_key RELATIONSHIPS d = true.
Proof.
  intros [d' [es [rs [E [He [Hr _]]]]]]. injection E as <-.
  split; apply has_key_lookup; eauto.
Qed.

Lemma validate_and_repair_cases (g : json) :
  (spec_valid g /\ validate_and_repair g = Ok g) \/
  (~ spec_valid g /\ validate_and_repair g = repair g).
Proof.
  unfold validate_and_repair.
  destruct (validate_decides g) as [[E H]|[E H]]; rewrite E; cbn [rbind negb].
  - left. split; [assumption|reflexivity].
  - right. split; [assumption|reflexivity].
Qed.

(** C4. When validation fails on a keyed record, the pipeline returns the
    record with the pairs for the missing keys entities and relationships
    added at its end, each with an empty list, and every pair it had left
    in place; a value that is no keyed record is never changed by the
    repair; and on a valid graph both the pipeline step and the repair
    itself return the graph unchanged. *)
Theorem shallow_repair_only_defaults_missing_keys :
  (forall d : dict,
      ~ spec_valid (JDict d) ->
      validate_and_repair (JDict d) = Ok (JDict (d ++ missing_defaults d))) /\
  (forall g g' : json,
      isinstance_dict g = false -> repair g = Ok g' -> g' = g) /\
  (forall g : json,
      spec_valid g -> validate_and_repair g = Ok g /\ repair g = Ok g).
Proof.
  split; [|split].
  - intros d Hd.
    destruct (validate_and_repair_cases (JDict d)) as [[H _]|[_ E]];
      [contradiction|].
    rewrite E. apply repair_dict.
  - intros g g' Hg. unfold repair.
    destruct g as [| | | s | l | d]; try discriminate; cbn [py_in rbind].
    + destruct (contains ENTITIES s); cbn [negb setitem rbind py_in];
        [|discriminate].
      destruct (contains RELATIONSHIPS s); cbn [negb setitem];
        [|discriminate].
      congruence.
    + destruct (existsb (is_str ENTITIES) l); cbn [negb setitem rbind py_in];
        [|discriminate].
      destruct (existsb (is_str RELATIONSHIPS) l); cbn [negb setitem];
        [|discriminate].
      congruence.
  - intros g Hg. split.
    + destruct (validate_and_repair_cases g) as [[_ E]|[H _]];
        [assumption|contradiction].
    + destruct Hg as [d [es [rs [-> H]]]].
      assert (Hv : spec_valid (JDict d)) by (exists d, es, rs; auto).
      apply spec_valid_keys in Hv. destruct Hv as [He Hr].
      rewrite repair_dict. unfold missing_defaults. rewrite He, Hr.
      now rewrite app_nil_r.
Qed.

(** A record that lacks [relationships] gets that key, and its [entities]
    stay as they are. *)
Lemma shallow_repair_only_defaults_missing_keys_witness :
  validate_and_repair (JDict [(ENTITIES, JList [JInt 7])]) =
  Ok (JDict [(ENTITIES, JList [JInt 7]); (RELATIONSHIPS, JList [])]).
Proof.
  apply (proj1 shallow_repair_only_defaults_missing_keys
           [(ENTITIES, JList [JInt 7])]).
  intros [d [es [rs [E [_ [H _]]]]]].
  injection E as <-. vm_compute in H. discriminate H.
Defined.

(** ** The constructor *)

Section Constructor.
Context {R : PyRuntime}.
Variable environ : pystr -> option pystr.

(** With a key in hand the constructor reaches the endpoint selection,
    whatever the provider. *)
Lemma init_key_given (provider : pystr) (c : N) (k : pystr) :
  __init__ environ provider (Some (c :: k)) =
  Ok {| api_provider := py_lower provider;
        api_key := c :: k;
        api_url := if streq (py_lower provider) (str "groq")
                   then GROQ_URL else OPENAI_URL;
        model := if streq (py_lower provider) (str "groq")
                 then GROQ_MODEL else OPENAI_MODEL;
        max_retries := 3 |}.
Proof.
  unfold __init__. cbn [key_given rbind].
  now destruct (streq (py_lower provider) (str "groq")).
Qed.

Lemma init_unknown_provider (provider : pystr) (key : option pystr) :
  key_given key = false ->
  streq (py_lower provider) (str "groq") = false ->
  streq (py_lower provider) (str "openai") = false ->
  __init__ environ provider key =
  Raise (ValueError (str "Unknown API provider: " ++ provider)).
Proof.
  intros Hk Hg Ho. unfold __init__. now rewrite Hk, Hg, Ho.
Qed.
End Constructor.

(** C9. With an explicit non-empty key the constructor returns an object
    for every provider string and never raises; a provider that is not groq
    after lowercasing gets the OpenAI endpoint and model; a call that raises
    was made without a key, and without a key a provider that is neither
    groq nor openai raises the unknown-provider error. *)
Theorem init_explicit_key_never_raises :
  forall (R : PyRuntime) (environ : pystr -> option pystr)
         (provider : pystr),
    (forall (c : N) (k : pystr),
        exists self,
          __init__ environ provider (Some (c :: k)) = Ok self /\
          api_key self = c :: k /\
          api_provider self = py_lower provider /\
          (streq (py_lower provider) (str "groq") = false ->
           api_url self = OPENAI_URL /\ model self = OPENAI_MODEL) /\
          (streq (py_lower provider) (str "groq") = true ->
           api_url self = GROQ_URL /\ model self = GROQ_MODEL)) /\
    (forall (key : option pystr) (e : exn),
        __init__ environ provider key = Raise e -> key_given key = false) /\
    (forall key : option pystr,
        key_given key = false ->
        streq (py_lower provider) (str "groq") = false ->
        streq (py_lower provider) (str "openai") = false ->
        __init__ environ provider key =
        Raise (ValueError (str "Unknown API provider: " ++ provider))).
Proof.
  intros R environ provider. split; [|split].
  - intros c k. eexists. split; [apply init_key_given|].
    cbn [api_key api_provider api_url model].
    split; [reflexivity|]. split; [reflexivity|].
    split; intros ->; split; reflexivity.
  - intros key e H. destruct key as [[|c k]|]; try reflexivity.
    rewrite init_key_given in H. discriminate.
  - intros key. apply init_unknown_provider.
Qed.

(** The provider [Azure] with the key [k]: configured as OpenAI. *)
Lemma init_explicit_key_never_raises_witness :
  exists self,
    @__init__ example_runtime no_environ (str "Azure") (Some (str "k")) =
    Ok self /\
    api_url self = OPENAI_URL /\ model self = OPENAI_MODEL.
Proof.
  destruct (proj1 (init_explicit_key_never_raises example_runtime no_environ
                     (str "Azure")) 107%N []) as [self [E [_ [_ [H _]]]]].
  exists self. split; [exact E|]. apply H. reflexivity.
Defined.

(** ** The prompt builder *)

(** C7. The prompt is a function of the document text alone, so two calls
    on the same text give the same prompt, and the text stands in it
    verbatim, between the fixed head and the fixed tail of the template. *)
Theorem build_prompt_deterministic_and_verbatim (d : pystr) :
  _build_extraction_prompt d = _build_extraction_prompt d /\
  Substring d (_build_extraction_prompt d) /\
  _build_extraction_prompt d = PROMPT_HEAD ++ d ++ PROMPT_TAIL.
Proof.
  split; [reflexivity|]. split; [|reflexivity].
  exists PROMPT_HEAD, PROMPT_TAIL. reflexivity.
Qed.

(** ** The retry loop *)

Lemma attempt_body_429 (retries : nat) (srv : service) (attempt : nat)
    (r : response) :
  srv attempt = Responded r -> status_code r = 429%Z ->
  attempt_body retries srv attempt =
  ([EvPost; EvSleep (2 ^ Z.of_nat attempt * 2)], inl tt).
Proof.
  intros Hs Hc. unfold attempt_body. now rewrite Hs, Hc.
Qed.

(** A service that answers every request with 429 lets the loop run to its
    end: one request and one sleep per attempt, and [None] as the result. *)
Lemma retry_loop_429 (retries : nat) (srv : service) (attempts : list nat) :
  (forall n, exists r, srv n = Responded r /\ status_code r = 429%Z) ->
  retry_loop retries srv attempts =
  (flat_map (fun a => [EvPost; EvSleep (2 ^ Z.of_nat a * 2)]) attempts,
   Returned None).
Proof.
  intros Hsrv. induction attempts as [|a rest IH]; [reflexivity|].
  destruct (Hsrv a) as [r [Hr Hc]].
  cbn [retry_loop flat_map]. rewrite (attempt_body_429 retries srv a Hr Hc).
  now rewrite IH.
Qed.

(** C1. Against a service that answers every request with status 429 the
    client posts three times and sleeps 2, 4 and 8 seconds, one sleep after
    each request; after the third sleep the loop is over and the call
    returns [None]: no exception reaches the caller. *)
Theorem call_llm_always_rate_limited
    (self : detective) (srv : service) (prompt : pystr) :
  max_retries self = 3 ->
  (forall n, exists r, srv n = Responded r /\ status_code r = 429%Z) ->
  _call_llm self srv prompt =
  ([EvPost; EvSleep 2; EvPost; EvSleep 4; EvPost; EvSleep 8],
   Returned None).
Proof.
  intros Hm Hsrv. unfold _call_llm. rewrite Hm.
  rewrite (retry_loop_429 3 srv (seq 0 3) Hsrv). reflexivity.
Qed.

Lemma call_llm_always_rate_limited_witness :
  _call_llm groq_detective always_429 (str "prompt") =
  ([EvPost; EvSleep 2; EvPost; EvSleep 4; EvPost; EvSleep 8],
   Returned None).
Proof.
  apply call_llm_always_rate_limited; [reflexivity|].
  intros n. eexists. split; reflexivity.
Defined.

(** The pipeline on such a service: the [None] that [_call_llm] returns
    reaches [json.loads], which raises [TypeError]. *)
Lemma extract_always_rate_limited :
  extract_knowledge_graph groq_detective always_429 [] =
  ([EvPost; EvSleep 2; EvPost; EvSleep 4; EvPost; EvSleep 8],
   Raise TypeError).
Proof. reflexivity. Qed.

(** ** The clean-up of a response *)

Lemma startswith_length (p s : pystr) :
  startswith p s = true -> length p <= length s.
Proof.
  rewrite startswith_prefix. intros [r ->]. rewrite length_app. lia.
Qed.

Lemma startswith_app_l (p q s : pystr) :
  startswith (p ++ q) s = true -> startswith p s = true.
Proof.
  rewrite !startswith_prefix. intros [r ->]. exists (q ++ r).
  now rewrite app_assoc.
Qed.

Lemma lstrip_suffix (s : pystr) : exists w, s = w ++ lstrip s.
Proof.
  induction s as [|c s [w IH]]; [now exists []|]. simpl.
  destruct (isspace c).
  - exists (c :: w). simpl. now f_equal.
  - now exists [].
Qed.

Lemma lstrip_length (s : pystr) : length (lstrip s) <= length s.
Proof.
  destruct (lstrip_suffix s) as [w E]. rewrite E at 2.
  rewrite length_app. lia.
Qed.

Lemma lstrip_idem (s : pystr) : lstrip (lstrip s) = lstrip s.
Proof.
  induction s as [|c s IH]; [reflexivity|]. simpl.
  destruct (isspace c) eqn:E; [exact IH|]. simpl. now rewrite E.
Qed.

(** A string is its own [lstrip] exactly when it does not start with a
    space. *)
Lemma lstrip_fixed (c : N) (s : pystr) :
  lstrip (c :: s) = c :: s <-> isspace c = false.
Proof.
  simpl. destruct (isspace c) eqn:E; split; try easy.
  intros H. pose proof (lstrip_length s) as L. rewrite H in L.
  simpl in L. lia.
Qed.

Lemma rstrip_prefix (s : pystr) : exists w, s = rstrip s ++ w.
Proof.
  unfold rstrip. destruct (lstrip_suffix (rev s)) as [w E].
  exists (rev w). rewrite <- rev_app_distr, <- E. now rewrite rev_involutive.
Qed.

Lemma rstrip_length (s : pystr) : length (rstrip s) <= length s.
Proof.
  destruct (rstrip_prefix s) as [w E]. rewrite E at 2.
  rewrite length_app. lia.
Qed.

Lemma rstrip_idem (s : pystr) : rstrip (rstrip s) = rstrip s.
Proof.
  unfold rstrip. now rewrite rev_involutive, lstrip_idem.
Qed.

Lemma strip_length (s : pystr) : length (strip s) <= length s.
Proof.
  unfold strip. pose proof (rstrip_length (lstrip s)).
  pose proof (lstrip_length s). lia.
Qed.

(** Removing trailing spaces does not uncover a leading one. *)
Lemma lstrip_rstrip (t : pystr) :
  lstrip t = t -> lstrip (rstrip t) = rstrip t.
Proof.
  intros Ht. destruct (rstrip_prefix t) as [w E].
  destruct (rstrip t) as [|c r]; [reflexivity|].
  rewrite E in Ht. simpl in Ht. apply lstrip_fixed in Ht.
  now apply lstrip_fixed.
Qed.

(** The result of [strip] has no space at either end. *)
Lemma strip_trimmed (s : pystr) :
  lstrip (strip s) = strip s /\ rstrip (strip s) = strip s.
Proof.
  unfold strip. split.
  - apply lstrip_rstrip, lstrip_idem.
  - apply rstrip_idem.
Qed.

Lemma strip_idem (s : pystr) : strip (strip s) = strip s.
Proof.
  destruct (strip_trimmed s) as [L T].
  unfold strip at 1. now rewrite L, T.
Qed.

Lemma clean_response_trimmed (x : pystr) :
  strip (clean_response x) = clean_response x.
Proof. unfold clean_response. apply strip_idem. Qed.

Lemma clean_response_length (x : pystr) :
  length (clean_response x) <= length x.
Proof.
  unfold clean_response, drop_front, drop_back. cbv zeta.
  set (c0 := strip x).
  set (c1 := if startswith FENCE_JSON c0 then skipn 7 c0 else c0).
  set (c2 := if startswith FENCE c1 then skipn 3 c1 else c1).
  set (c3 := if endswith FENCE c2 then firstn (length c2 - 3) c2 else c2).
  change (length (strip c3) <= length x).
  assert (length c0 <= length x) by apply strip_length.
  assert (length c1 <= length c0)
    by (unfold c1; destruct (startswith FENCE_JSON c0);
        rewrite ?length_skipn; lia).
  assert (length c2 <= length c1)
    by (unfold c2; destruct (startswith FENCE c1);
        rewrite ?length_skipn; lia).
  assert (length c3 <= length c2)
    by (unfold c3; destruct (endswith FENCE c2);
        rewrite ?length_firstn; lia).
  pose proof (strip_length c3). lia.
Qed.

(** On a trimmed string that carries a fence at either end the clean-up
    removes at least three characters. *)
Lemma clean_response_shrinks (y : pystr) :
  strip y = y ->
  startswith FENCE y = true \/ endswith FENCE y = true ->
  length (clean_response y) < length y.
Proof.
  intros Hy Hf. unfold clean_response, drop_front, drop_back. cbv zeta.
  rewrite Hy.
  set (c1 := if startswith FENCE_JSON y then skipn 7 y else y).
  set (c2 := if startswith FENCE c1 then skipn 3 c1 else c1).
  set (c3 := if endswith FENCE c2 then firstn (length c2 - 3) c2 else c2).
  change (length (strip c3) < length y).
  assert (L1 : length c1 <= length y)
    by (unfold c1; destruct (startswith FENCE_JSON y);
        rewrite ?length_skipn; lia).
  assert (L2 : length c2 <= length c1)
    by (unfold c2; destruct (startswith FENCE c1);
        rewrite ?length_skipn; lia).
  assert (L3 : length c3 <= length c2)
    by (unfold c3; destruct (endswith FENCE c2);
        rewrite ?length_firstn; lia).
  pose proof (strip_length c3) as L4.
  destruct (startswith FENCE y) eqn:Hs.
  - (* a leading fence: the first or the second test removes it *)
    destruct (startswith FENCE_JSON y) eqn:Hj.
    + assert (length c1 = length y - 7)
        by (unfold c1; rewrite ?Hj; apply length_skipn).
      apply startswith_length in Hj. change (length FENCE_JSON) with 7 in Hj.
      lia.
    + assert (E1 : c1 = y) by (unfold c1; now rewrite ?Hj).
      assert (length c2 = length y - 3)
        by (unfold c2; rewrite E1, ?Hs; apply length_skipn).
      apply startswith_length in Hs. change (length FENCE) with 3 in Hs.
      lia.
  - (* no leading fence, so a trailing one, which the third test removes *)
    destruct Hf as [Hf|He]; [discriminate|].
    assert (Hj : startswith FENCE_JSON y = false).
    { destruct (startswith FENCE_JSON y) eqn:Hj; [|reflexivity].
      change FENCE_JSON with (FENCE ++ str "json") in Hj.
      apply startswith_app_l in Hj. congruence. }
    assert (E1 : c1 = y) by (unfold c1; now rewrite Hj).
    assert (E2 : c2 = y) by (unfold c2; now rewrite E1, Hs).
    assert (length c3 = length y - 3).
    { unfold c3. rewrite E2, He. rewrite length_firstn. lia. }
    unfold endswith in He. apply startswith_length in He.
    rewrite !length_rev in He. change (length FENCE) with 3 in He. lia.
Qed.

(** On a trimmed string without a fence at either end the clean-up changes
    nothing. *)
Lemma clean_response_fixed (y : pystr) :
  strip y = y ->
  startswith FENCE y = false -> endswith FENCE y = false ->
  clean_response y = y.
Proof.
  intros Hy Hs He. unfold clean_response. cbv zeta. rewrite Hy.
  assert (Hj : startswith FENCE_JSON y = false).
  { destruct (startswith FENCE_JSON y) eqn:Hj; [|reflexivity].
    change FENCE_JSON with (FENCE ++ str "json") in Hj.
    apply startswith_app_l in Hj. congruence. }
  now rewrite Hj, Hs, He.
Qed.

(** C3, as stated, fails: the clean-up removes one layer of fences, so a
    response wrapped twice still carries a fence after one pass, and a second
    pass removes it. *)
Lemma clean_response_not_idempotent :
  clean_response doubly_fenced =
    concat [str "```json"; nl; str "{}"; nl; str "```"] /\
  clean_response (clean_response doubly_fenced) = str "{}" /\
  streq (clean_response (clean_response doubly_fenced))
        (clean_response doubly_fenced) = false.
Proof. vm_compute. repeat split. Qed.

(** C3, amended. The clean-up (trim, drop a leading fence with or without
    the language tag, drop a trailing fence, trim) removes one layer of
    fences: a second pass changes the result of the first exactly when that
    result still starts or ends with a fence. So the clean-up is idempotent
    on the inputs whose cleaned text has no fence at either end, and on no
    other input. *)
Theorem clean_response_idempotent_iff (x : pystr) :
  clean_response (clean_response x) = clean_response x <->
  startswith FENCE (clean_response x) = false /\
  endswith FENCE (clean_response x) = false.
Proof.
  pose proof (clean_response_trimmed x) as Ht.
  set (y := clean_response x) in *.
  split.
  - intros Hfix.
    destruct (startswith FENCE y) eqn:Hs, (endswith FENCE y) eqn:He;
      try (split; reflexivity);
      exfalso;
      assert (L : length (clean_response y) < length y)
        by (apply clean_response_shrinks; auto);
      rewrite Hfix in L; lia.
  - intros [Hs He]. now apply clean_response_fixed.
Qed.

(** ** The flow-chart renderer *)

Lemma for_each_app {A S} (body : S -> A -> result S) (l l' : list A) (s : S) :
  for_each body (l ++ l') s = (s' <- for_each body l s ;; for_each body l' s').
Proof.
  revert s. induction l as [|x l IH]; intros s; simpl; [reflexivity|].
  destruct (body s x); simpl; [apply IH|reflexivity].
Qed.

Lemma In_Substring_join (sep l : pystr) (lines : list pystr) :
  In l lines -> Substring l (join sep lines).
Proof.
  induction lines as [|x [|y r] IH]; intros Hin.
  - destruct Hin.
  - destruct Hin as [->|[]]. apply Substring_refl.
  - destruct Hin as [->|Hin].
    + apply Substring_app_l, Substring_refl.
    + change (join sep (x :: y :: r)) with (x ++ sep ++ join sep (y :: r)).
      apply Substring_app_r, Substring_app_r, IH, Hin.
Qed.

Lemma sanitize_spec (s : pystr) : sanitize s = spec_sanitize s.
Proof.
  unfold sanitize, spec_sanitize, replace_char. rewrite map_map.
  apply map_ext. intros c.
  destruct (N.eqb c 32) eqn:E1; [reflexivity|].
  destruct (N.eqb c 45) eqn:E2; reflexivity.
Qed.

Lemma sanitize_clean (s : pystr) :
  Forall (fun c => c <> 32%N /\ c <> 45%N) (sanitize s).
Proof.
  rewrite sanitize_spec. unfold spec_sanitize. apply Forall_forall.
  intros c Hc. apply in_map_iff in Hc. destruct Hc as [c0 [<- _]].
  destruct (N.eqb c0 32) eqn:E1; simpl; [split; discriminate|].
  destruct (N.eqb c0 45) eqn:E2; simpl; [split; discriminate|].
  apply N.eqb_neq in E1, E2. auto.
Qed.

Section Mermaid.
Context {R : PyRuntime}.

Lemma mermaid_entity_ok (acc : list pystr) (e : json) :
  renderable_entity e ->
  mermaid_entity acc e =
  Ok (acc ++ [node_declaration e; style_declaration e]).
Proof.
  intros [d [i [n [t [-> [Hi [Hn Ht]]]]]]].
  unfold mermaid_entity, node_declaration, style_declaration, field.
  cbn [getitem]. rewrite Hi, Hn, Ht. cbn [rbind sanitized text_of].
  now rewrite <- app_assoc.
Qed.

Lemma mermaid_relationship_ok (acc : list pystr) (r : json) :
  renderable_relationship r ->
  mermaid_relationship acc r = Ok (acc ++ [edge_declaration r]).
Proof.
  intros [d [s [t [ty [-> [Hs [Ht Hty]]]]]]].
  unfold mermaid_relationship, edge_declaration, field.
  cbn [getitem]. rewrite Hs, Ht, Hty. reflexivity.
Qed.

Lemma mermaid_entities_ok (es : list json) (acc : list pystr) :
  Forall renderable_entity es ->
  for_each mermaid_entity es acc =
  Ok (acc ++ flat_map (fun e => [node_declaration e; style_declaration e])
                      es).
Proof.
  intros H. revert acc. induction H as [|e es He _ IH]; intros acc.
  - simpl. now rewrite app_nil_r.
  - cbn [for_each flat_map]. rewrite (mermaid_entity_ok acc He).
    cbn [rbind]. rewrite IH. now rewrite <- app_assoc.
Qed.

Lemma mermaid_relationships_ok (rs : list json) (acc : list pystr) :
  Forall renderable_relationship rs ->
  for_each mermaid_relationship rs acc = Ok (acc ++ map edge_declaration rs).
Proof.
  intros H. revert acc. induction H as [|r rs Hr _ IH]; intros acc.
  - simpl. now rewrite app_nil_r.
  - cbn [for_each map]. rewrite (mermaid_relationship_ok acc Hr).
    cbn [rbind]. rewrite IH. now rewrite <- app_assoc.
Qed.

Lemma mermaid_lines_ok (d : dict) (es rs : list json) :
  lookup ENTITIES d = Some (JList es) ->
  lookup RELATIONSHIPS d = Some (JList rs) ->
  Forall renderable_entity es ->
  Forall renderable_relationship rs ->
  mermaid_lines (JDict d) = Ok (chart_lines es rs).
Proof.
  intros He Hr Hes Hrs. unfold mermaid_lines. cbn [getitem].
  rewrite He, Hr. cbn [rbind py_iter].
  rewrite (mermaid_entities_ok _ Hes). cbn [rbind].
  rewrite (mermaid_relationships_ok _ Hrs). reflexivity.
Qed.

(** The renderer returns on a graph of renderable records, and every line
    of the chart stands in its text. *)
Lemma mermaid_chart_ok (d : dict) (es rs : list json) :
  lookup ENTITIES d = Some (JList es) ->
  lookup RELATIONSHIPS d = Some (JList rs) ->
  Forall renderable_entity es ->
  Forall renderable_relationship rs ->
  exists text,
    mermaid_full_content (JDict d) = Ok text /\
    forall l, In l (chart_lines es rs) -> Substring l text.
Proof.
  intros He Hr Hes Hrs. unfold mermaid_full_content.
  rewrite (mermaid_lines_ok d He Hr Hes Hrs). cbn [rbind getitem].
  rewrite He, Hr. cbn [rbind py_len].
  eexists. split; [reflexivity|].
  intros l Hl. cbn [concat].
  do 5 apply Substring_app_r. apply Substring_app_l.
  now apply In_Substring_join.
Qed.
End Mermaid.

Lemma In_chart_lines_entity {R : PyRuntime} (es rs : list json) (e : json) :
  In e es ->
  In (node_declaration e) (chart_lines es rs) /\
  In (style_declaration e) (chart_lines es rs).
Proof.
  intros He. unfold chart_lines.
  split; right; apply in_or_app; left; apply in_flat_map; exists e;
    (split; [assumption|simpl; auto]).
Qed.

Lemma In_chart_lines_relationship {R : PyRuntime} (es rs : list json)
    (r : json) :
  In r rs -> In (edge_declaration r) (chart_lines es rs).
Proof.
  intros Hr. unfold chart_lines. right. apply in_or_app. right.
  now apply in_map.
Qed.

Lemma renderable_two_companies :
  Forall renderable_entity
    [entity "c1" "Company" "Reliance Retail" JNull;
     entity "c2" "Company" "Hamleys" JNull] /\
  Forall renderable_relationship [relationship "c1" "c2" "OWNS"].
Proof.
  split; repeat constructor; unfold entity, relationship;
    do 4 eexists; repeat split; reflexivity.
Qed.




Lemma renderable_dangling_graph :
  Forall renderable_entity [entity "c1" "Company" "Reliance Retail" JNull] /\
  Forall renderable_relationship [relationship "c1" "ghost" "OWNS"].
Proof.
  split; repeat constructor; unfold entity, relationship;
    do 4 eexists; repeat split; reflexivity.
Qed.

(** C10. The flow-chart renderer appends one edge declaration for every
    relationship, in order, after the lines of the entities; what makes a
    relationship renderable says nothing about the entities, so an edge is
    declared whether or not its endpoints are entities of the graph. On the
    graph with the dangling relationship from c1 to ghost the chart declares
    that edge, while the graph the diagram renderer builds has no edge. *)
Theorem mermaid_declares_every_relationship :
  (forall (R : PyRuntime) (d : dict) (es rs : list json),
      lookup ENTITIES d = Some (JList es) ->
      lookup RELATIONSHIPS d = Some (JList rs) ->
      Forall renderable_entity es ->
      Forall renderable_relationship rs ->
      exists text entity_lines,
        mermaid_full_content (JDict d) = Ok text /\
        mermaid_lines (JDict d) =
          Ok (GRAPH_TD :: entity_lines ++ map edge_declaration rs) /\
        length entity_lines = 2 * length es /\
        (forall r, In r rs -> Substring (edge_declaration r) text)) /\
  (forall R : PyRuntime,
      (exists text,
          mermaid_full_content dangling_graph = Ok text /\
          Substring (str "    c1 -->|OWNS| ghost") text) /\
      (exists G, build_graph dangling_graph = Ok G /\ edges G = [])).
Proof.
  assert (General : forall (R : PyRuntime) (d : dict) (es rs : list json),
      lookup ENTITIES d = Some (JList es) ->
      lookup RELATIONSHIPS d = Some (JList rs) ->
      Forall renderable_entity es ->
      Forall renderable_relationship rs ->
      exists text entity_lines,
        mermaid_full_content (JDict d) = Ok text /\
        mermaid_lines (JDict d) =
          Ok (GRAPH_TD :: entity_lines ++ map edge_declaration rs) /\
        length entity_lines = 2 * length es /\
        (forall r, In r rs -> Substring (edge_declaration r) text)).
  { intros R d es rs He Hr Hes Hrs.
    destruct (mermaid_chart_ok d He Hr Hes Hrs) as [text [E Hin]].
    exists text,
      (flat_map (fun e => [node_declaration e; style_declaration e]) es).
    split; [exact E|].
    split; [now apply mermaid_lines_ok|]. split.
    - clear. induction es as [|e es IH]; [reflexivity|].
      cbn [flat_map app length]. rewrite IH. lia.
    - intros r Hinr. apply Hin. now apply In_chart_lines_relationship. }
  split; [exact General|].
  intros R. split.
  - destruct renderable_dangling_graph as [Hes Hrs].
    destruct (General R (graph_dict _ _) _ _ eq_refl eq_refl Hes Hrs)
      as [text [ls [E [_ [_ Hr]]]]].
    exists text. split; [exact E|].
    specialize (Hr _ (or_introl eq_refl)).
    assert (E1 : edge_declaration (relationship "c1" "ghost" "OWNS") =
                 str "    c1 -->|OWNS| ghost").
    { unfold edge_declaration, edge_line.
      change (field (str "type") (relationship "c1" "ghost" "OWNS"))
        with (JStr (str "OWNS")).
      rewrite py_format_str. reflexivity. }
    now rewrite E1 in Hr.
  - eexists. split; [vm_compute; reflexivity|reflexivity].
Qed.

Lemma mermaid_declares_every_relationship_witness :
  exists text,
    @mermaid_full_content example_runtime dangling_graph = Ok text /\
    Substring (@edge_declaration example_runtime
                 (relationship "c1" "ghost" "OWNS")) text.
Proof.
  destruct renderable_dangling_graph as [Hes Hrs].
  destruct (proj1 mermaid_declares_every_relationship example_runtime
              (graph_dict _ _) _ _ eq_refl eq_refl Hes Hrs)
    as [text [ls [E [_ [_ Hr]]]]].
  exists text. split; [exact E|].
  apply Hr. left. reflexivity.
Defined.

(** ** The diagram renderer *)

(** Inversion of a successful sequence. *)
Ltac inv_bind H :=
  match type of H with
  | rbind ?c _ = Ok _ =>
      let E := fresh "E" in
      destruct c eqn:E; [cbn [rbind] in H|discriminate H]
  end.

(** Python's [==] is transitive on keys. *)
Lemma key_eq_trans (a b c : json) :
  key_eq a b = true -> key_eq c a = key_eq c b.
Proof.
  destruct a as [|x|x|x|x|x], b as [|y|y|y|y|y]; simpl; try discriminate;
    intros H;
    try (apply Z.eqb_eq in H); try (apply streq_eq in H);
    try (apply eqb_prop in H); subst;
    destruct c as [|w|w|w|w|w]; simpl; try reflexivity;
    try apply Z.eqb_sym;
    repeat match goal with b : bool |- _ => destruct b end; reflexivity.
Qed.

Lemma kmem_kset {V} (k k' : json) (v : V) (m : list (json * V)) :
  kmem k (kset k' v m) = key_eq k k' || kmem k m.
Proof.
  unfold kmem. induction m as [|[k'' v''] m IH]; simpl.
  - reflexivity.
  - destruct (key_eq k' k'') eqn:E; simpl.
    + rewrite (key_eq_trans _ _ k E). now destruct (key_eq k k'').
    + rewrite IH. destruct (key_eq k k''), (key_eq k k'); reflexivity.
Qed.

Section Diagram.
Context {R : PyRuntime}.

(** One pass through the entity loop registers the id of the entity and
    adds no edge. *)
Lemma visualize_entity_inv (m m' : list (json * json)) (G G' : digraph)
    (e : json) :
  visualize_entity (m, G) e = Ok (m', G') ->
  m' = kset (field (str "id") e) e m /\ edges G' = edges G.
Proof.
  unfold visualize_entity. intros H.
  inv_bind H. inv_bind H. inv_bind H. inv_bind H. inv_bind H. inv_bind H.
  inv_bind H. injection H as <- <-.
  assert (Hid : field (str "id") e = a).
  { destruct e; try discriminate. unfold field. cbn [getitem] in E.
    destruct (lookup (str "id") d); [now injection E|discriminate]. }
  destruct (hashable a); [|discriminate]. injection E0 as <-.
  split; [now rewrite Hid|].
  unfold add_node in E5. destruct a; try discriminate;
    injection E5 as <-; reflexivity.
Qed.

(** When the entity loop is done, the keys of [entity_map] are the entity
    ids, and the graph has the edges it started with. *)
Lemma visualize_entities_inv (es : list json) :
  forall (m m' : list (json * json)) (G G' : digraph),
    for_each visualize_entity es (m, G) = Ok (m', G') ->
    (forall k, kmem k m' = kmem k m || is_entity_id es k) /\
    edges G' = edges G.
Proof.
  induction es as [|e es IH]; intros m m' G G' H.
  - injection H as <- <-. split; [|reflexivity].
    intros k. now rewrite orb_false_r.
  - cbn [for_each] in H. inv_bind H. destruct a as [m1 G1].
    apply visualize_entity_inv in E. destruct E as [-> HG1].
    apply IH in H. destruct H as [Hk HG']. split; [|congruence].
    intros k. rewrite Hk, kmem_kset.
    unfold is_entity_id, entity_ids. cbn [map existsb].
    destruct (key_eq k (field (str "id") e)), (kmem k m),
      (existsb (key_eq k) (map (field (str "id")) es)); reflexivity.
Qed.

(** The edge loop passes over a dangling relationship without a trace. *)
Lemma visualize_relationship_dangling (es : list json)
    (entity_map : list (json * json)) (G : digraph) (rel : json) :
  (forall k, kmem k entity_map = is_entity_id es k) ->
  dangling es rel = true ->
  visualize_relationship entity_map G rel = Ok G.
Proof.
  intros Hk. unfold dangling, visualize_relationship.
  destruct (getitem rel (str "source")) as [s|]; [|discriminate].
  destruct (getitem rel (str "target")) as [t|]; [|discriminate].
  cbn [rbind]. unfold member. rewrite !Hk.
  destruct (hashable s); [|discriminate]. cbn [andb rbind].
  destruct (is_entity_id es s); cbn [negb orb rbind andb];
    [|reflexivity].
  destruct (hashable t); [|discriminate]. cbn [andb rbind].
  destruct (is_entity_id es t); [discriminate|reflexivity].
Qed.

Lemma visualize_relationships_filter (es : list json)
    (entity_map : list (json * json)) (rs : list json) :
  (forall k, kmem k entity_map = is_entity_id es k) ->
  forall G,
    for_each (visualize_relationship entity_map) rs G =
    for_each (visualize_relationship entity_map) (without_dangling es rs) G.
Proof.
  intros Hk. unfold without_dangling.
  induction rs as [|r rs IH]; intros G; [reflexivity|].
  cbn [for_each filter]. destruct (dangling es r) eqn:Hd; cbn [negb].
  - rewrite visualize_relationship_dangling with (es := es) by assumption.
    cbn [rbind].
    apply IH.
  - cbn [for_each]. destruct (visualize_relationship entity_map G r);
      cbn [rbind]; [apply IH|reflexivity].
Qed.

(** The graph does not depend on the dangling relationships. *)
Lemma build_graph_without_dangling (d d' : dict) (es rs : list json) :
  lookup ENTITIES d = Some (JList es) ->
  lookup ENTITIES d' = Some (JList es) ->
  lookup RELATIONSHIPS d = Some (JList rs) ->
  lookup RELATIONSHIPS d' = Some (JList (without_dangling es rs)) ->
  build_graph (JDict d) = build_graph (JDict d').
Proof.
  intros He He' Hr Hr'. unfold build_graph. cbn [getitem].
  rewrite He, He', Hr, Hr'. cbn [rbind py_iter].
  destruct (for_each visualize_entity es ([], {| nodes := []; edges := [] |}))
    as [[entity_map G]|] eqn:E; cbn [rbind]; [|reflexivity].
  apply visualize_entities_inv in E. destruct E as [Hk _].
  apply visualize_relationships_filter. intros k. now rewrite Hk.
Qed.

Lemma In_eset (e e' : json * json) (lbl l : json)
    (m : list ((json * json) * json)) :
  In (e', l) (eset e lbl m) -> e' = e \/ exists l', In (e', l') m.
Proof.
  induction m as [|[e'' l''] m IH]; simpl.
  - intros [H|[]]. left. now injection H.
  - destruct (edge_key_eq e e''); simpl.
    + intros [H|H]; right.
      * injection H as <- _. eauto.
      * eauto.
    + intros [H|H].
      * right. injection H as <- <-. eauto.
      * destruct (IH H) as [->|[l' Hl']]; [left; reflexivity|right; eauto].
Qed.

(** Every edge the edge loop adds joins two keys of [entity_map]. *)
Lemma visualize_relationships_edges (entity_map : list (json * json))
    (rs : list json) :
  forall G G',
    for_each (visualize_relationship entity_map) rs G = Ok G' ->
    (forall u v l, In ((u, v), l) (edges G) ->
                   kmem u entity_map = true /\ kmem v entity_map = true) ->
    forall u v l, In ((u, v), l) (edges G') ->
                  kmem u entity_map = true /\ kmem v entity_map = true.
Proof.
  induction rs as [|r rs IH]; intros G G' H Hinv.
  - injection H as <-. exact Hinv.
  - cbn [for_each] in H. inv_bind H. apply (IH a G' H).
    clear IH H. unfold visualize_relationship in E.
    inv_bind E. inv_bind E. inv_bind E. inv_bind E.
    destruct (a2 && a3) eqn:Hb.
    + inv_bind E. injection E as <-.
      apply andb_prop in Hb. destruct Hb as [-> ->].
      unfold member in E2, E3.
      destruct (hashable a0); [|discriminate].
      destruct (hashable a1); [|discriminate].
      injection E2 as E2. injection E3 as E3.
      intros u v l Hin. cbn [add_edge edges] in Hin.
      apply In_eset in Hin. destruct Hin as [Heq|[l' Hl']].
      * injection Heq as -> ->. auto.
      * eauto.
    + injection E as <-. exact Hinv.
Qed.

Lemma build_graph_edges (d : dict) (es : list json) (G : digraph) :
  lookup ENTITIES d = Some (JList es) ->
  build_graph (JDict d) = Ok G ->
  forall u v l, In ((u, v), l) (edges G) ->
                is_entity_id es u = true /\ is_entity_id es v = true.
Proof.
  intros He. unfold build_graph. cbn [getitem]. rewrite He.
  cbn [rbind py_iter]. intros H. inv_bind H. destruct a as [entity_map G0].
  inv_bind H. inv_bind H.
  apply visualize_entities_inv in E. destruct E as [Hk HG0].
  cbn [edges] in HG0.
  intros u v l Hin.
  assert (Hm : kmem u entity_map = true /\ kmem v entity_map = true).
  { apply (visualize_relationships_edges entity_map a0 G0 H) with (l := l);
      [|exact Hin].
    intros u' v' l' Hin'. rewrite HG0 in Hin'. destruct Hin'. }
  now rewrite !Hk in Hm.
Qed.
End Diagram.

Lemma In_edges_in_order (G : digraph) (e : (json * json) * json) :
  In e (edges_in_order G) -> In e (edges G).
Proof.
  unfold edges_in_order. rewrite in_flat_map.
  intros [n [_ H]]. apply filter_In in H. tauto.
Qed.

Lemma dangling_strings (es : list json) (d : dict) (s t : pystr) :
  lookup (str "source") d = Some (JStr s) ->
  lookup (str "target") d = Some (JStr t) ->
  dangling es (JDict d) =
  negb (is_entity_id es (JStr s) && is_entity_id es (JStr t)).
Proof.
  intros Hs Ht. unfold dangling. cbn [getitem]. rewrite Hs, Ht.
  cbn [hashable andb].
  now destruct (is_entity_id es (JStr s)), (is_entity_id es (JStr t)).
Qed.



(** ** The persisted graph: UTF-8 *)

Ltac N_bools :=
  repeat match goal with
    | H : (_ && _)%bool = true |- _ => apply andb_prop in H; destruct H
    | H : (_ || _)%bool = true |- _ => apply orb_prop in H; destruct H
    | H : (_ <? _)%N = true |- _ => apply N.ltb_lt in H
    | H : (_ <? _)%N = false |- _ => apply N.ltb_ge in H
    | H : (_ <=? _)%N = true |- _ => apply N.leb_le in H
    | H : (_ <=? _)%N = false |- _ => apply N.leb_gt in H
    | H : (_ =? _)%N = true |- _ => apply N.eqb_eq in H
    | H : (_ =? _)%N = false |- _ => apply N.eqb_neq in H
    end.

(** Division and remainder by a constant, for [lia]. *)
Ltac Zify.zify_post_hook ::= Z.to_euclidean_division_equations.

(** Settles the comparisons of a goal that [lia] can decide. *)
Ltac N_decide :=
  repeat first
    [ rewrite (proj2 (N.ltb_lt _ _)) by lia
    | rewrite (proj2 (N.ltb_ge _ _)) by lia
    | rewrite (proj2 (N.leb_le _ _)) by lia
    | rewrite (proj2 (N.leb_gt _ _)) by lia
    | rewrite (proj2 (N.eqb_eq _ _)) by lia
    | rewrite (proj2 (N.eqb_neq _ _)) by lia ].

(** The bytes of an encodable code point decode to it. *)
Lemma utf8_char_roundtrip (c : N) :
  encodable c = true ->
  exists bs,
    utf8_encode_char c = Ok bs /\
    forall rest s,
      utf8_decode rest = Ok s -> utf8_decode (bs ++ rest) = Ok (c :: s).
Proof.
  intros Hc. unfold utf8_encode_char, encodable in *.
  destruct (c <? 128)%N eqn:H1.
  { eexists. split; [reflexivity|]. intros rest s Hs.
    cbn [app utf8_decode]. rewrite H1, Hs. reflexivity. }
  destruct (c <? 2048)%N eqn:H2.
  { eexists. split; [reflexivity|]. intros rest s Hs.
    apply N.ltb_ge in H1. apply N.ltb_lt in H2.
    cbn [app utf8_decode]. unfold is_continuation. N_decide.
    cbn [andb]. rewrite Hs. cbn [rbind]. do 2 f_equal. lia. }
  destruct (c <? 65536)%N eqn:H3.
  { destruct ((55296 <=? c) && (c <=? 57343))%N eqn:H4.
    { exfalso. N_bools; lia. }
    eexists. split; [reflexivity|]. intros rest s Hs.
    apply N.ltb_ge in H1, H2. apply N.ltb_lt in H3.
    assert (Hv : (((224 + c / 4096 - 224) * 64 +
                   (128 + (c / 64) mod 64 - 128)) * 64 +
                  (128 + c mod 64 - 128) = c)%N) by lia.
    cbn [app utf8_decode]. cbv zeta. rewrite Hv, H4.
    unfold is_continuation. N_decide.
    cbn [andb negb]. rewrite Hs. reflexivity. }
  destruct (c <? 1114112)%N eqn:H5.
  { eexists. split; [reflexivity|]. intros rest s Hs.
    apply N.ltb_ge in H1, H2, H3. apply N.ltb_lt in H5.
    assert (Hv : ((((240 + c / 262144 - 240) * 64 +
                    (128 + (c / 4096) mod 64 - 128)) * 64 +
                   (128 + (c / 64) mod 64 - 128)) * 64 +
                  (128 + c mod 64 - 128) = c)%N) by lia.
    cbn [app utf8_decode]. cbv zeta. rewrite Hv.
    unfold is_continuation. N_decide.
    cbn [andb]. rewrite Hs. reflexivity. }
  exfalso. N_bools; lia.
Qed.

(** A text without surrogates is written, and read back as it was. *)
Lemma utf8_roundtrip (s : pystr) :
  no_surrogate s ->
  exists bs, utf8_encode s = Ok bs /\ utf8_decode bs = Ok s.
Proof.
  induction 1 as [|c s Hc _ [bs [He Hd]]].
  - exists []. split; reflexivity.
  - destruct (utf8_char_roundtrip c Hc) as [cb [Hcb Hdec]].
    exists (cb ++ bs). cbn [utf8_encode]. rewrite Hcb, He. cbn [rbind].
    split; [reflexivity|]. now apply Hdec.
Qed.

(** ** The persisted graph: strings *)

Lemma hexval_hexdigit (n : N) : (n < 16)%N -> hexval (hexdigit n) = Some n.
Proof.
  intros Hn. unfold hexdigit, hexval.
  destruct (n <? 10)%N eqn:E; N_bools; N_decide; cbn [andb]; f_equal; lia.
Qed.

(** The scanner reads the escape of a character as that character. *)
Lemma scanstring_escape_char (c : N) (t acc : pystr) :
  scanstring (escape_char c ++ t) acc = scanstring t (acc ++ [c]).
Proof.
  unfold escape_char.
  destruct (c =? 92)%N eqn:E1; [apply N.eqb_eq in E1; now subst|].
  destruct (c =? 34)%N eqn:E2; [apply N.eqb_eq in E2; now subst|].
  destruct (c =? 8)%N eqn:E3; [apply N.eqb_eq in E3; now subst|].
  destruct (c =? 12)%N eqn:E4; [apply N.eqb_eq in E4; now subst|].
  destruct (c =? 10)%N eqn:E5; [apply N.eqb_eq in E5; now subst|].
  destruct (c =? 13)%N eqn:E6; [apply N.eqb_eq in E6; now subst|].
  destruct (c =? 9)%N eqn:E7; [apply N.eqb_eq in E7; now subst|].
  destruct (c <? 32)%N eqn:E8.
  - apply N.ltb_lt in E8.
    cbn [app scanstring N.eqb N.ltb N.compare Pos.eqb Pos.compare
         Pos.compare_cont negb].
    assert (Hu : decode_uXXXX 48 48 (hexdigit (c / 16)) (hexdigit (c mod 16))
                 = Some c).
    { unfold decode_uXXXX. change (hexval 48) with (Some 0%N).
      rewrite !hexval_hexdigit by lia. f_equal. lia. }
    rewrite Hu.
    assert (Hs : (55296 <=? c)%N = false) by (apply N.leb_gt; lia).
    rewrite Hs. cbn [andb].
    destruct t as [|b [|u [|g1 [|g2 [|g3 [|g4 r3]]]]]]; reflexivity.
  - cbn [app scanstring]. rewrite E2, E8, E1. reflexivity.
Qed.

Lemma scanstring_roundtrip (s rest acc : pystr) :
  scanstring (flat_map escape_char s ++ 34%N :: rest) acc =
  Ok (acc ++ s, rest).
Proof.
  revert acc. induction s as [|c s IH]; intros acc.
  - cbn. now rewrite app_nil_r.
  - cbn [flat_map]. rewrite <- app_assoc, scanstring_escape_char, IH.
    now rewrite <- app_assoc.
Qed.

(** ** The persisted graph: numbers *)

Lemma take_digits_uint (u : Decimal.uint) (rest : pystr) :
  match rest with [] => True | c :: _ => is_digit c = false end ->
  take_digits (uint_digits u ++ rest) = (u, rest).
Proof.
  intros Hrest. induction u; cbn [uint_digits app take_digits];
    try (change (is_digit _) with true; cbv iota; rewrite IHu; reflexivity).
  destruct rest as [|c r]; [reflexivity|]. cbn [take_digits].
  now rewrite Hrest.
Qed.

(** The decimal digits of a positive number start with a digit that is not
    zero. *)
Lemma pos_to_uint_head (p : positive) :
  exists c t,
    uint_digits (Pos.to_uint p) = c :: t /\
    is_digit c = true /\ (c =? 48)%N = false /\ (c =? 45)%N = false.
Proof.
  pose proof (DecimalPos.Unsigned.to_of (Pos.to_uint p)) as Hn.
  rewrite DecimalPos.Unsigned.of_to in Hn. cbn [N.to_uint] in Hn.
  pose proof (DecimalPos.Unsigned.to_uint_nonzero p) as Hz.
  assert (Hh : Decimal.nzhead (Pos.to_uint p) <> Decimal.Nil).
  { intros E. apply Hz. rewrite Hn. unfold Decimal.unorm. now rewrite E. }
  apply DecimalFacts.unorm_nzhead in Hh. rewrite <- Hn in Hh.
  pose proof (DecimalFacts.nzhead_nonzero (Pos.to_uint p)) as Hd.
  rewrite <- Hh in Hd.
  pose proof (DecimalPos.Unsigned.to_uint_nonnil p) as Hnil.
  destruct (Pos.to_uint p) as [|u|u|u|u|u|u|u|u|u|u];
    try (eexists; eexists; split; [reflexivity|]; repeat split; reflexivity).
  - contradiction.
  - exfalso. now apply (Hd u).
Qed.

Lemma ends_number_flags (rest : pystr) :
  ends_number rest ->
  has_frac rest || has_exp (after_frac rest) = false.
Proof.
  destruct rest as [|c r]; [reflexivity|]. intros [Hd [H1 [H2 H3]]].
  assert (Hf : has_frac (c :: r) = false).
  { unfold has_frac. destruct r; [reflexivity|].
    apply N.eqb_neq in H1. now rewrite H1. }
  unfold after_frac. rewrite Hf. cbn [orb]. unfold has_exp.
  apply N.eqb_neq in H2, H3. now rewrite H2, H3.
Qed.

Lemma ends_number_no_digit (rest : pystr) :
  ends_number rest ->
  match rest with [] => True | c :: _ => is_digit c = false end.
Proof. destruct rest; [trivial|]. now intros [H _]. Qed.

(** The number pattern reads the digits of an integer back. *)
Lemma match_number_roundtrip (z : Z) (rest : pystr) :
  ends_number rest ->
  match_number (str_of_Z z ++ rest) = Some (Z.to_int z, rest, false).
Proof.
  intros Hrest. pose proof (ends_number_flags rest Hrest) as Hflags.
  pose proof (ends_number_no_digit rest Hrest) as Hnd.
  unfold str_of_Z. destruct z as [|p|p]; cbn [Z.to_int].
  - cbn. now rewrite Hflags.
  - destruct (pos_to_uint_head p) as [c [t [E [Hd [H0 Hm]]]]].
    unfold match_number. rewrite E. cbn [app]. rewrite Hm, H0, Hd.
    change (c :: t ++ rest) with ((c :: t) ++ rest). rewrite <- E.
    rewrite (take_digits_uint _ _ Hnd). now rewrite Hflags.
  - destruct (pos_to_uint_head p) as [c [t [E [Hd [H0 Hm]]]]].
    unfold match_number. cbn [app]. rewrite N.eqb_refl.
    rewrite E. cbn [app]. rewrite H0, Hd.
    change (c :: t ++ rest) with ((c :: t) ++ rest). rewrite <- E.
    rewrite (take_digits_uint _ _ Hnd). now rewrite Hflags.
Qed.

(** ** The persisted graph: values *)

(** Induction on a value, with the hypothesis on every element of a list
    and on every value of a dictionary. *)
Lemma json_nested_ind (P : json -> Prop) :
  P JNull ->
  (forall b, P (JBool b)) ->
  (forall z, P (JInt z)) ->
  (forall s, P (JStr s)) ->
  (forall l, Forall P l -> P (JList l)) ->
  (forall d, Forall (fun kv => P (snd kv)) d -> P (JDict d)) ->
  forall v, P v.
Proof.
  intros Hn Hb Hz Hs Hl Hd.
  fix IH 1. intros [| b | z | s | l | d].
  - exact Hn.
  - apply Hb.
  - apply Hz.
  - apply Hs.
  - apply Hl. induction l as [|x l IHl]; constructor; [apply IH|exact IHl].
  - apply Hd. induction d as [|[k x] d IHd]; constructor;
      [apply IH|exact IHd].
Qed.

Lemma unique_keys_list (l : list json) :
  unique_keys (JList l) <-> Forall unique_keys l.
Proof.
  induction l as [|x l IH].
  - split; [constructor|intros; exact I].
  - change (unique_keys (JList (x :: l)))
      with (unique_keys x /\ unique_keys (JList l)).
    rewrite IH. split.
    + intros [H1 H2]. now constructor.
    + intros H. inversion H. auto.
Qed.

Lemma unique_keys_dict (d : dict) :
  unique_keys (JDict d) <->
  NoDup (map fst d) /\ Forall (fun kv => unique_keys (snd kv)) d.
Proof.
  assert (H : forall d : dict,
             (fix all (d : list (pystr * json)) : Prop :=
                match d with
                | [] => True
                | (_, x) :: r => unique_keys x /\ all r
                end) d <-> Forall (fun kv => unique_keys (snd kv)) d).
  { clear d. induction d as [|[k x] d IH].
    - split; [constructor|intros; exact I].
    - rewrite IH. split.
      + intros [H1 H2]. now constructor.
      + intros H. inversion H. auto. }
  cbn [unique_keys]. now rewrite H.
Qed.

Lemma has_key_In (k : pystr) (d : dict) :
  has_key k d = true <-> In k (map fst d).
Proof.
  unfold has_key. induction d as [|[k' v] d IH]; cbn [lookup map fst In].
  - split; [discriminate|tauto].
  - destruct (streq k k') eqn:E.
    + apply streq_eq in E. subst. split; auto.
    + apply streq_neq in E. rewrite IH. split; [auto|].
      intros [H|H]; [congruence|assumption].
Qed.

(** Building a dictionary from pairs with distinct keys gives the pairs. *)
Lemma dict_of_pairs_unique (d : dict) :
  NoDup (map fst d) -> dict_of_pairs d = d.
Proof.
  unfold dict_of_pairs.
  assert (H : forall acc : dict,
             NoDup (map fst (acc ++ d)) ->
             fold_left (fun d kv => dict_set (fst kv) (snd kv) d) d acc =
             acc ++ d).
  { induction d as [|[k v] d IH]; intros acc Hnd.
    - cbn. now rewrite app_nil_r.
    - cbn [fold_left fst snd].
      assert (Hk : has_key k acc = false).
      { destruct (has_key k acc) eqn:E; [|reflexivity].
        apply has_key_In in E. rewrite map_app in Hnd.
        cbn [map fst] in Hnd. apply NoDup_remove_2 in Hnd.
        exfalso. apply Hnd. apply in_or_app. now left. }
      rewrite (dict_set_absent k v acc Hk).
      rewrite IH; rewrite <- app_assoc; [reflexivity|exact Hnd]. }
  intros Hnd. now apply (H []).
Qed.

Lemma skip_ws_token (c : N) (t : pystr) :
  is_ws c = false -> skip_ws (c :: t) = c :: t.
Proof. intros H. cbn [skip_ws]. now rewrite H. Qed.

Lemma skip_ws_spaces (n : nat) (s : pystr) :
  skip_ws (repeat 32%N n ++ s) = skip_ws s.
Proof. induction n as [|n IH]; [reflexivity|exact IH]. Qed.

Lemma skip_ws_newline_indent (level : nat) (s : pystr) :
  skip_ws (newline_indent level ++ s) = skip_ws s.
Proof.
  unfold newline_indent. rewrite <- app_assoc.
  change (nl ++ repeat 32%N (2 * level) ++ s)
    with (10%N :: (repeat 32%N (2 * level) ++ s)).
  cbn [skip_ws]. change (is_ws 10) with true. cbv iota.
  apply skip_ws_spaces.
Qed.

Lemma ends_number_newline_indent (level : nat) (s : pystr) :
  ends_number (newline_indent level ++ s).
Proof.
  unfold newline_indent. rewrite <- app_assoc.
  change (nl ++ repeat 32%N (2 * level) ++ s)
    with (10%N :: (repeat 32%N (2 * level) ++ s)).
  cbn. repeat split; discriminate.
Qed.

(** An encoded value starts with a character that is neither white space
    nor a closing bracket. *)
Lemma iterencode_head (v : json) (level : nat) :
  exists c t,
    iterencode v level = c :: t /\ is_ws c = false /\ (c =? 93)%N = false.
Proof.
  destruct v as [| [|] | z | s | [|x l] | [|kv d]];
    try (eexists; eexists; split; [reflexivity|split; reflexivity]).
  cbn [iterencode]. unfold str_of_Z. destruct z as [|p|p]; cbn [Z.to_int].
  - eexists; eexists; split; [reflexivity|split; reflexivity].
  - destruct (pos_to_uint_head p) as [c [t [E [Hd _]]]].
    exists c, t. split; [exact E|].
    unfold is_digit in Hd. unfold is_ws. N_bools.
    split; N_decide; reflexivity.
  - eexists; eexists; split; [reflexivity|split; reflexivity].
Qed.

Lemma skip_ws_iterencode (v : json) (level : nat) (s : pystr) :
  skip_ws (iterencode v level ++ s) = iterencode v level ++ s.
Proof.
  destruct (iterencode_head v level) as [c [t [E [Hw _]]]].
  rewrite E. cbn [app skip_ws]. now rewrite Hw.
Qed.

Lemma join_cons (sep a : pystr) (r : list pystr) :
  join sep (a :: r) =
  a ++ match r with [] => [] | _ :: _ => sep ++ join sep r end.
Proof. destruct r; cbn [join]; [now rewrite app_nil_r|reflexivity]. Qed.

Lemma join_length_In (sep x : pystr) (xs : list pystr) :
  In x xs -> length x <= length (join sep xs).
Proof.
  induction xs as [|a r IH]; intros Hin; [destruct Hin|].
  rewrite join_cons, length_app. destruct Hin as [->|Hin]; [lia|].
  destruct r as [|b r']; [destruct Hin|].
  specialize (IH Hin). rewrite length_app. lia.
Qed.

Lemma join_length_count (sep : pystr) (xs : list pystr) :
  Forall (fun x => x <> []) xs -> length xs <= length (join sep xs).
Proof.
  induction 1 as [|a r Ha _ IH]; [cbn; lia|].
  rewrite join_cons, length_app. cbn [length].
  assert (1 <= length a) by (destruct a; [contradiction|cbn; lia]).
  destruct r as [|b r']; [cbn; lia|]. rewrite length_app. lia.
Qed.

Lemma iterencode_nonempty (v : json) (level : nat) :
  iterencode v level <> [].
Proof.
  destruct (iterencode_head v level) as [c [t [E _]]]. now rewrite E.
Qed.

Section Loops.
Variable scan : pystr -> result (json * pystr).
Variable level : nat.

(** The scanner at hand reads [x] back from its text at the next level. *)
Let reads (x : json) : Prop :=
  forall rest,
    ends_number rest ->
    scan (iterencode x (S level) ++ rest) = Ok (x, rest).

Let sep : pystr := str "," ++ newline_indent (S level).

Let item (kv : pystr * json) : pystr :=
  match kv with
  | (key, value) =>
      encode_basestring key ++ str ": " ++ iterencode value (S level)
  end.

Lemma array_loop_roundtrip (l : list json) :
  l <> [] ->
  Forall reads l ->
  forall n acc rest,
    length l <= n ->
    array_loop scan n
      (join sep (map (fun x => iterencode x (S level)) l) ++
       newline_indent level ++ 93%N :: rest) acc =
    Ok (acc ++ l, rest).
Proof.
  induction l as [|x l IH]; [contradiction|].
  intros _ Hall n acc rest Hn. inversion Hall as [|? ? Hx Hl]; subst.
  destruct n as [|n]; [cbn in Hn; lia|].
  cbn [map]. rewrite join_cons, <- app_assoc. cbn [array_loop].
  destruct l as [|y l'].
  - cbn [map app]. rewrite Hx by apply ends_number_newline_indent.
    cbn [rbind fst snd]. rewrite skip_ws_newline_indent.
    rewrite (skip_ws_token 93) by reflexivity. reflexivity.
  - cbn [map]. cbv iota. unfold sep at 1. rewrite <- !app_assoc.
    change (str "," ++ ?t) with (44%N :: t).
    rewrite Hx by (cbn; repeat split; discriminate).
    cbn [rbind fst snd]. rewrite (skip_ws_token 44) by reflexivity.
    change (44 =? 93)%N with false. change (44 =? 44)%N with true.
    cbn [negb]. cbv iota. rewrite skip_ws_newline_indent.
    rewrite join_cons, <- app_assoc, skip_ws_iterencode.
    rewrite app_assoc, <- join_cons.
    change (iterencode y (S level) :: map ?f l')
      with (map (fun x => iterencode x (S level)) (y :: l')).
    rewrite IH; [|discriminate|assumption|cbn in *; lia].
    now rewrite <- app_assoc.
Qed.

Lemma object_loop_roundtrip (d : dict) :
  Forall (fun kv => reads (snd kv)) d ->
  forall k v n pairs rest,
    reads v ->
    length d < n ->
    object_loop scan n
      (flat_map escape_char k ++ 34%N :: str ": " ++
       iterencode v (S level) ++
       match d with [] => [] | _ :: _ => sep ++ join sep (map item d) end ++
       newline_indent level ++ 125%N :: rest) pairs =
    Ok (pairs ++ (k, v) :: d, rest).
Proof.
  induction d as [|[k' v'] d IH]; intros Hall k v n pairs rest Hv Hn;
    (destruct n as [|n]; [cbn in Hn; lia|]);
    cbn [object_loop]; rewrite scanstring_roundtrip; cbn [rbind fst snd app];
    change (str ": " ++ ?t) with (58%N :: 32%N :: t);
    rewrite (skip_ws_token 58) by reflexivity;
    change (58 =? 58)%N with true; cbn [negb]; cbv iota;
    change (skip_ws (32%N :: ?t)) with (skip_ws t);
    rewrite skip_ws_iterencode.
  - rewrite Hv by apply ends_number_newline_indent.
    cbn [rbind fst snd]. rewrite skip_ws_newline_indent.
    rewrite (skip_ws_token 125) by reflexivity. reflexivity.
  - inversion Hall as [|? ? Hv' Hd]; subst. cbn [snd] in Hv'.
    cbv iota. unfold sep at 1. rewrite <- !app_assoc.
    change (str "," ++ ?t) with (44%N :: t).
    rewrite Hv by (cbn; repeat split; discriminate).
    cbn [rbind fst snd]. rewrite (skip_ws_token 44) by reflexivity.
    change (44 =? 125)%N with false. change (44 =? 44)%N with true.
    cbn [negb]. cbv iota. rewrite skip_ws_newline_indent.
    cbn [map]. rewrite join_cons, <- app_assoc.
    unfold item at 1, encode_basestring. rewrite <- !app_assoc.
    change (dq ++ ?t) with (34%N :: t).
    rewrite (skip_ws_token 34) by reflexivity.
    change (34 =? 34)%N with true. cbv iota.
    change (dq ++ ?t) with (34%N :: t).
    assert (Hm : forall X : pystr,
               match map item d with [] => [] | _ :: _ => X end =
               match d with [] => [] | _ :: _ => X end)
      by (intros; destruct d; reflexivity).
    rewrite Hm.
    rewrite IH; [|assumption|assumption|cbn in *; lia].
    now rewrite <- app_assoc.
Qed.
End Loops.

Lemma newline_indent_length (level : nat) :
  length (newline_indent level) = S (2 * level).
Proof.
  unfold newline_indent. rewrite length_app, repeat_length. reflexivity.
Qed.

Lemma str_of_Z_head (z : Z) :
  exists c t, str_of_Z z = c :: t /\ (is_digit c = true \/ c = 45%N).
Proof.
  unfold str_of_Z. destruct z as [|p|p]; cbn [Z.to_int].
  - exists 48%N, []. split; [reflexivity|left; reflexivity].
  - destruct (pos_to_uint_head p) as [c [t [E [Hd _]]]].
    exists c, t. split; [exact E|left; exact Hd].
  - eexists; eexists. split; [reflexivity|right; reflexivity].
Qed.

(** On a digit or a minus sign the scanner tries the number pattern. *)
Lemma scan_once_number (f : nat) (c : N) (t : pystr) :
  is_digit c = true \/ c = 45%N ->
  scan_once (S f) (c :: t) =
  match match_number (c :: t) with
  | Some (integer, rest, is_float) =>
      if (is_float : bool) then Raise FLOAT
      else Ok (JInt (Z.of_int integer), rest)
  | None =>
      if startswith (str "NaN") (c :: t) ||
         startswith (str "Infinity") (c :: t) ||
         startswith (str "-Infinity") (c :: t)
      then Raise FLOAT
      else Raise EXPECTING_VALUE
  end.
Proof.
  intros Hc.
  assert (H : (c =? 34)%N = false /\ (c =? 123)%N = false /\
              (c =? 91)%N = false /\ (110 =? c)%N = false /\
              (116 =? c)%N = false /\ (102 =? c)%N = false).
  { unfold is_digit in Hc.
    destruct Hc as [Hc| ->]; [|repeat split; reflexivity].
    N_bools. repeat split; apply N.eqb_neq; lia. }
  destruct H as [H1 [H2 [H3 [H4 [H5 H6]]]]].
  cbn [scan_once]. rewrite H1, H2, H3.
  change (str "null") with [110; 117; 108; 108]%N.
  change (str "true") with [116; 114; 117; 101]%N.
  change (str "false") with [102; 97; 108; 115; 101]%N.
  cbn [startswith]. rewrite H4, H5, H6. reflexivity.
Qed.

Lemma scan_once_int (f : nat) (z : Z) (rest : pystr) :
  ends_number rest ->
  scan_once (S f) (str_of_Z z ++ rest) = Ok (JInt z, rest).
Proof.
  intros Hrest. destruct (str_of_Z_head z) as [c [t [E Hc]]].
  assert (E' : str_of_Z z ++ rest = c :: (t ++ rest)) by now rewrite E.
  rewrite E', (scan_once_number f (t ++ rest) Hc), <- E'.
  rewrite (match_number_roundtrip z rest Hrest).
  now rewrite DecimalZ.of_to.
Qed.

(** The scanner reads an encoded value back, whatever the indentation it
    was written at, when no dictionary of the value has a key twice. *)
Lemma scan_once_roundtrip (v : json) :
  unique_keys v ->
  forall level rest fuel,
    ends_number rest ->
    length (iterencode v level) < fuel ->
    scan_once fuel (iterencode v level ++ rest) = Ok (v, rest).
Proof.
  induction v as [| b | z | s | l IH | d IH] using json_nested_ind;
    intros Hu level rest fuel Hrest Hf;
    (destruct fuel as [|f]; [lia|]).
  - reflexivity.
  - destruct b; reflexivity.
  - now apply scan_once_int.
  - cbn [iterencode]. unfold encode_basestring. rewrite <- !app_assoc.
    change (dq ++ rest) with (34%N :: rest).
    change (dq ++ ?t) with (34%N :: t). cbn [scan_once].
    change (34 =? 34)%N with true. cbv iota.
    now rewrite scanstring_roundtrip.
  - destruct l as [|x l']; [reflexivity|].
    apply unique_keys_list in Hu.
    set (l := x :: l') in *.
    set (sep := str "," ++ newline_indent (S level)).
    set (body := join sep (map (fun value => iterencode value (S level)) l)).
    change (iterencode (JList l) level)
      with (str "[" ++ newline_indent (S level) ++ body ++
            newline_indent level ++ str "]") in *.
    rewrite !length_app, !newline_indent_length in Hf.
    change (length (str "[")) with 1 in Hf.
    change (length (str "]")) with 1 in Hf.
    assert (Hcount : length l <= length body).
    { unfold body. rewrite <- (length_map (fun value => iterencode value (S level)) l).
      apply join_length_count. apply Forall_forall.
      intros t Ht. apply in_map_iff in Ht. destruct Ht as [y [<- _]].
      apply iterencode_nonempty. }
    assert (Hreads : Forall (fun y => forall rest',
                        ends_number rest' ->
                        scan_once f (iterencode y (S level) ++ rest') =
                        Ok (y, rest')) l).
    { apply Forall_forall. intros y Hy rest' Hrest'.
      rewrite Forall_forall in IH, Hu.
      apply (IH y Hy (Hu y Hy)); [assumption|].
      assert (length (iterencode y (S level)) <= length body)
        by (apply join_length_In;
            now apply (in_map (fun value => iterencode value (S level)))).
      lia. }
    rewrite <- !app_assoc.
    change (str "[" ++ ?t) with (91%N :: t).
    change (str "]" ++ rest) with (93%N :: rest).
    cbn [scan_once]. change (91 =? 34)%N with false.
    change (91 =? 123)%N with false. change (91 =? 91)%N with true.
    cbv iota. unfold JSONArray. rewrite skip_ws_newline_indent.
    assert (Hb : exists c t,
               body ++ newline_indent level ++ 93%N :: rest = c :: t /\
               is_ws c = false /\ (c =? 93)%N = false).
    { unfold body, l. cbn [map]. rewrite join_cons.
      destruct (iterencode_head x (S level)) as [c [t [E [Hw H93]]]].
      rewrite E. eexists; eexists. split; [reflexivity|]. auto. }
    destruct Hb as [c [t [Eb [Hw H93]]]].
    rewrite Eb, (skip_ws_token c t Hw), H93, <- Eb. unfold body, sep.
    rewrite (array_loop_roundtrip (scan_once f) level (l := l));
      [reflexivity|discriminate|exact Hreads|lia].
  - destruct d as [|[k v] d']; [reflexivity|].
    apply unique_keys_dict in Hu. destruct Hu as [Hnd Hu].
    set (d := (k, v) :: d') in *.
    set (sep := str "," ++ newline_indent (S level)).
    set (item := fun kv : pystr * json =>
                   match kv with
                   | (key, value) =>
                       encode_basestring key ++ str ": " ++
                       iterencode value (S level)
                   end).
    set (body := join sep (map item d)).
    change (iterencode (JDict d) level)
      with (str "{" ++ newline_indent (S level) ++ body ++
            newline_indent level ++ str "}") in *.
    rewrite !length_app, !newline_indent_length in Hf.
    change (length (str "{")) with 1 in Hf.
    change (length (str "}")) with 1 in Hf.
    assert (Hcount : length d <= length body).
    { unfold body. rewrite <- (length_map item d).
      apply join_length_count. apply Forall_forall.
      intros t Ht. apply in_map_iff in Ht. destruct Ht as [[k0 v0] [<- _]].
      unfold item, encode_basestring. discriminate. }
    assert (Hreads : Forall (fun kv => forall rest',
                        ends_number rest' ->
                        scan_once f (iterencode (snd kv) (S level) ++ rest') =
                        Ok (snd kv, rest')) d).
    { apply Forall_forall. intros [k0 v0] Hy rest' Hrest'.
      rewrite Forall_forall in IH, Hu. cbn [snd].
      apply (IH (k0, v0) Hy (Hu (k0, v0) Hy)); [assumption|].
      assert (length (item (k0, v0)) <= length body)
        by (apply join_length_In; now apply (in_map item)).
      unfold item in H. rewrite !length_app in H. cbn [snd]. lia. }
    rewrite <- !app_assoc.
    change (str "{" ++ ?t) with (123%N :: t).
    change (str "}" ++ rest) with (125%N :: rest).
    cbn [scan_once]. change (123 =? 34)%N with false.
    change (123 =? 123)%N with true.
    cbv iota. unfold JSONObject. rewrite skip_ws_newline_indent.
    unfold body, d. cbn [map]. rewrite join_cons.
    unfold item at 1, encode_basestring. rewrite <- !app_assoc.
    do 2 change (dq ++ ?t) with (34%N :: t).
    rewrite (skip_ws_token 34) by reflexivity.
    change (34 =? 125)%N with false. change (34 =? 34)%N with true.
    cbv iota.
    assert (Hm : forall X : pystr,
               match map item d' with [] => [] | _ :: _ => X end =
               match d' with [] => [] | _ :: _ => X end)
      by (intros; destruct d'; reflexivity).
    rewrite Hm. unfold sep, item.
    change (length d) with (S (length d')) in Hcount.
    inversion Hreads as [|? ? Hv Hd']; subst.
    rewrite (object_loop_roundtrip (scan_once f) level (d := d'));
      [|exact Hd'|exact Hv|lia].
    cbn [rbind fst snd app]. now rewrite dict_of_pairs_unique.
Qed.

(** ** The persisted graph: the text and the file *)

Lemma all_strings_list (P : pystr -> Prop) (l : list json) :
  all_strings P (JList l) <-> Forall (all_strings P) l.
Proof.
  induction l as [|x l IH].
  - split; [constructor|intros; exact I].
  - change (all_strings P (JList (x :: l)))
      with (all_strings P x /\ all_strings P (JList l)).
    rewrite IH. split.
    + intros [H1 H2]. now constructor.
    + intros H. inversion H. auto.
Qed.

Lemma all_strings_dict (P : pystr -> Prop) (d : dict) :
  all_strings P (JDict d) <->
  Forall (fun kv => P (fst kv) /\ all_strings P (snd kv)) d.
Proof.
  induction d as [|[k x] d IH].
  - split; [constructor|intros; exact I].
  - change (all_strings P (JDict ((k, x) :: d)))
      with (P k /\ all_strings P x /\ all_strings P (JDict d)).
    rewrite IH. split.
    + intros [H1 [H2 H3]]. now constructor.
    + intros H. inversion H as [|? ? [H1 H2] H3]. auto.
Qed.

Lemma text_char_escape (c : N) :
  encodable c = true -> Forall (fun x => text_char x = true) (escape_char c).
Proof.
  intros Hc. unfold escape_char.
  repeat match goal with
         | |- context [if ?b then _ else _] => destruct b eqn:?
         end;
    try (repeat constructor).
  - unfold hexdigit. destruct (c / 16 <? 10)%N eqn:E; N_bools;
      [|exfalso; lia].
    unfold text_char, encodable; N_decide; reflexivity.
  - unfold hexdigit. destruct (c mod 16 <? 10)%N eqn:E; N_bools;
      unfold text_char, encodable; N_decide; reflexivity.
  - unfold text_char. rewrite Hc. N_bools.
    apply N.eqb_neq in Heqb4. now rewrite Heqb4.
Qed.

Lemma text_char_basestring (s : pystr) :
  no_surrogate s -> Forall (fun x => text_char x = true) (encode_basestring s).
Proof.
  intros Hs. unfold encode_basestring.
  apply Forall_app. split; [repeat constructor|].
  apply Forall_app. split; [|repeat constructor].
  induction Hs as [|c s Hc _ IH]; [constructor|].
  cbn [flat_map]. apply Forall_app. split; [now apply text_char_escape|exact IH].
Qed.

Lemma text_char_uint (u : Decimal.uint) :
  Forall (fun x => text_char x = true) (uint_digits u).
Proof. induction u; cbn [uint_digits]; constructor; auto. Qed.

Lemma text_char_int (z : Z) :
  Forall (fun x => text_char x = true) (str_of_Z z).
Proof.
  unfold str_of_Z. destruct (Z.to_int z);
    [|constructor; [reflexivity|]]; apply text_char_uint.
Qed.

Lemma text_char_newline_indent (level : nat) :
  Forall (fun x => text_char x = true) (newline_indent level).
Proof.
  unfold newline_indent. apply Forall_app. split; [repeat constructor|].
  induction (2 * level) as [|n IH]; constructor; auto.
Qed.

Lemma text_char_join (sep : pystr) (xs : list pystr) :
  Forall (fun x => text_char x = true) sep ->
  Forall (Forall (fun x => text_char x = true)) xs ->
  Forall (fun x => text_char x = true) (join sep xs).
Proof.
  intros Hsep. induction 1 as [|a r Ha Hr IH]; [constructor|].
  rewrite join_cons. apply Forall_app. split; [exact Ha|].
  destruct r; [constructor|]. apply Forall_app. now split.
Qed.

(** The text of a value whose strings have no lone surrogate has only
    characters that the file takes and gives back. *)
Lemma text_char_iterencode (v : json) :
  all_strings no_surrogate v ->
  forall level, Forall (fun x => text_char x = true) (iterencode v level).
Proof.
  induction v as [| b | z | s | l IH | d IH] using json_nested_ind;
    intros Hv level.
  - repeat constructor.
  - destruct b; repeat constructor.
  - apply text_char_int.
  - now apply text_char_basestring.
  - destruct l as [|x l']; [repeat constructor|].
    apply all_strings_list in Hv.
    set (l := x :: l') in *.
    change (iterencode (JList l) level)
      with (str "[" ++ newline_indent (S level) ++
            join (str "," ++ newline_indent (S level))
                 (map (fun value => iterencode value (S level)) l) ++
            newline_indent level ++ str "]").
    apply Forall_app; split; [repeat constructor|].
    apply Forall_app; split; [apply text_char_newline_indent|].
    apply Forall_app; split;
      [|apply Forall_app; split;
        [apply text_char_newline_indent|repeat constructor]].
    apply text_char_join.
    + apply Forall_app. split;
        [repeat constructor|apply text_char_newline_indent].
    + apply Forall_forall. intros t Ht. apply in_map_iff in Ht.
      destruct Ht as [y [<- Hy]]. rewrite Forall_forall in IH, Hv.
      now apply IH; [|apply Hv].
  - destruct d as [|kv d']; [repeat constructor|].
    apply all_strings_dict in Hv.
    set (d := kv :: d') in *.
    change (iterencode (JDict d) level)
      with (str "{" ++ newline_indent (S level) ++
            join (str "," ++ newline_indent (S level))
                 (map (fun item =>
                         match item with
                         | (key, value) =>
                             encode_basestring key ++ str ": " ++
                             iterencode value (S level)
                         end) d) ++
            newline_indent level ++ str "}").
    apply Forall_app; split; [repeat constructor|].
    apply Forall_app; split; [apply text_char_newline_indent|].
    apply Forall_app; split;
      [|apply Forall_app; split;
        [apply text_char_newline_indent|repeat constructor]].
    apply text_char_join.
    + apply Forall_app. split;
        [repeat constructor|apply text_char_newline_indent].
    + apply Forall_forall. intros t Ht. apply in_map_iff in Ht.
      destruct Ht as [[k y] [<- Hy]]. rewrite Forall_forall in IH, Hv.
      destruct (Hv (k, y) Hy) as [Hk Hy']. cbn [fst snd] in Hk, Hy'.
      apply Forall_app; split; [now apply text_char_basestring|].
      apply Forall_app; split; [repeat constructor|].
      now apply (IH (k, y) Hy).
Qed.

Lemma universal_newlines_id (s : pystr) :
  Forall (fun x => text_char x = true) s -> universal_newlines s = s.
Proof.
  induction 1 as [|c s Hc _ IH]; [reflexivity|].
  cbn [universal_newlines]. unfold text_char in Hc.
  apply andb_prop in Hc. destruct Hc as [_ Hc].
  destruct (c =? 13)%N; [discriminate|]. now rewrite IH.
Qed.

Lemma no_surrogate_text (s : pystr) :
  Forall (fun x => text_char x = true) s -> no_surrogate s.
Proof.
  apply Forall_impl. intros c Hc. unfold text_char in Hc.
  apply andb_prop in Hc. tauto.
Qed.

Lemma iterencode_head_ascii (v : json) (level : nat) :
  exists c t, iterencode v level = c :: t /\ (c <? 128)%N = true.
Proof.
  destruct v as [| [|] | z | s | [|x l] | [|kv d]];
    try (eexists; eexists; split; reflexivity).
  cbn [iterencode]. destruct (str_of_Z_head z) as [c [t [E Hc]]].
  exists c, t. split; [exact E|]. unfold is_digit in Hc.
  destruct Hc as [Hc| ->]; [|reflexivity]. N_bools. apply N.ltb_lt. lia.
Qed.

(** Parsing the text written for a value gives the value. *)
Lemma json_loads_dump (v : json) :
  unique_keys v -> json_loads (json_dump v) = Ok v.
Proof.
  intros Hu. unfold json_loads, json_dump.
  destruct (iterencode_head_ascii v 0) as [c [t [E Hc]]].
  assert (Hbom : startswith [65279%N] (iterencode v 0) = false).
  { rewrite E. cbn [startswith]. apply N.ltb_lt in Hc.
    replace (65279 =? c)%N with false; [reflexivity|].
    symmetry. apply N.eqb_neq. lia. }
  rewrite Hbom. cbv zeta.
  pose proof (skip_ws_iterencode v 0 []) as Hs. rewrite app_nil_r in Hs.
  rewrite Hs.
  pose proof (@scan_once_roundtrip v Hu 0 [] (S (length (iterencode v 0))) I
                (Nat.lt_succ_diag_r _)) as Hr.
  rewrite app_nil_r in Hr. rewrite Hr. reflexivity.
Qed.

(** Distinct keys of a concrete dictionary. *)
Ltac distinct_keys :=
  repeat (constructor; [cbn; intuition discriminate|]); constructor.



Lemma two_companies_persistable :
  unique_keys two_companies /\ all_strings no_surrogate two_companies.
Proof.
  split.
  - vm_compute. repeat split; distinct_keys.
  - unfold two_companies, graph, graph_dict, entity, relationship.
    cbn [all_strings]. unfold no_surrogate, ENTITIES, RELATIONSHIPS.
    repeat split; repeat (constructor; [reflexivity|]); constructor.
Qed.


(* ################################################################## *)
(** * Part III: further properties of the code *)
(* ################################################################## *)

(** ** The retry loop against an arbitrary service *)

Lemma rate_limited_no_success (srv : service) (a : nat) :
  rate_limited srv a = true -> attempt_success srv a = None.
Proof.
  unfold rate_limited, attempt_success. destruct (srv a) as [r|e]; [|easy].
  intros H. apply Z.eqb_eq in H. now rewrite H.
Qed.

Lemma attempt_failure_no_success (srv : service) (a : nat) (e : exn) :
  attempt_failure srv a = Some e ->
  attempt_success srv a = None /\ rate_limited srv a = false.
Proof.
  unfold attempt_failure, attempt_success, rate_limited.
  destruct (srv a) as [r|e']; [|easy].
  destruct (Z.eqb (status_code r) 429); [discriminate|].
  destruct (Z.eqb (status_code r) 200); [|easy].
  now destruct (response_content r).
Qed.

(** An attempt ends in one of three ways. *)
Lemma attempt_outcome (srv : service) (a : nat) :
  (exists content, attempt_success srv a = Some content) \/
  (attempt_success srv a = None /\ rate_limited srv a = true) \/
  (exists e, attempt_failure srv a = Some e).
Proof.
  unfold attempt_failure, attempt_success, rate_limited.
  destruct (srv a) as [r|e]; [|right; right; now exists e].
  destruct (Z.eqb_spec (status_code r) 429) as [H|H].
  - right; left. now rewrite H.
  - destruct (Z.eqb (status_code r) 200).
    + destruct (response_content r) as [c|e];
        [left; now exists c|right; right; now exists e].
    + right; right. eauto.
Qed.

Lemma attempt_body_success (retries : nat) (srv : service) (a : nat)
    (content : pystr) :
  attempt_success srv a = Some content ->
  attempt_body retries srv a = ([EvPost], inr (Returned (Some content))).
Proof.
  unfold attempt_success, attempt_body. destruct (srv a) as [r|e]; [|easy].
  destruct (Z.eqb_spec (status_code r) 200) as [H|H]; [|easy].
  rewrite H. cbn. destruct (response_content r); [|easy].
  now intros [= ->].
Qed.

Lemma attempt_body_retried (retries : nat) (srv : service) (a : nat) :
  attempt_success srv a = None ->
  rate_limited srv a = true \/ a < retries - 1 ->
  attempt_body retries srv a = ([EvPost; EvSleep (backoff srv a)], inl tt).
Proof.
  unfold attempt_success, attempt_body, backoff, rate_limited.
  intros Hs Hr.
  destruct (srv a) as [r|e].
  - destruct (Z.eqb (status_code r) 429); [reflexivity|].
    destruct Hr as [Hr|Hr]; [discriminate|].
    apply Nat.ltb_lt in Hr. rewrite Hr. cbn [negb].
    destruct (Z.eqb (status_code r) 200); cbn [negb]; [|reflexivity].
    now destruct (response_content r).
  - destruct Hr as [Hr|Hr]; [discriminate|].
    apply Nat.ltb_lt in Hr. now rewrite Hr.
Qed.

Lemma attempt_body_raised (retries : nat) (srv : service) (a : nat)
    (e : exn) :
  attempt_failure srv a = Some e ->
  retries - 1 <= a ->
  attempt_body retries srv a = ([EvPost], inr (Raised e)).
Proof.
  unfold attempt_failure, attempt_body.
  intros Hf Hl. apply Nat.ltb_ge in Hl. rewrite Hl. cbn [negb].
  destruct (srv a) as [r|e'].
  - destruct (Z.eqb (status_code r) 429); [discriminate|].
    destruct (Z.eqb (status_code r) 200); cbn [negb].
    + destruct (response_content r); [discriminate|]. now injection Hf as ->.
    + now injection Hf as ->.
  - now injection Hf as ->.
Qed.

(** Attempts that are all tried again add their trace in front of what the
    rest of the loop does. *)
Lemma retry_loop_retried (retries : nat) (srv : service)
    (l rest : list nat) :
  (forall a, In a l ->
             attempt_success srv a = None /\
             (rate_limited srv a = true \/ a < retries - 1)) ->
  retry_loop retries srv (l ++ rest) =
  (flat_map (fun a => [EvPost; EvSleep (backoff srv a)]) l ++
   fst (retry_loop retries srv rest),
   snd (retry_loop retries srv rest)).
Proof.
  induction l as [|a l IH]; intros H.
  - cbn. now destruct (retry_loop retries srv rest).
  - cbn [app retry_loop flat_map].
    destruct (H a (or_introl eq_refl)) as [Hs Hr].
    rewrite (@attempt_body_retried retries srv a Hs Hr).
    rewrite IH by (intros b Hb; apply H; now right).
    reflexivity.
Qed.

Lemma seq_split (k n : nat) :
  k < n -> seq 0 n = seq 0 k ++ k :: seq (S k) (n - S k).
Proof.
  intros H. replace n with (k + S (n - S k)) at 1 by lia.
  now rewrite seq_app.
Qed.

(** The loop returns the content of the first attempt that succeeds. *)
Lemma call_llm_success_at (self : detective) (srv : service)
    (prompt : pystr) (k : nat) (content : pystr) :
  k < max_retries self ->
  (forall a, a < k -> attempt_success srv a = None) ->
  attempt_success srv k = Some content ->
  _call_llm self srv prompt =
  (retried srv k ++ [EvPost], Returned (Some content)).
Proof.
  intros Hk Hn Hs. unfold _call_llm, retried.
  rewrite (@seq_split k _ Hk), retry_loop_retried.
  - cbn [retry_loop]. now rewrite (@attempt_body_success _ srv k _ Hs).
  - intros a Ha. apply in_seq in Ha. split; [apply Hn; lia|right; lia].
Qed.

(** With no success, a last attempt that fails lets its exception through. *)
Lemma call_llm_raise_at (self : detective) (srv : service)
    (prompt : pystr) (e : exn) :
  0 < max_retries self ->
  (forall a, a < max_retries self - 1 -> attempt_success srv a = None) ->
  attempt_failure srv (max_retries self - 1) = Some e ->
  _call_llm self srv prompt =
  (retried srv (max_retries self - 1) ++ [EvPost], Raised e).
Proof.
  intros Hk Hn Hf. unfold _call_llm, retried.
  rewrite (@seq_split (max_retries self - 1) (max_retries self)) by lia.
  rewrite retry_loop_retried.
  - cbn [retry_loop].
    rewrite (@attempt_body_raised (max_retries self) srv _ e Hf) by lia.
    reflexivity.
  - intros a Ha. apply in_seq in Ha. split; [apply Hn; lia|right; lia].
Qed.

(** With no success, a last attempt that is rate-limited ends the loop, and
    the function, without a result. *)
Lemma call_llm_none_at (self : detective) (srv : service) (prompt : pystr) :
  (forall a, a < max_retries self - 1 -> attempt_success srv a = None) ->
  max_retries self = 0 \/ rate_limited srv (max_retries self - 1) = true ->
  _call_llm self srv prompt = (retried srv (max_retries self), Returned None).
Proof.
  intros Hn Hl. unfold _call_llm, retried.
  rewrite <- (app_nil_r (seq 0 (max_retries self))) at 1.
  rewrite retry_loop_retried; [cbn; now rewrite app_nil_r|].
  intros a Ha. apply in_seq in Ha.
  destruct Hl as [Hl|Hl]; [lia|].
  destruct (Nat.eq_dec a (max_retries self - 1)) as [->|Hne].
  - split; [now apply rate_limited_no_success|now left].
  - split; [apply Hn; lia|right; lia].
Qed.

(** Up to any bound, either no attempt succeeds or there is a first one that
    does. *)
Lemma first_success (srv : service) (n : nat) :
  (forall a, a < n -> attempt_success srv a = None) \/
  (exists k content,
      k < n /\ attempt_success srv k = Some content /\
      forall a, a < k -> attempt_success srv a = None).
Proof.
  induction n as [|n IH]; [left; lia|].
  destruct IH as [IH|[k [c [Hk [Hs Hb]]]]].
  - destruct (attempt_success srv n) as [c|] eqn:Hn.
    + right. exists n, c. auto.
    + left. intros a Ha. destruct (Nat.eq_dec a n) as [->|]; [easy|].
      apply IH. lia.
  - right. exists k, c. auto.
Qed.

(** Every call ends in one of the three ways above. *)
Lemma call_llm_cases (self : detective) (srv : service) (prompt : pystr) :
  (exists k content,
      k < max_retries self /\
      attempt_success srv k = Some content /\
      (forall a, a < k -> attempt_success srv a = None) /\
      _call_llm self srv prompt =
      (retried srv k ++ [EvPost], Returned (Some content))) \/
  ((forall a, a < max_retries self - 1 -> attempt_success srv a = None) /\
   (max_retries self = 0 \/
    rate_limited srv (max_retries self - 1) = true) /\
   _call_llm self srv prompt =
   (retried srv (max_retries self), Returned None)) \/
  (exists e,
      0 < max_retries self /\
      attempt_failure srv (max_retries self - 1) = Some e /\
      _call_llm self srv prompt =
      (retried srv (max_retries self - 1) ++ [EvPost], Raised e)).
Proof.
  destruct (first_success srv (max_retries self))
    as [Hn|[k [c [Hk [Hs Hb]]]]].
  - right.
    assert (Hn' : forall a, a < max_retries self - 1 ->
                            attempt_success srv a = None)
      by (intros a Ha; apply Hn; lia).
    destruct (Nat.eq_dec (max_retries self) 0) as [H0|H0].
    + left. split; [exact Hn'|]. split; [now left|].
      apply call_llm_none_at; auto.
    + destruct (attempt_outcome srv (max_retries self - 1))
        as [[c Hc]|[[_ Hr]|[e He]]].
      * rewrite Hn in Hc by lia. discriminate.
      * left. split; [exact Hn'|]. split; [now right|].
        apply call_llm_none_at; auto.
      * right. exists e. split; [lia|]. split; [exact He|].
        apply call_llm_raise_at; auto. lia.
  - left. exists k, c. repeat split; auto.
    now apply call_llm_success_at.
Qed.

(** Requests and seconds of a run of retried attempts. *)
Lemma posts_app (a b : list event) : posts (a ++ b) = posts a + posts b.
Proof. unfold posts. now rewrite filter_app, length_app. Qed.

Lemma slept_app (a b : list event) : slept (a ++ b) = (slept a + slept b)%Z.
Proof.
  unfold slept. induction a as [|[|s] a IH]; cbn [app fold_right]; lia.
Qed.

Lemma backoff_bounds (srv : service) (a : nat) :
  (2 ^ Z.of_nat a <= backoff srv a <= 2 ^ Z.of_nat (S a))%Z.
Proof.
  unfold backoff. rewrite Nat2Z.inj_succ, Z.pow_succ_r by lia.
  assert (0 < 2 ^ Z.of_nat a)%Z by (apply Z.pow_pos_nonneg; lia).
  destruct (rate_limited srv a); lia.
Qed.

Lemma retried_observed (srv : service) (k : nat) :
  posts (retried srv k) = k /\
  (2 ^ Z.of_nat k - 1 <= slept (retried srv k) <= 2 ^ Z.of_nat (S k) - 2)%Z.
Proof.
  unfold retried. induction k as [|k [IHp IHs]]; [cbn; lia|].
  rewrite seq_S, flat_map_app, posts_app, slept_app. cbn [flat_map app plus].
  split; [rewrite IHp; cbn; lia|].
  pose proof (backoff_bounds srv k) as Hb.
  change (slept [EvPost; EvSleep (backoff srv k)])
    with (backoff srv k + 0)%Z.
  rewrite (Nat2Z.inj_succ (S k)), Z.pow_succ_r by lia.
  rewrite Nat2Z.inj_succ, Z.pow_succ_r in * by lia.
  lia.
Qed.

Lemma call_llm_bounds (self : detective) (srv : service) (prompt : pystr) :
  posts (fst (_call_llm self srv prompt)) <= max_retries self /\
  (0 < max_retries self -> 1 <= posts (fst (_call_llm self srv prompt))) /\
  (0 <= slept (fst (_call_llm self srv prompt))
   <= 2 ^ Z.of_nat (S (max_retries self)) - 2)%Z.
Proof.
  assert (Hpow : forall k, k <= max_retries self ->
                           (0 < 2 ^ Z.of_nat k <=
                            2 ^ Z.of_nat (max_retries self))%Z).
  { intros k Hk. split; [apply Z.pow_pos_nonneg; lia|].
    apply Z.pow_le_mono_r; lia. }
  assert (Hs : (2 ^ Z.of_nat (S (max_retries self)) =
                2 * 2 ^ Z.of_nat (max_retries self))%Z)
    by (rewrite Nat2Z.inj_succ, Z.pow_succ_r; lia).
  destruct (call_llm_cases self srv prompt)
    as [[k [c [Hk [_ [_ ->]]]]]|[[_ [_ ->]]|[e [Hk [_ ->]]]]];
    cbn [fst]; rewrite ?posts_app, ?slept_app.
  - destruct (retried_observed srv k) as [-> Hsl].
    pose proof (Hpow k ltac:(lia)) as H1.
    pose proof (Hpow (S k) ltac:(lia)) as H2.
    cbn. lia.
  - destruct (retried_observed srv (max_retries self)) as [-> Hsl].
    pose proof (Hpow (max_retries self) ltac:(lia)) as H1. lia.
  - destruct (retried_observed srv (max_retries self - 1)) as [-> Hsl].
    pose proof (Hpow (max_retries self - 1) ltac:(lia)) as H1.
    pose proof (Hpow (S (max_retries self - 1)) ltac:(lia)) as H2.
    cbn. lia.
Qed.

(** X1. The call returns the cleaned content of the first attempt that gets
    a usable answer: whatever went wrong before it (rate limits, server
    errors, time-outs, malformed bodies) costs one request and one sleep
    each and leaves no other mark on the result. *)
Theorem call_llm_returns_first_success
    (self : detective) (srv : service) (prompt : pystr)
    (k : nat) (content : pystr) :
  k < max_retries self ->
  (forall a, a < k -> attempt_success srv a = None) ->
  attempt_success srv k = Some content ->
  _call_llm self srv prompt =
  (retried srv k ++ [EvPost], Returned (Some content)) /\
  posts (fst (_call_llm self srv prompt)) = S k /\
  (2 ^ Z.of_nat k - 1 <= slept (fst (_call_llm self srv prompt))
   <= 2 ^ Z.of_nat (S k) - 2)%Z.
Proof.
  intros Hk Hn Hs.
  rewrite (@call_llm_success_at self srv prompt k content Hk Hn Hs).
  split; [reflexivity|]. cbn [fst]. rewrite posts_app, slept_app.
  destruct (retried_observed srv k) as [-> Hsl]. cbn. split; lia.
Qed.

Lemma call_llm_returns_first_success_witness :
  _call_llm groq_detective second_time_lucky [] =
  (retried second_time_lucky 1 ++ [EvPost], Returned (Some (str "{}"))) /\
  posts (fst (_call_llm groq_detective second_time_lucky [])) = 2 /\
  (2 ^ Z.of_nat 1 - 1
   <= slept (fst (_call_llm groq_detective second_time_lucky []))
   <= 2 ^ Z.of_nat 2 - 2)%Z.
Proof.
  apply (@call_llm_returns_first_success
           groq_detective second_time_lucky [] 1 (str "{}")).
  - cbn. lia.
  - intros a Ha. destruct a; [reflexivity|lia].
  - reflexivity.
Defined.

(** X2. When no attempt gets a usable answer and the last one fails for
    another reason than a rate limit, the call raises the exception of that
    last attempt (for a status other than 200, the "API error" text with
    the status and the body), after one request per attempt; the failures
    before it are lost. *)
Theorem call_llm_raises_last_failure
    (self : detective) (srv : service) (prompt : pystr) (e : exn) :
  0 < max_retries self ->
  (forall a, a < max_retries self - 1 -> attempt_success srv a = None) ->
  attempt_failure srv (max_retries self - 1) = Some e ->
  _call_llm self srv prompt =
  (retried srv (max_retries self - 1) ++ [EvPost], Raised e) /\
  posts (fst (_call_llm self srv prompt)) = max_retries self /\
  (forall r, srv (max_retries self - 1) = Responded r ->
             status_code r <> 200%Z ->
             e = Exception (error_msg r)).
Proof.
  intros Hk Hn Hf.
  rewrite (@call_llm_raise_at self srv prompt e Hk Hn Hf).
  split; [reflexivity|]. split.
  - cbn [fst]. rewrite posts_app.
    destruct (retried_observed srv (max_retries self - 1)) as [-> _].
    cbn. lia.
  - intros r Hr Hc. unfold attempt_failure in Hf. rewrite Hr in Hf.
    destruct (Z.eqb (status_code r) 429); [discriminate|].
    destruct (Z.eqb_spec (status_code r) 200); [contradiction|].
    now injection Hf as <-.
Qed.

Lemma call_llm_raises_last_failure_witness :
  _call_llm groq_detective always_500 [] =
  ([EvPost; EvSleep 1; EvPost; EvSleep 2; EvPost],
   Raised (Exception (str "API error 500: internal error"))) /\
  posts (fst (_call_llm groq_detective always_500 [])) = 3 /\
  (forall r, always_500 2 = Responded r ->
             status_code r <> 200%Z ->
             Exception (str "API error 500: internal error") =
             Exception (error_msg r)).
Proof.
  apply (@call_llm_raises_last_failure groq_detective always_500 []
           (Exception (str "API error 500: internal error"))).
  - cbn. lia.
  - intros a Ha. reflexivity.
  - reflexivity.
Defined.

(** X3. The call comes back without a result (Python's [None]) in exactly
    one situation: no attempt got a usable answer and the last attempt was
    answered with the rate-limit status 429 (or no attempt is allowed at
    all). It has then made every request it may make and slept after each,
    the last sleep included. *)
Theorem call_llm_none_iff
    (self : detective) (srv : service) (prompt : pystr)
    (evs : list event) :
  _call_llm self srv prompt = (evs, Returned None) <->
  evs = retried srv (max_retries self) /\
  (forall a, a < max_retries self - 1 -> attempt_success srv a = None) /\
  (max_retries self = 0 \/ rate_limited srv (max_retries self - 1) = true).
Proof.
  split.
  - intros H.
    destruct (call_llm_cases self srv prompt)
      as [[k [c [_ [_ [_ Hc]]]]]|[[Hn [Hl Hc]]|[e [_ [_ Hc]]]]];
      rewrite Hc in H; try discriminate.
    injection H as <-. auto.
  - intros [-> [Hn Hl]]. now apply call_llm_none_at.
Qed.

(** ** The constructor, with and without a key *)

Section ConstructorOutcomes.
Context {R : PyRuntime}.
Variable environ : pystr -> option pystr.

Lemma key_given_spec (key : option pystr) :
  key_given key = true <-> exists c k, key = Some (c :: k).
Proof.
  split.
  - destruct key as [[|c k]|]; try discriminate. eauto.
  - now intros [c [k ->]].
Qed.

Lemma init_ok (provider : pystr) (key : option pystr) (self : detective) :
  __init__ environ provider key = Ok self ->
  api_provider self = py_lower provider /\
  max_retries self = 3 /\
  api_key self <> [] /\
  (if key_given key then key = Some (api_key self)
   else exists var, key_variable provider = Some var /\
                    environ var = Some (api_key self)) /\
  (if streq (py_lower provider) (str "groq")
   then api_url self = GROQ_URL /\ model self = GROQ_MODEL
   else api_url self = OPENAI_URL /\ model self = OPENAI_MODEL).
Proof.
  unfold __init__, key_variable.
  destruct (key_given key) eqn:Hk.
  - apply key_given_spec in Hk. destruct Hk as [c [k ->]]. cbn [rbind].
    destruct (streq (py_lower provider) (str "groq"));
      intros [= <-]; cbn; repeat split; easy.
  - destruct (streq (py_lower provider) (str "groq")) eqn:Hg; cbn [rbind].
    + destruct (environ (str "GROQ_API_KEY")) as [[|c k]|] eqn:He;
        try discriminate.
      intros [= <-]; cbn; repeat split; try easy.
      exists (str "GROQ_API_KEY"). auto.
    + destruct (streq (py_lower provider) (str "openai")) eqn:Ho;
        cbn [rbind]; [|discriminate].
      destruct (environ (str "OPENAI_API_KEY")) as [[|c k]|] eqn:He;
        try discriminate.
      intros [= <-]; cbn; repeat split; try easy.
      exists (str "OPENAI_API_KEY"). auto.
Qed.

Lemma init_raise (provider : pystr) (key : option pystr) (e : exn) :
  __init__ environ provider key = Raise e ->
  key_given key = false /\
  match key_variable provider with
  | None => e = ValueError (str "Unknown API provider: " ++ provider)
  | Some var =>
      key_given (environ var) = false /\
      e = ValueError (py_upper (py_lower provider) ++
                      str "_API_KEY not found in environment")
  end.
Proof.
  unfold __init__, key_variable.
  destruct (key_given key) eqn:Hk.
  - apply key_given_spec in Hk. destruct Hk as [c [k ->]]. cbn [rbind].
    now destruct (streq (py_lower provider) (str "groq")).
  - intros H. split; [reflexivity|].
    destruct (streq (py_lower provider) (str "groq")) eqn:Hg;
      cbn [rbind] in H.
    + destruct (environ (str "GROQ_API_KEY")) as [[|c k]|] eqn:He;
        cbn [key_given]; try discriminate; now injection H as <-.
    + destruct (streq (py_lower provider) (str "openai")) eqn:Ho;
        cbn [rbind] in H; [|now injection H as <-].
      destruct (environ (str "OPENAI_API_KEY")) as [[|c k]|] eqn:He;
        cbn [key_given]; try discriminate; rewrite ?Hg in H;
        now injection H as <-.
Qed.
End ConstructorOutcomes.

(** X4. What the constructor leaves behind. An object it returns has a
    non-empty key, three attempts, and the Groq endpoint and model exactly
    when the lowercased provider is groq, otherwise the OpenAI ones; without
    an explicit key the key is the value of the provider's own environment
    variable. It raises nothing but [ValueError], and only without an
    explicit key: for an unknown provider, or because the provider's
    variable is unset or empty. *)
Theorem init_outcomes :
  forall (R : PyRuntime) (environ : pystr -> option pystr)
         (provider : pystr) (key : option pystr),
    (forall self,
        __init__ environ provider key = Ok self ->
        api_provider self = py_lower provider /\
        max_retries self = 3 /\
        api_key self <> [] /\
        (if key_given key then key = Some (api_key self)
         else exists var, key_variable provider = Some var /\
                          environ var = Some (api_key self)) /\
        (if streq (py_lower provider) (str "groq")
         then api_url self = GROQ_URL /\ model self = GROQ_MODEL
         else api_url self = OPENAI_URL /\ model self = OPENAI_MODEL)) /\
    (forall e,
        __init__ environ provider key = Raise e ->
        key_given key = false /\
        match key_variable provider with
        | None => e = ValueError (str "Unknown API provider: " ++ provider)
        | Some var =>
            key_given (environ var) = false /\
            e = ValueError (py_upper (py_lower provider) ++
                            str "_API_KEY not found in environment")
        end).
Proof.
  intros R environ provider key. split.
  - intros self. apply init_ok.
  - intros e. apply init_raise.
Qed.

(** X5. A call made through any object the constructor returned sends at
    least one and at most three requests and sleeps at most fourteen
    seconds in all, whatever the service answers. *)
Theorem constructed_detective_call_bounds :
  forall (R : PyRuntime) (environ : pystr -> option pystr)
         (provider : pystr) (key : option pystr) (self : detective)
         (srv : service) (prompt : pystr),
    __init__ environ provider key = Ok self ->
    1 <= posts (fst (_call_llm self srv prompt)) <= 3 /\
    (0 <= slept (fst (_call_llm self srv prompt)) <= 14)%Z.
Proof.
  intros R environ provider key self srv prompt Hi.
  destruct (init_ok _ _ _ Hi) as [_ [Hm _]].
  destruct (call_llm_bounds self srv prompt) as [H1 [H2 H3]].
  rewrite Hm in H1, H2, H3. cbn in H3. lia.
Qed.

Lemma constructed_detective_call_bounds_witness :
  1 <= posts (fst (_call_llm groq_detective always_429 (str "prompt"))) <= 3 /\
  (0 <= slept (fst (_call_llm groq_detective always_429 (str "prompt")))
   <= 14)%Z.
Proof.
  apply (@constructed_detective_call_bounds
           example_runtime no_environ (str "groq") (Some (str "test_key"))
           groq_detective always_429 (str "prompt")).
  reflexivity.
Defined.

(** ** The clean-up only removes from the two ends *)

Lemma Substring_lstrip (s : pystr) : Substring (lstrip s) s.
Proof.
  destruct (lstrip_suffix s) as [w Hw]. exists w, [].
  now rewrite app_nil_r.
Qed.

Lemma Substring_rstrip (s : pystr) : Substring (rstrip s) s.
Proof. destruct (rstrip_prefix s) as [w Hw]. now exists [], w. Qed.

Lemma Substring_strip (s : pystr) : Substring (strip s) s.
Proof.
  unfold strip.
  exact (Substring_trans (Substring_rstrip (lstrip s)) (Substring_lstrip s)).
Qed.

Lemma Substring_drop_front (n : nat) (s : pystr) :
  Substring (drop_front n s) s.
Proof.
  exists (firstn n s), []. unfold drop_front.
  now rewrite app_nil_r, firstn_skipn.
Qed.

Lemma Substring_drop_back (n : nat) (s : pystr) :
  Substring (drop_back n s) s.
Proof.
  exists [], (skipn (length s - n) s). unfold drop_back.
  now rewrite firstn_skipn.
Qed.

Lemma clean_response_Substring (x : pystr) : Substring (clean_response x) x.
Proof.
  unfold clean_response.
  eapply Substring_trans; [apply Substring_strip|].
  eapply Substring_trans;
    [|eapply Substring_trans;
      [|eapply Substring_trans; [|apply (Substring_strip x)]]].
  - destruct (endswith FENCE _);
      [apply Substring_drop_back|apply Substring_refl].
  - destruct (startswith FENCE _);
      [apply Substring_drop_front|apply Substring_refl].
  - destruct (startswith FENCE_JSON _);
      [apply Substring_drop_front|apply Substring_refl].
Qed.

(** White space around a text that begins and ends with other characters. *)
Lemma lstrip_spaces (ws s : pystr) :
  Forall (fun w => isspace w = true) ws -> lstrip (ws ++ s) = lstrip s.
Proof.
  induction 1 as [|w ws Hw _ IH]; [reflexivity|].
  cbn [app lstrip]. now rewrite Hw.
Qed.

Lemma rstrip_spaces (ws s : pystr) :
  Forall (fun w => isspace w = true) ws -> rstrip (s ++ ws) = rstrip s.
Proof.
  intros H. unfold rstrip. rewrite rev_app_distr, lstrip_spaces; [easy|].
  now apply Forall_rev.
Qed.

Lemma lstrip_fence (s : pystr) : lstrip (FENCE ++ s) = FENCE ++ s.
Proof. reflexivity. Qed.

Lemma rstrip_fence (s : pystr) : rstrip (s ++ FENCE) = s ++ FENCE.
Proof.
  unfold rstrip. rewrite rev_app_distr.
  change (lstrip (rev FENCE ++ rev s)) with (rev FENCE ++ rev s).
  now rewrite rev_app_distr, !rev_involutive.
Qed.

Lemma strip_fenced (ws1 ws2 s : pystr) :
  Forall (fun w => isspace w = true) ws1 ->
  Forall (fun w => isspace w = true) ws2 ->
  strip (ws1 ++ (FENCE ++ s ++ FENCE) ++ ws2) = FENCE ++ s ++ FENCE.
Proof.
  intros H1 H2. unfold strip.
  rewrite lstrip_spaces by assumption.
  rewrite <- app_assoc, lstrip_fence, app_assoc.
  rewrite rstrip_spaces by assumption.
  now rewrite app_assoc, rstrip_fence, <- app_assoc.
Qed.

Lemma strip_fenced_bare (s : pystr) :
  strip (FENCE ++ s ++ FENCE) = FENCE ++ s ++ FENCE.
Proof.
  pose proof (@strip_fenced [] [] s (Forall_nil _) (Forall_nil _)) as H.
  cbn [app] in H. now rewrite app_nil_r in H.
Qed.

Lemma endswith_app (p s : pystr) : endswith p (s ++ p) = true.
Proof.
  unfold endswith. rewrite rev_app_distr. apply startswith_prefix. eauto.
Qed.

Lemma drop_back_app (s p : pystr) : drop_back (length p) (s ++ p) = s.
Proof.
  unfold drop_back. rewrite length_app.
  replace (length s + length p - length p) with (length s + 0) by lia.
  now rewrite firstn_app_2, app_nil_r.
Qed.

(** A text between two plain fences, and between a [json] fence and a plain
    one. *)
Lemma clean_fenced (p : pystr) :
  startswith (str "json") (p ++ FENCE) = false ->
  clean_response (FENCE ++ p ++ FENCE) = strip p.
Proof.
  intros Hj. unfold clean_response.
  rewrite (strip_fenced_bare p).
  change (startswith FENCE_JSON (FENCE ++ p ++ FENCE))
    with (startswith (str "json") (p ++ FENCE)).
  rewrite Hj.
  change (startswith FENCE (FENCE ++ p ++ FENCE)) with true. cbv iota.
  change (drop_front 3 (FENCE ++ p ++ FENCE)) with (p ++ FENCE).
  rewrite endswith_app.
  change (drop_back 3 (p ++ FENCE))
    with (drop_back (length FENCE) (p ++ FENCE)).
  now rewrite drop_back_app.
Qed.

Lemma clean_fenced_json (p : pystr) :
  startswith FENCE (p ++ FENCE) = false ->
  clean_response (FENCE_JSON ++ p ++ FENCE) = strip p.
Proof.
  intros Hf. unfold clean_response.
  change (FENCE_JSON ++ p ++ FENCE)
    with (FENCE ++ (str "json" ++ p) ++ FENCE).
  rewrite (strip_fenced_bare (str "json" ++ p)).
  change (startswith FENCE_JSON (FENCE ++ (str "json" ++ p) ++ FENCE))
    with true. cbv iota.
  change (drop_front 7 (FENCE ++ (str "json" ++ p) ++ FENCE))
    with (p ++ FENCE).
  rewrite Hf, endswith_app.
  change (drop_back 3 (p ++ FENCE))
    with (drop_back (length FENCE) (p ++ FENCE)).
  now rewrite drop_back_app.
Qed.

Lemma clean_response_strip (x : pystr) :
  clean_response (strip x) = clean_response x.
Proof. unfold clean_response. now rewrite strip_idem. Qed.

Lemma clean_unfenced (x : pystr) :
  startswith FENCE (strip x) = false ->
  endswith FENCE (strip x) = false ->
  clean_response x = strip x.
Proof.
  intros Hs He. unfold clean_response.
  destruct (startswith FENCE_JSON (strip x)) eqn:Hj.
  - apply (@startswith_app_l FENCE (str "json")) in Hj. congruence.
  - rewrite Hs, He. apply strip_idem.
Qed.

(** X6. The cleaned content is a contiguous piece of the response, with no
    white space at either end: the clean-up removes characters from the two
    ends of the text and does nothing else to it. *)
Theorem clean_response_is_trimmed_piece (x : pystr) :
  Substring (clean_response x) x /\
  contains (clean_response x) x = true /\
  strip (clean_response x) = clean_response x /\
  length (clean_response x) <= length x.
Proof.
  split; [apply clean_response_Substring|].
  split; [apply contains_Substring, clean_response_Substring|].
  split; [apply clean_response_trimmed|apply clean_response_length].
Qed.

(** X7. One layer of fences is taken off. A response that is, up to white
    space around it, a text between a [```json] fence and a closing fence
    cleans to that text, trimmed, when the text does not begin with a
    backtick; the same holds between two plain fences when the text does not
    begin with the letter j; and a response with no fence at either end of
    its trimmed text is only trimmed. *)
Theorem clean_response_unwraps_one_fence
    (ws1 ws2 : pystr) (c : N) (q : pystr) :
  Forall (fun w => isspace w = true) ws1 ->
  Forall (fun w => isspace w = true) ws2 ->
  (c <> 96%N ->
   clean_response (ws1 ++ (FENCE_JSON ++ (c :: q) ++ FENCE) ++ ws2) =
   strip (c :: q)) /\
  (c <> 106%N ->
   clean_response (ws1 ++ (FENCE ++ (c :: q) ++ FENCE) ++ ws2) =
   strip (c :: q)) /\
  (forall x, startswith FENCE (strip x) = false ->
             endswith FENCE (strip x) = false ->
             clean_response x = strip x).
Proof.
  intros H1 H2. split; [|split].
  - intros Hc. rewrite <- clean_response_strip.
    change (FENCE_JSON ++ (c :: q) ++ FENCE)
      with (FENCE ++ (str "json" ++ c :: q) ++ FENCE).
    rewrite (@strip_fenced ws1 ws2 (str "json" ++ c :: q) H1 H2).
    apply (clean_fenced_json (c :: q)).
    apply N.eqb_neq in Hc. rewrite N.eqb_sym in Hc.
    change (startswith FENCE ((c :: q) ++ FENCE))
      with (N.eqb 96 c && startswith (str "``") (q ++ FENCE)).
    now rewrite Hc.
  - intros Hc. rewrite <- clean_response_strip.
    rewrite (@strip_fenced ws1 ws2 (c :: q) H1 H2).
    apply (clean_fenced (c :: q)).
    apply N.eqb_neq in Hc. rewrite N.eqb_sym in Hc.
    change (startswith (str "json") ((c :: q) ++ FENCE))
      with (N.eqb 106 c && startswith (str "son") (q ++ FENCE)).
    now rewrite Hc.
  - apply clean_unfenced.
Qed.

Lemma clean_response_unwraps_one_fence_witness :
  (10%N <> 96%N ->
   clean_response ([] ++ (FENCE_JSON ++ (10%N :: str "{}") ++ FENCE) ++ nl) =
   strip (10%N :: str "{}")) /\
  (10%N <> 106%N ->
   clean_response ([] ++ (FENCE ++ (10%N :: str "{}") ++ FENCE) ++ nl) =
   strip (10%N :: str "{}")) /\
  (forall x, startswith FENCE (strip x) = false ->
             endswith FENCE (strip x) = false ->
             clean_response x = strip x).
Proof.
  apply (@clean_response_unwraps_one_fence [] nl 10%N (str "{}")).
  - constructor.
  - repeat constructor.
Defined.

(** ** From the parsed response to the returned graph *)

Lemma extract_parsed_not_dict (g : json) :
  isinstance_dict g = false -> extract_parsed g = Raise TypeError.
Proof.
  intros Hd. unfold extract_parsed.
  destruct (validate_and_repair_cases g) as [[Hv _]|[_ ->]].
  - destruct Hv as [d [es [rs [-> _]]]]. discriminate.
  - destruct g as [| b | z | s | l | d]; try discriminate; try reflexivity.
    + unfold repair. cbn [py_in rbind].
      destruct (contains ENTITIES s); cbn [negb setitem rbind py_in];
        [|reflexivity].
      destruct (contains RELATIONSHIPS s); cbn [negb setitem rbind];
        reflexivity.
    + unfold repair. cbn [py_in rbind].
      destruct (existsb (is_str ENTITIES) l);
        cbn [negb setitem rbind py_in]; [|reflexivity].
      destruct (existsb (is_str RELATIONSHIPS) l);
        cbn [negb setitem rbind]; reflexivity.
Qed.

Lemma missing_defaults_valid (d : dict) :
  spec_valid (JDict d) -> missing_defaults d = [].
Proof.
  intros H. destruct (spec_valid_keys H) as [He Hr].
  unfold missing_defaults. now rewrite He, Hr.
Qed.

Lemma extract_parsed_dict (d : dict) :
  extract_parsed (JDict d) =
  (_ <- report_counts (JDict (d ++ missing_defaults d)) ;;
   Ok (JDict (d ++ missing_defaults d)))%py.
Proof.
  unfold extract_parsed.
  destruct (validate_and_repair_cases (JDict d)) as [[Hv ->]|[_ ->]].
  - now rewrite (missing_defaults_valid Hv), app_nil_r.
  - now rewrite repair_dict.
Qed.

Lemma has_key_defaults (d : dict) :
  has_key ENTITIES (d ++ missing_defaults d) = true /\
  has_key RELATIONSHIPS (d ++ missing_defaults d) = true.
Proof.
  rewrite !has_key_app. unfold missing_defaults. rewrite !has_key_app.
  destruct (has_key ENTITIES d), (has_key RELATIONSHIPS d); split;
    reflexivity.
Qed.

Lemma py_len_raise (v : json) (e : exn) :
  py_len v = Raise e -> e = TypeError.
Proof. destruct v; cbn; congruence. Qed.

Lemma extract_parsed_valid (g : json) :
  spec_valid g -> extract_parsed g = Ok g.
Proof.
  intros Hv. destruct (Hv) as [d [es [rs [-> [He [Hr _]]]]]].
  rewrite extract_parsed_dict, (missing_defaults_valid Hv), app_nil_r.
  unfold report_counts. cbn [getitem]. now rewrite He, Hr.
Qed.

(** X8. What the pipeline makes of a parsed response. A response that is
    valid JSON but no object is never repaired: the extraction ends in a
    [TypeError]. For an object, the result is the object itself with the
    missing top-level keys added at its end, provided the two values have a
    length; otherwise, again, [TypeError]. No other exception leaves this
    part of the pipeline, and a graph that is returned can always be indexed
    by both keys. *)
Theorem extract_parsed_outcomes (g : json) :
  (isinstance_dict g = false -> extract_parsed g = Raise TypeError) /\
  (forall e, extract_parsed g = Raise e -> e = TypeError) /\
  (forall g',
      extract_parsed g = Ok g' ->
      exists d es rs n_e n_r,
        g = JDict d /\
        g' = JDict (d ++ missing_defaults d) /\
        getitem g' ENTITIES = Ok es /\ py_len es = Ok n_e /\
        getitem g' RELATIONSHIPS = Ok rs /\ py_len rs = Ok n_r) /\
  (spec_valid g -> extract_parsed g = Ok g).
Proof.
  split; [apply extract_parsed_not_dict|].
  split; [|split; [|apply extract_parsed_valid]].
  - intros e He. destruct (isinstance_dict g) eqn:Hd.
    + destruct g as [| | | | |d]; try discriminate.
      rewrite extract_parsed_dict in He. unfold report_counts in He.
      destruct (has_key_defaults d) as [H1 H2].
      apply has_key_lookup in H1, H2.
      destruct H1 as [es H1], H2 as [rs H2].
      cbn [getitem] in He. rewrite H1, H2 in He. cbn [rbind] in He.
      destruct (py_len es) eqn:Les; cbn [rbind] in He;
        [|injection He as <-; now apply py_len_raise in Les].
      destruct (py_len rs) eqn:Lrs; cbn [rbind] in He;
        [discriminate|injection He as <-; now apply py_len_raise in Lrs].
    + rewrite extract_parsed_not_dict in He by assumption. congruence.
  - intros g' Hg. destruct (isinstance_dict g) eqn:Hd.
    + destruct g as [| | | | |d]; try discriminate.
      rewrite extract_parsed_dict in Hg. unfold report_counts in Hg.
      destruct (has_key_defaults d) as [H1 H2].
      apply has_key_lookup in H1, H2.
      destruct H1 as [es H1], H2 as [rs H2].
      cbn [getitem] in Hg. rewrite H1, H2 in Hg. cbn [rbind] in Hg.
      destruct (py_len es) as [n_e|] eqn:Les; cbn [rbind] in Hg;
        [|discriminate].
      destruct (py_len rs) as [n_r|] eqn:Lrs; cbn [rbind] in Hg;
        [|discriminate].
      injection Hg as <-. exists d, es, rs, n_e, n_r.
      cbn [getitem]. rewrite H1, H2. repeat split; assumption.
    + rewrite extract_parsed_not_dict in Hg by assumption. discriminate.
Qed.

(** ** The pipeline, end to end *)

(** The text of an object is held between its two braces. *)
Lemma json_dump_braced (d : dict) :
  exists m, json_dump (JDict d) = 123%N :: m ++ [125%N].
Proof.
  unfold json_dump. destruct d as [|kv d].
  - now exists [].
  - cbn [iterencode].
    eexists (newline_indent 1 ++ join _ _ ++ newline_indent 0).
    change (str "{") with [123%N]. change (str "}") with [125%N].
    cbn [app]. now rewrite <- !app_assoc.
Qed.

Lemma strip_braced (ws1 ws2 m : pystr) :
  Forall (fun w => isspace w = true) ws1 ->
  Forall (fun w => isspace w = true) ws2 ->
  strip (ws1 ++ (123%N :: m ++ [125%N]) ++ ws2) = 123%N :: m ++ [125%N].
Proof.
  intros H1 H2. unfold strip. rewrite lstrip_spaces by assumption.
  change (lstrip ((123%N :: m ++ [125%N]) ++ ws2))
    with ((123%N :: m ++ [125%N]) ++ ws2).
  rewrite rstrip_spaces by assumption.
  unfold rstrip. change (123%N :: m ++ [125%N]) with ((123%N :: m) ++ [125%N]).
  rewrite rev_app_distr.
  change (lstrip (rev [125%N] ++ rev (123%N :: m)))
    with (rev [125%N] ++ rev (123%N :: m)).
  now rewrite rev_app_distr, !rev_involutive.
Qed.

(** The text of an object, bare or between fences on lines of their own,
    cleans to itself. *)
Lemma clean_response_dump (d : dict) (s : pystr) :
  s = json_dump (JDict d) \/
  s = FENCE_JSON ++ (nl ++ json_dump (JDict d) ++ nl) ++ FENCE \/
  s = FENCE ++ (nl ++ json_dump (JDict d) ++ nl) ++ FENCE ->
  clean_response s = json_dump (JDict d).
Proof.
  destruct (json_dump_braced d) as [m Hm].
  assert (Hnl : Forall (fun w => isspace w = true) nl)
    by (repeat constructor).
  assert (Hs : strip (nl ++ json_dump (JDict d) ++ nl) = json_dump (JDict d)).
  { rewrite Hm. apply (strip_braced m Hnl Hnl). }
  intros [->|[->| ->]].
  - pose proof (@strip_braced [] [] m (Forall_nil _) (Forall_nil _)) as H0.
    cbn [app] in H0. rewrite app_nil_r in H0.
    rewrite clean_unfenced; rewrite Hm, H0; [reflexivity|reflexivity|].
    unfold endswith.
    change (123%N :: m ++ [125%N]) with ((123%N :: m) ++ [125%N]).
    now rewrite rev_app_distr.
  - rewrite clean_fenced_json; [exact Hs|reflexivity].
  - rewrite clean_fenced; [exact Hs|reflexivity].
Qed.

(** The text of a valid graph, sent as the first usable answer, comes back
    as that graph. *)
Lemma extract_graph_sent
    (self : detective) (srv : service) (input_file : list N)
    (text : pystr) (k : nat) (s : pystr) (g : json) :
  read_text input_file = Ok text ->
  k < max_retries self ->
  (forall a, a < k -> attempt_success srv a = None) ->
  attempt_success srv k = Some (clean_response s) ->
  s = json_dump g \/
  s = FENCE_JSON ++ (nl ++ json_dump g ++ nl) ++ FENCE \/
  s = FENCE ++ (nl ++ json_dump g ++ nl) ++ FENCE ->
  spec_valid g ->
  unique_keys g ->
  extract_knowledge_graph self srv input_file =
  (retried srv k ++ [EvPost], Ok g).
Proof.
  intros Hr Hk Hn Hs Hshape Hv Hu. unfold extract_knowledge_graph.
  rewrite Hr.
  rewrite (@call_llm_success_at self srv _ k _ Hk Hn Hs).
  destruct (Hv) as [d [es [rs [-> _]]]].
  rewrite (clean_response_dump d Hshape).
  rewrite (json_loads_dump _ Hu). cbn [rbind].
  now rewrite (extract_parsed_valid Hv).
Qed.


Lemma two_companies_valid : spec_valid two_companies.
Proof.
  destruct (validate_total two_companies) as [b [Hb Hv]].
  apply Hv. vm_compute in Hb. congruence.
Qed.


(** ** Writing the graph: when it succeeds, and what the file holds *)

Lemma Forall_Substring (P : N -> Prop) (n h : pystr) :
  Substring n h -> Forall P h -> Forall P n.
Proof.
  intros [a [b ->]] H. apply Forall_app in H. destruct H as [_ H].
  apply Forall_app in H. tauto.
Qed.

Lemma utf8_encode_char_ok (c : N) (bs : list N) :
  utf8_encode_char c = Ok bs -> encodable c = true.
Proof.
  unfold utf8_encode_char, encodable.
  destruct (c <? 128)%N eqn:E1; [intros _; N_bools; now N_decide|].
  destruct (c <? 2048)%N eqn:E2; [intros _; N_bools; now N_decide|].
  destruct (c <? 65536)%N eqn:E3.
  - destruct (55296 <=? c)%N eqn:E4; cbn [andb].
    + destruct (c <=? 57343)%N eqn:E5; [discriminate|].
      intros _. N_bools. N_decide. now rewrite orb_true_r.
    + intros _. N_bools. now N_decide.
  - destruct (c <? 1114112)%N eqn:E4; [|discriminate].
    intros _. N_bools. N_decide. now rewrite orb_true_r.
Qed.

Lemma utf8_encode_char_raise (c : N) (e : exn) :
  utf8_encode_char c = Raise e -> e = UnicodeEncodeError.
Proof.
  unfold utf8_encode_char.
  repeat match goal with
         | |- context [if ?b then _ else _] => destruct b
         end; congruence.
Qed.

Lemma utf8_encode_ok (s : pystr) (bs : list N) :
  utf8_encode s = Ok bs -> no_surrogate s.
Proof.
  revert bs. induction s as [|c s IH]; intros bs H; [constructor|].
  cbn [utf8_encode] in H. inv_bind H. inv_bind H.
  constructor; [now apply utf8_encode_char_ok in E|exact (IH _ eq_refl)].
Qed.

Lemma utf8_encode_raise (s : pystr) (e : exn) :
  utf8_encode s = Raise e -> e = UnicodeEncodeError.
Proof.
  induction s as [|c s IH]; [discriminate|].
  cbn [utf8_encode].
  destruct (utf8_encode_char c) eqn:E; cbn [rbind].
  - destruct (utf8_encode s); cbn [rbind]; [discriminate|].
    intros [= <-]. now apply IH.
  - intros [= <-]. now apply utf8_encode_char_raise in E.
Qed.

(** What is written can be read: the bytes decode to the text. *)
Lemma write_text_decodes (s : pystr) (file : list N) :
  write_text s = Ok file -> utf8_decode file = Ok s.
Proof.
  intros H. destruct (utf8_roundtrip (utf8_encode_ok _ H)) as [bs [He Hd]].
  unfold write_text in H. congruence.
Qed.

Lemma write_read_text (s : pystr) (file : list N) :
  write_text s = Ok file -> read_text file = Ok (universal_newlines s).
Proof.
  intros H. unfold read_text. now rewrite (write_text_decodes _ H).
Qed.

(** A character that is no character of a file is not escaped. *)
Lemma encodable_escape_inv (c : N) :
  Forall (fun x => encodable x = true) (escape_char c) -> encodable c = true.
Proof.
  unfold escape_char.
  destruct (c <? 93)%N eqn:E.
  - intros _. unfold encodable. N_bools. now N_decide.
  - N_bools. N_decide. intros H. now inversion H.
Qed.

Lemma encodable_basestring_inv (s : pystr) :
  Forall (fun x => encodable x = true) (encode_basestring s) ->
  no_surrogate s.
Proof.
  unfold encode_basestring. intros H.
  apply Forall_app in H. destruct H as [_ H].
  apply Forall_app in H. destruct H as [H _].
  induction s as [|c s IH]; [constructor|].
  cbn [flat_map] in H. apply Forall_app in H. destruct H as [Hc Hs].
  constructor; [now apply encodable_escape_inv|now apply IH].
Qed.

Lemma encodable_iterencode_inv (v : json) :
  forall level,
    Forall (fun x => encodable x = true) (iterencode v level) ->
    all_strings no_surrogate v.
Proof.
  induction v as [| b | z | s | l IH | d IH] using json_nested_ind;
    intros level H; try exact I.
  - now apply encodable_basestring_inv.
  - apply all_strings_list. apply Forall_forall. intros x Hx.
    rewrite Forall_forall in IH.
    apply (IH x Hx (S level)).
    destruct l as [|y l']; [destruct Hx|].
    refine (Forall_Substring _ H).
    cbn [iterencode].
    apply Substring_app_r, Substring_app_r, Substring_app_l.
    apply In_Substring_join.
    now apply (in_map (fun value => iterencode value (S level))).
  - apply all_strings_dict. apply Forall_forall. intros [k x] Hx.
    rewrite Forall_forall in IH.
    destruct d as [|y d']; [destruct Hx|].
    assert (Hs : Substring (encode_basestring k ++ str ": " ++
                            iterencode x (S level))
                           (iterencode (JDict (y :: d')) level)).
    { cbn [iterencode].
      apply Substring_app_r, Substring_app_r, Substring_app_l.
      apply In_Substring_join.
      now apply (in_map (fun item : pystr * json =>
                           let (key, value) := item in
                           encode_basestring key ++ str ": " ++
                           iterencode value (S level)) _ (k, x)). }
    pose proof (Forall_Substring Hs H) as Hf.
    apply Forall_app in Hf. destruct Hf as [Hk Hf].
    apply Forall_app in Hf. destruct Hf as [_ Hf].
    cbn [fst snd]. split; [now apply encodable_basestring_inv|].
    apply (IH (k, x) Hx (S level)). exact Hf.
Qed.

(** X10. Saving the graph succeeds exactly when no string of the graph, key
    or value, holds a lone surrogate; it raises nothing but
    [UnicodeEncodeError]; and the file it writes decodes, and reads back
    in text mode, to the very text of [json.dumps(graph_data, indent=2,
    ensure_ascii=False)], which is what the web application offers for
    download. *)
Theorem save_graph_json_outcomes (graph_data : json) :
  ((exists file, save_graph_json graph_data = Ok file) <->
   all_strings no_surrogate graph_data) /\
  (forall e, save_graph_json graph_data = Raise e ->
             e = UnicodeEncodeError) /\
  (forall file,
      save_graph_json graph_data = Ok file ->
      utf8_decode file = Ok (json_dump graph_data) /\
      read_text file = Ok (json_dump graph_data)).
Proof.
  unfold save_graph_json. split; [split|split].
  - intros [file H]. apply utf8_encode_ok in H.
    now apply encodable_iterencode_inv in H.
  - intros H. pose proof (text_char_iterencode graph_data H 0) as Ht.
    destruct (utf8_roundtrip (no_surrogate_text Ht)) as [file [Hw _]].
    now exists file.
  - intros e. apply utf8_encode_raise.
  - intros file H. split; [now apply write_text_decodes|].
    rewrite (write_read_text _ H).
    pose proof (utf8_encode_ok _ H) as He.
    apply encodable_iterencode_inv in He. unfold json_dump.
    now rewrite (universal_newlines_id (text_char_iterencode _ He 0)).
Qed.

(** ** The flow chart: when it is written, and how it fails *)

Lemma getitem_ok (x : json) (k : pystr) (v : json) :
  getitem x k = Ok v -> exists d, x = JDict d /\ lookup k d = Some v.
Proof.
  destruct x as [| | | | |d]; try discriminate. cbn [getitem].
  destruct (lookup k d) eqn:E; [|discriminate]. intros [= <-]. eauto.
Qed.

Lemma sanitized_ok (x : json) (s : pystr) :
  sanitized x = Ok s -> exists i, x = JStr i.
Proof. destruct x; try discriminate. eauto. Qed.

Lemma sanitized_raise (x : json) (e : exn) :
  sanitized x = Raise e -> e = AttributeError.
Proof. destruct x; cbn; congruence. Qed.

Lemma for_each_Forall {A S} (body : S -> A -> result S) (P : A -> Prop) :
  (forall s x s', body s x = Ok s' -> P x) ->
  forall l s s', for_each body l s = Ok s' -> Forall P l.
Proof.
  intros Hb. induction l as [|x l IH]; intros s s' H; [constructor|].
  cbn [for_each] in H. inv_bind H. constructor; eauto.
Qed.

Lemma for_each_raise {A S} (body : S -> A -> result S) (P : A -> Prop)
    (Q : exn -> Prop) :
  (forall s x e, P x -> body s x = Raise e -> Q e) ->
  forall l s e, Forall P l -> for_each body l s = Raise e -> Q e.
Proof.
  intros Hb. induction l as [|x l IH]; intros s e Hl H; [discriminate|].
  inversion Hl as [|? ? Hx Hl']; subst. cbn [for_each] in H.
  destruct (body s x) eqn:E; cbn [rbind] in H.
  - eauto.
  - injection H as <-. eauto.
Qed.

Section MermaidOutcomes.
Context {R : PyRuntime}.

Lemma mermaid_entity_inv (acc : list pystr) (e : json)
    (acc' : list pystr) :
  mermaid_entity acc e = Ok acc' -> renderable_entity e.
Proof.
  unfold mermaid_entity. intros H.
  inv_bind H. inv_bind H. inv_bind H. inv_bind H.
  apply getitem_ok in E, E1, E2.
  destruct E as [d [-> Hi]], E1 as [d1 [E1 Hn]], E2 as [d2 [E2 Ht]].
  injection E1 as <-. injection E2 as <-.
  apply sanitized_ok in E0. destruct E0 as [i ->].
  now exists d, i, a1, a2.
Qed.

Lemma mermaid_relationship_inv (acc : list pystr) (r : json)
    (acc' : list pystr) :
  mermaid_relationship acc r = Ok acc' -> renderable_relationship r.
Proof.
  unfold mermaid_relationship. intros H.
  inv_bind H. inv_bind H. inv_bind H. inv_bind H. inv_bind H.
  apply getitem_ok in E, E1, E3.
  destruct E as [d [-> Hs]], E1 as [d1 [E1 Ht]], E3 as [d2 [E3 Hty]].
  injection E1 as <-. injection E3 as <-.
  apply sanitized_ok in E0, E2. destruct E0 as [s ->], E2 as [t ->].
  now exists d, s, t, a3.
Qed.

Lemma mermaid_entity_raise (acc : list pystr) (e : json) (x : exn) :
  spec_entity e -> mermaid_entity acc e = Raise x -> x = AttributeError.
Proof.
  intros [[d [i [-> Hi]]] [[d1 [t [E1 [Ht _]]]] [d2 [n [E2 Hn]]]]].
  injection E1 as <-. injection E2 as <-.
  intros H. unfold mermaid_entity in H. cbn [getitem] in H.
  rewrite Hi, Hn, Ht in H. cbn [rbind] in H.
  destruct (sanitized i) eqn:Es; cbn [rbind] in H; [discriminate|].
  injection H as <-. now apply sanitized_raise in Es.
Qed.

Lemma mermaid_relationship_raise (acc : list pystr) (r : json) (x : exn) :
  spec_relationship r ->
  mermaid_relationship acc r = Raise x -> x = AttributeError.
Proof.
  intros [[d [s [-> Hs]]] [[d' [t [E Ht]]] [d'' [ty [E' Hty]]]]].
  injection E as <-. injection E' as <-.
  intros H. unfold mermaid_relationship in H. cbn [getitem] in H.
  rewrite Hs, Ht, Hty in H. cbn [rbind] in H.
  destruct (sanitized s) eqn:Es; cbn [rbind] in H;
    [|injection H as <-; now apply sanitized_raise in Es].
  destruct (sanitized t) eqn:Et; cbn [rbind] in H;
    [discriminate|injection H as <-; now apply sanitized_raise in Et].
Qed.

Lemma mermaid_content_inv (d : dict) (es rs : list json) (text : pystr) :
  lookup ENTITIES d = Some (JList es) ->
  lookup RELATIONSHIPS d = Some (JList rs) ->
  mermaid_full_content (JDict d) = Ok text ->
  Forall renderable_entity es /\ Forall renderable_relationship rs.
Proof.
  intros He Hr H. unfold mermaid_full_content in H. inv_bind H. clear H.
  unfold mermaid_lines in E. cbn [getitem] in E. rewrite He, Hr in E.
  cbn [rbind py_iter] in E. inv_bind E. split.
  - eapply for_each_Forall; [|exact E0].
    intros s x s'. apply mermaid_entity_inv.
  - eapply for_each_Forall; [|exact E].
    intros s x s'. apply mermaid_relationship_inv.
Qed.

Lemma mermaid_content_raise (g : json) (x : exn) :
  spec_valid g -> mermaid_full_content g = Raise x -> x = AttributeError.
Proof.
  intros [d [es [rs [-> [He [Hr [Ves Vrs]]]]]]] H.
  unfold mermaid_full_content, mermaid_lines in H. cbn [getitem] in H.
  rewrite He, Hr in H. cbn [rbind py_iter py_len] in H.
  destruct (for_each mermaid_entity es [GRAPH_TD]) eqn:E1; cbn [rbind] in H.
  - destruct (for_each mermaid_relationship rs a) eqn:E2; cbn [rbind] in H;
      [discriminate|]. injection H as <-.
    eapply (@for_each_raise _ _ mermaid_relationship spec_relationship
              (fun e => e = AttributeError)); [|exact Vrs|exact E2].
    intros s r e'. apply mermaid_relationship_raise.
  - injection H as <-.
    eapply (@for_each_raise _ _ mermaid_entity spec_entity
              (fun e => e = AttributeError)); [|exact Ves|exact E1].
    intros s r e'. apply mermaid_entity_raise.
Qed.
End MermaidOutcomes.

(** X11. The chart is produced exactly for the graphs the renderer can
    read: every entity has a string id, a name and a type, every
    relationship has string endpoints and a type. A graph that passes the
    schema check can still fail here, and then only with [AttributeError]
    (an id or an endpoint that is no string) or, when writing the file, with
    [UnicodeEncodeError]. The file that is written decodes to the text of
    the chart. *)
Theorem mermaid_chart_outcomes :
  forall (R : PyRuntime) (d : dict) (es rs : list json),
    lookup ENTITIES d = Some (JList es) ->
    lookup RELATIONSHIPS d = Some (JList rs) ->
    ((exists text, mermaid_full_content (JDict d) = Ok text) <->
     Forall renderable_entity es /\ Forall renderable_relationship rs) /\
    (spec_valid (JDict d) ->
     forall e, generate_mermaid_chart (JDict d) = Raise e ->
               e = AttributeError \/ e = UnicodeEncodeError) /\
    (forall file,
        generate_mermaid_chart (JDict d) = Ok file ->
        exists text,
          mermaid_full_content (JDict d) = Ok text /\
          utf8_decode file = Ok text /\
          read_text file = Ok (universal_newlines text)).
Proof.
  intros R d es rs He Hr. split; [split|split].
  - intros [text H]. exact (mermaid_content_inv _ He Hr H).
  - intros [Hes Hrs].
    destruct (mermaid_chart_ok d He Hr Hes Hrs) as [text [H _]]. eauto.
  - intros Hv e H. unfold generate_mermaid_chart in H.
    destruct (mermaid_full_content (JDict d)) eqn:E; cbn [rbind] in H.
    + right. now apply utf8_encode_raise in H.
    + left. injection H as <-. exact (mermaid_content_raise Hv E).
  - intros file H. unfold generate_mermaid_chart in H. inv_bind H.
    exists a. split; [reflexivity|].
    split; [now apply write_text_decodes|now apply write_read_text].
Qed.

Lemma mermaid_chart_outcomes_witness :
  (exists text, @mermaid_full_content example_runtime two_companies = Ok text)
  /\
  (forall file,
      @generate_mermaid_chart example_runtime two_companies = Ok file ->
      exists text,
        @mermaid_full_content example_runtime two_companies = Ok text /\
        utf8_decode file = Ok text /\
        read_text file = Ok (universal_newlines text)).
Proof.
  destruct renderable_two_companies as [Hes Hrs].
  destruct (@mermaid_chart_outcomes example_runtime
              (graph_dict [entity "c1" "Company" "Reliance Retail" JNull;
                           entity "c2" "Company" "Hamleys" JNull]
                          [relationship "c1" "c2" "OWNS"])
              _ _ eq_refl eq_refl) as [Hiff [_ Hfile]].
  split; [apply Hiff; now split|exact Hfile].
Defined.

(** ** The diagram of a graph with string ids and names *)

Lemma key_eq_str (i : pystr) (k : json) :
  key_eq (JStr i) k = true -> k = JStr i.
Proof.
  destruct k; cbn; try discriminate.
  intros H. apply streq_eq in H. now subst.
Qed.

Lemma In_kset_str {V} (i : pystr) (v : V) (k : json) (a : V)
    (m : list (json * V)) :
  In (k, a) (kset (JStr i) v m) -> In (k, a) m \/ (k = JStr i /\ a = v).
Proof.
  induction m as [|[k' v'] m IH]; cbn [kset].
  - intros [H|[]]. injection H as <- <-. now right.
  - destruct (key_eq (JStr i) k') eqn:E.
    + intros [H|H].
      * injection H as <- <-. right. split; [now apply key_eq_str|easy].
      * left. now right.
    + intros [H|H]; [left; now left|].
      destruct (IH H) as [H'|H']; [left; now right|now right].
Qed.

Lemma keys_kset {V} (k' : json) (v : V) (m : list (json * V)) (k : json) :
  In k (map fst m) -> In k (map fst (kset k' v m)).
Proof.
  induction m as [|[k'' v''] m IH]; [intros []|]. cbn [kset].
  destruct (key_eq k' k''); cbn [map fst In]; [easy|].
  intros [H|H]; [now left|right; now apply IH].
Qed.

Lemma key_kset_str {V} (i : pystr) (v : V) (m : list (json * V)) :
  In (JStr i) (map fst (kset (JStr i) v m)).
Proof.
  induction m as [|[k'' v''] m IH]; [now left|]. cbn [kset].
  destruct (key_eq (JStr i) k'') eqn:E; cbn [map fst In].
  - left. now apply key_eq_str.
  - now right.
Qed.

Lemma length_kset {V} (k : json) (v : V) (m : list (json * V)) :
  length (kset k v m) <= S (length m).
Proof.
  induction m as [|[k' v'] m IH]; [cbn; lia|]. cbn [kset].
  destruct (key_eq k k'); cbn [length]; lia.
Qed.

Lemma In_eset_str (s t : pystr) (lbl u v l : json)
    (m : list ((json * json) * json)) :
  In ((u, v), l) (eset (JStr s, JStr t) lbl m) ->
  In ((u, v), l) m \/ (u = JStr s /\ v = JStr t /\ l = lbl).
Proof.
  induction m as [|[[u' v'] l'] m IH]; cbn [eset].
  - intros [H|[]]. injection H as <- <- <-. now right.
  - destruct (edge_key_eq (JStr s, JStr t) (u', v')) eqn:E.
    + intros [H|H].
      * injection H as <- <- <-. right.
        unfold edge_key_eq in E. cbn [fst snd] in E.
        apply andb_prop in E. destruct E as [E1 E2].
        now rewrite (key_eq_str _ _ E1), (key_eq_str _ _ E2).
      * left. now right.
    + intros [H|H]; [left; now left|].
      destruct (IH H) as [H'|H']; [left; now right|now right].
Qed.

Section DiagramDrawn.
Context {R : PyRuntime}.

Lemma visualize_entity_ok (m : list (json * json)) (G : digraph)
    (d : dict) (i n : pystr) (t : json) :
  lookup (str "id") d = Some (JStr i) ->
  lookup (str "name") d = Some (JStr n) ->
  lookup (str "type") d = Some t ->
  exists lbl,
    visualize_entity (m, G) (JDict d) =
    Ok (kset (JStr i) (JDict d) m,
        {| nodes := kset (JStr i)
                      {| n_label := lbl; n_type := t; n_name := JStr n |}
                      (nodes G);
           edges := edges G |}).
Proof.
  intros Hi Hn Ht. unfold visualize_entity.
  cbn [getitem py_get]. rewrite Hi, Hn, Ht. cbn [rbind hashable].
  destruct (truthy _); cbn [iadd_str rbind add_node]; eauto.
Qed.

Lemma visualize_entities_ok (es : list json) :
  Forall drawable_entity es ->
  forall (m : list (json * json)) (G : digraph),
  exists m' G',
    for_each visualize_entity es (m, G) = Ok (m', G') /\
    length (nodes G') <= length (nodes G) + length es /\
    (forall k, In k (map fst (nodes G)) -> In k (map fst (nodes G'))) /\
    (forall e, In e es -> In (field (str "id") e) (map fst (nodes G'))) /\
    (forall k a,
        In (k, a) (nodes G') ->
        In (k, a) (nodes G) \/
        exists e n,
          In e es /\ field (str "id") e = k /\
          field (str "name") e = JStr n /\ n_name a = JStr n /\
          n_type a = field (str "type") e).
Proof.
  induction 1 as [|e es He _ IH]; intros m G.
  - exists m, G. cbn. repeat split; auto; [lia|intros e []].
  - destruct He as [d [i [n [t [-> [Hi [Hn Ht]]]]]]].
    destruct (visualize_entity_ok m G d Hi Hn Ht) as [lbl Hv].
    set (G1 := {| nodes := kset (JStr i)
                             {| n_label := lbl; n_type := t;
                                n_name := JStr n |} (nodes G);
                  edges := edges G |}) in *.
    destruct (IH (kset (JStr i) (JDict d) m) G1)
      as [m' [G' [Hf [Hlen [Hkeep [Hall Hin]]]]]].
    exists m', G'. cbn [for_each]. rewrite Hv. cbn [rbind].
    split; [exact Hf|]. split; [|split; [|split]].
    + pose proof (length_kset (JStr i)
                    {| n_label := lbl; n_type := t; n_name := JStr n |}
                    (nodes G)) as Hk.
      cbn [nodes G1] in Hlen. cbn [length]. lia.
    + intros k Hk. apply Hkeep. cbn [nodes G1]. now apply keys_kset.
    + intros e [<-|He].
      * apply Hkeep. cbn [nodes G1]. unfold field. rewrite Hi.
        apply key_kset_str.
      * now apply Hall.
    + intros k a Hka. destruct (Hin k a Hka) as [H|[e [n' [He H]]]].
      * cbn [nodes G1] in H. apply In_kset_str in H.
        destruct H as [H|[-> ->]]; [now left|].
        right. exists (JDict d), n. unfold field. rewrite Hi, Hn, Ht.
        cbn. repeat split; auto.
      * right. exists e, n'. split; [now right|exact H].
Qed.

Lemma visualize_relationship_ok (m : list (json * json)) (G : digraph)
    (r : json) :
  renderable_relationship r ->
  exists G',
    visualize_relationship m G r = Ok G' /\
    nodes G' = nodes G /\
    forall u v l,
      In ((u, v), l) (edges G') ->
      In ((u, v), l) (edges G) \/
      (field (str "source") r = u /\ field (str "target") r = v /\
       field (str "type") r = l).
Proof.
  intros [d [s [t [ty [-> [Hs [Ht Hty]]]]]]].
  unfold visualize_relationship, field. cbn [getitem].
  rewrite Hs, Ht, Hty. cbn [rbind member hashable].
  destruct (kmem (JStr s) m); cbn [rbind andb];
    [destruct (kmem (JStr t) m); cbn [rbind andb]|].
  - eexists. split; [reflexivity|]. split; [reflexivity|].
    intros u v l H. cbn [add_edge edges] in H. apply In_eset_str in H.
    destruct H as [H|[-> [-> ->]]]; [now left|now right].
  - exists G. auto.
  - exists G. auto.
Qed.

Lemma visualize_relationships_ok (m : list (json * json))
    (rs : list json) :
  Forall renderable_relationship rs ->
  forall G,
  exists G',
    for_each (visualize_relationship m) rs G = Ok G' /\
    nodes G' = nodes G /\
    forall u v l,
      In ((u, v), l) (edges G') ->
      In ((u, v), l) (edges G) \/
      exists r,
        In r rs /\ field (str "source") r = u /\
        field (str "target") r = v /\ field (str "type") r = l.
Proof.
  induction 1 as [|r rs Hr _ IH]; intros G.
  - exists G. cbn. auto.
  - destruct (visualize_relationship_ok m G Hr) as [G1 [Hv [Hn Hin]]].
    destruct (IH G1) as [G' [Hf [Hn' Hin']]].
    exists G'. cbn [for_each]. rewrite Hv. cbn [rbind].
    split; [exact Hf|]. split; [congruence|].
    intros u v l H. destruct (Hin' u v l H) as [H1|[r' [Hr' H1]]].
    + destruct (Hin u v l H1) as [H2|H2]; [now left|].
      right. exists r. split; [now left|exact H2].
    + right. exists r'. split; [now right|exact H1].
Qed.

Lemma node_labels_ok (ns : list (json * node_attrs)) :
  (forall k a, In (k, a) ns -> exists n, n_name a = JStr n) ->
  exists ls,
    node_labels ns = Ok ls /\
    map fst ls = map fst ns /\
    forall k l,
      In (k, l) ls ->
      exists a n, In (k, a) ns /\ n_name a = JStr n /\
                  l = JStr (firstn 20 n).
Proof.
  induction ns as [|[k a] ns IH]; intros H.
  - exists []. cbn. repeat split; auto. intros k l [].
  - destruct (H k a (or_introl eq_refl)) as [n Hn].
    destruct IH as [ls [Hl [Hk Hin]]];
      [intros k' a' H'; apply (H k' a'); now right|].
    exists ((k, JStr (firstn 20 n)) :: ls). cbn [node_labels].
    rewrite Hn, Hl. cbn [first20 rbind map fst].
    split; [reflexivity|]. split; [now rewrite Hk|].
    intros k' l [E|E].
    + injection E as <- <-. exists a, n. repeat split; auto. now left.
    + destruct (Hin k' l E) as [a' [n' [H1 H2]]].
      exists a', n'. split; [now right|exact H2].
Qed.

Lemma color_of_COLORS (t : json) : In (color_of t) COLORS.
Proof.
  unfold color_of, COLORS.
  destruct (is_str (str "Company") t); [now left|].
  destruct (is_str (str "RiskFactor") t); [right; now left|].
  destruct (is_str (str "Amount") t); [right; right; now left|].
  right; right; right; now left.
Qed.

Lemma visualize_graph_ok (d : dict) (es rs : list json) :
  lookup ENTITIES d = Some (JList es) ->
  lookup RELATIONSHIPS d = Some (JList rs) ->
  Forall drawable_entity es ->
  Forall renderable_relationship rs ->
  exists D,
    visualize_graph (JDict d) = Ok D /\
    length (node_colors D) = length (labels D) /\
    length (labels D) <= length es /\
    Forall (fun c => In c COLORS) (node_colors D) /\
    (forall e, In e es -> In (field (str "id") e) (map fst (labels D))) /\
    (forall k l,
        In (k, l) (labels D) ->
        exists e n,
          In e es /\ field (str "id") e = k /\
          field (str "name") e = JStr n /\ l = JStr (firstn 20 n)) /\
    (forall u v l,
        In ((u, v), l) (edge_labels D) ->
        is_entity_id es u = true /\ is_entity_id es v = true /\
        exists r,
          In r rs /\ field (str "source") r = u /\
          field (str "target") r = v /\ field (str "type") r = l).
Proof.
  intros He Hr Hes Hrs.
  destruct (visualize_entities_ok Hes [] {| nodes := []; edges := [] |})
    as [m [G1 [Hf1 [Hlen [_ [Hall Hin]]]]]].
  destruct (@visualize_entities_inv _ es _ _ _ _ Hf1) as [_ Hedges].
  destruct (visualize_relationships_ok m Hrs G1) as [G [Hf2 [Hn Hin2]]].
  assert (Hb : build_graph (JDict d) = Ok G).
  { unfold build_graph. cbn [getitem]. rewrite He, Hr.
    cbn [rbind py_iter]. rewrite Hf1. cbn [rbind]. exact Hf2. }
  assert (Hnames : forall k a, In (k, a) (nodes G) ->
                               exists n, n_name a = JStr n).
  { intros k a H. rewrite Hn in H.
    destruct (Hin k a H) as [[]|[e [n [_ [_ [_ [H' _]]]]]]]. eauto. }
  destruct (node_labels_ok _ Hnames) as [ls [Hl [Hk Hls]]].
  eexists. unfold visualize_graph. rewrite Hb. cbn [rbind].
  rewrite Hl. cbn [rbind]. split; [reflexivity|].
  cbn [node_colors labels edge_labels].
  assert (Hlen' : length ls = length (nodes G)).
  { rewrite <- (length_map fst ls), Hk. apply length_map. }
  split; [now rewrite length_map|].
  split; [rewrite Hlen', Hn; cbn in Hlen; lia|].
  split; [apply Forall_forall; intros c Hc; apply in_map_iff in Hc;
          destruct Hc as [x [<- _]]; apply color_of_COLORS|].
  split; [intros e Hin'; rewrite Hk, Hn; now apply Hall|].
  split.
  - intros k l H. destruct (Hls k l H) as [a [n [Ha [Hna ->]]]].
    rewrite Hn in Ha.
    destruct (Hin k a Ha) as [[]|[e [n' [He' [Hid [Hnm [Hna' _]]]]]]].
    exists e, n'. repeat split; auto. congruence.
  - intros u v l H. apply In_edges_in_order in H.
    destruct (@build_graph_edges _ d es G He Hb u v l H) as [Hu Hv].
    split; [exact Hu|]. split; [exact Hv|].
    destruct (Hin2 u v l H) as [H'|H']; [|exact H'].
    rewrite Hedges in H'. destruct H'.
Qed.
End DiagramDrawn.

Lemma drawable_two_companies :
  Forall drawable_entity
    [entity "c1" "Company" "Reliance Retail" JNull;
     entity "c2" "Company" "Hamleys" JNull].
Proof.
  repeat constructor; unfold entity; do 4 eexists; repeat split; reflexivity.
Qed.



(** ** The chart of a graph of strings can be written *)

Lemma no_surrogate_str (s : string) : no_surrogate (str s).
Proof.
  induction s as [|a s IH]; [constructor|].
  change (str (String a s)) with (N_of_ascii a :: str s).
  constructor; [|exact IH].
  pose proof (N_ascii_bounded a) as Hb. unfold encodable.
  now N_decide.
Qed.

Lemma no_surrogate_app (a b : pystr) :
  no_surrogate a -> no_surrogate b -> no_surrogate (a ++ b).
Proof. intros Ha Hb. apply Forall_app. now split. Qed.

Lemma no_surrogate_join (sep : pystr) (xs : list pystr) :
  no_surrogate sep -> Forall no_surrogate xs -> no_surrogate (join sep xs).
Proof.
  intros Hsep. induction 1 as [|x xs Hx Hxs IH]; [constructor|].
  rewrite join_cons. apply no_surrogate_app; [exact Hx|].
  destruct xs; [constructor|]. now apply no_surrogate_app.
Qed.

Lemma no_surrogate_sanitize (s : pystr) :
  no_surrogate s -> no_surrogate (sanitize s).
Proof.
  unfold sanitize, replace_char, no_surrogate. intros H.
  rewrite map_map. apply Forall_map.
  apply (Forall_impl _ (P := fun c => encodable c = true)); [|exact H].
  intros c Hc. destruct (c =? 32)%N.
  - reflexivity.
  - now destruct (c =? 45)%N.
Qed.

Lemma no_surrogate_nat (n : nat) : no_surrogate (str_of_nat n).
Proof.
  unfold str_of_nat.
  apply (Forall_impl _ (P := fun c => text_char c = true));
    [|apply text_char_uint].
  intros c Hc. unfold text_char in Hc. now apply andb_prop in Hc.
Qed.

Lemma lookup_In (k : pystr) (d : dict) (v : json) :
  lookup k d = Some v -> exists k', In (k', v) d.
Proof.
  induction d as [|[k' v'] d IH]; [discriminate|]. cbn [lookup].
  destruct (streq k k').
  - intros [= ->]. exists k'. now left.
  - intros H. destruct (IH H) as [k'' Hk]. exists k''. now right.
Qed.

Lemma all_strings_lookup (P : pystr -> Prop) (d : dict) (k : pystr)
    (v : json) :
  all_strings P (JDict d) -> lookup k d = Some v -> all_strings P v.
Proof.
  intros Ha Hl. apply all_strings_dict in Ha.
  destruct (lookup_In _ _ Hl) as [k' Hin].
  rewrite Forall_forall in Ha. exact (proj2 (Ha _ Hin)).
Qed.

Lemma no_surrogate_style (t : json) : no_surrogate (style_of t).
Proof.
  unfold style_of.
  destruct (is_str (str "Company") t); [apply no_surrogate_str|].
  destruct (is_str (str "RiskFactor") t); [apply no_surrogate_str|].
  destruct (is_str (str "Amount") t); apply no_surrogate_str.
Qed.

Section ChartWritten.
Context {R : PyRuntime}.

Lemma no_surrogate_entity_lines (e : json) :
  drawable_entity e -> all_strings no_surrogate e ->
  no_surrogate (node_declaration e) /\ no_surrogate (style_declaration e).
Proof.
  intros [d [i [n [t [-> [Hi [Hn Ht]]]]]]] Ha.
  pose proof (@all_strings_lookup _ _ _ _ Ha Hi) as Si.
  pose proof (@all_strings_lookup _ _ _ _ Ha Hn) as Sn.
  cbn [all_strings] in Si, Sn.
  unfold node_declaration, style_declaration, node_line, style_line, field.
  rewrite Hi, Hn, Ht. cbn [text_of]. rewrite py_format_str.
  split; repeat apply no_surrogate_app;
    try apply no_surrogate_str; try apply no_surrogate_style;
    try (now apply no_surrogate_sanitize); try exact Sn;
    repeat constructor.
Qed.

Lemma no_surrogate_edge_line (r : json) :
  string_relationship r -> all_strings no_surrogate r ->
  no_surrogate (edge_declaration r).
Proof.
  intros [d [s [t [ty [-> [Hs [Ht Hty]]]]]]] Ha.
  pose proof (@all_strings_lookup _ _ _ _ Ha Hs) as Ss.
  pose proof (@all_strings_lookup _ _ _ _ Ha Ht) as St.
  pose proof (@all_strings_lookup _ _ _ _ Ha Hty) as Sty.
  cbn [all_strings] in Ss, St, Sty.
  unfold edge_declaration, edge_line, field.
  rewrite Hs, Ht, Hty. cbn [text_of]. rewrite py_format_str.
  repeat apply no_surrogate_app;
    try apply no_surrogate_str;
    try (now apply no_surrogate_sanitize); exact Sty.
Qed.

Lemma string_relationship_renderable (r : json) :
  string_relationship r -> renderable_relationship r.
Proof.
  intros [d [s [t [ty [-> [Hs [Ht Hty]]]]]]]. now exists d, s, t, (JStr ty).
Qed.

Lemma drawable_entity_renderable (e : json) :
  drawable_entity e -> renderable_entity e.
Proof.
  intros [d [i [n [t [-> [Hi [Hn Ht]]]]]]]. now exists d, i, (JStr n), t.
Qed.

Lemma generate_mermaid_chart_ok (d : dict) (es rs : list json) :
  lookup ENTITIES d = Some (JList es) ->
  lookup RELATIONSHIPS d = Some (JList rs) ->
  Forall drawable_entity es ->
  Forall string_relationship rs ->
  all_strings no_surrogate (JDict d) ->
  exists file, generate_mermaid_chart (JDict d) = Ok file.
Proof.
  intros He Hr Hes Hrs Ha.
  pose proof (@all_strings_lookup _ _ _ _ Ha He) as Aes.
  pose proof (@all_strings_lookup _ _ _ _ Ha Hr) as Ars.
  apply all_strings_list in Aes, Ars.
  assert (Hes' : Forall renderable_entity es)
    by (apply (Forall_impl _ drawable_entity_renderable Hes)).
  assert (Hrs' : Forall renderable_relationship rs)
    by (apply (Forall_impl _ string_relationship_renderable Hrs)).
  unfold generate_mermaid_chart, mermaid_full_content.
  rewrite (mermaid_lines_ok d He Hr Hes' Hrs'). cbn [rbind getitem].
  rewrite He, Hr. cbn [rbind py_len].
  match goal with
  | |- exists file, write_text ?t = Ok file =>
      assert (Ht : no_surrogate t)
  end.
  { cbn [concat].
    repeat (apply no_surrogate_app;
            [first [apply no_surrogate_str | apply no_surrogate_nat
                   | repeat constructor | idtac]|]);
      [|constructor].
    apply no_surrogate_join; [repeat constructor|].
    unfold chart_lines. constructor; [apply no_surrogate_str|].
    apply Forall_app. split.
    - apply Forall_flat_map. rewrite Forall_forall in *.
      intros e Hin.
      destruct (no_surrogate_entity_lines (Hes e Hin) (Aes e Hin))
        as [H1 H2].
      constructor; [exact H1|constructor; [exact H2|constructor]].
    - apply Forall_map. rewrite Forall_forall in *.
      intros r Hin. exact (no_surrogate_edge_line (Hrs r Hin) (Ars r Hin)). }
  destruct (utf8_roundtrip Ht) as [file [Hw _]]. now exists file.
Qed.
End ChartWritten.

(** ** What the parser returns has no repeated key *)

Lemma keys_dict_set (k : pystr) (v : json) (d : dict) (x : pystr) :
  In x (map fst (dict_set k v d)) -> x = k \/ In x (map fst d).
Proof.
  induction d as [|[k' v'] d IH]; cbn [dict_set].
  - intros [<-|[]]. now left.
  - destruct (streq k k'); cbn [map fst In]; [now right|].
    intros [H|H]; [right; now left|].
    destruct (IH H); [now left|right; now right].
Qed.

Lemma NoDup_dict_set (k : pystr) (v : json) (d : dict) :
  NoDup (map fst d) -> NoDup (map fst (dict_set k v d)).
Proof.
  induction d as [|[k' v'] d IH]; intros H; cbn [dict_set].
  - repeat constructor. intros [].
  - destruct (streq k k') eqn:E; [exact H|].
    cbn [map fst] in *. inversion H as [|? ? Hn Hd]; subst.
    constructor; [|now apply IH].
    intros Hin. apply keys_dict_set in Hin. destruct Hin as [->|Hin].
    + now rewrite streq_refl in E.
    + contradiction.
Qed.

Lemma Forall_dict_set (P : pystr * json -> Prop) (k : pystr) (v : json)
    (d : dict) :
  (forall k', P (k', v)) -> Forall P d -> Forall P (dict_set k v d).
Proof.
  intros Hv. induction 1 as [|[k' v'] d Hx Hd IH]; cbn [dict_set].
  - repeat constructor. apply Hv.
  - destruct (streq k k'); constructor; auto.
Qed.

Lemma unique_keys_dict_of_pairs (pairs : list (pystr * json)) :
  Forall (fun kv => unique_keys (snd kv)) pairs ->
  unique_keys (JDict (dict_of_pairs pairs)).
Proof.
  unfold dict_of_pairs.
  assert (H : forall acc : dict,
             unique_keys (JDict acc) ->
             Forall (fun kv => unique_keys (snd kv)) pairs ->
             unique_keys
               (JDict (fold_left (fun d kv => dict_set (fst kv) (snd kv) d)
                                 pairs acc))).
  { induction pairs as [|[k v] pairs IH]; intros acc Ha Hp; [exact Ha|].
    inversion Hp as [|? ? Hv Hp']; subst. cbn [fold_left fst snd].
    apply IH; [|exact Hp'].
    apply unique_keys_dict in Ha. destruct Ha as [Hn Hf].
    apply unique_keys_dict. split; [now apply NoDup_dict_set|].
    now apply Forall_dict_set. }
  intros Hp. apply H; [|exact Hp].
  apply unique_keys_dict. split; constructor.
Qed.

Section DecoderUnique.
Variable scan : pystr -> result (json * pystr).
Hypothesis scan_unique :
  forall s p, scan s = Ok p -> unique_keys (fst p).

Lemma array_loop_unique (n : nat) :
  forall s values p,
    array_loop scan n s values = Ok p ->
    Forall unique_keys values -> Forall unique_keys (fst p).
Proof.
  induction n as [|n IH]; intros s values p H Hv; [discriminate|].
  cbn [array_loop] in H. inv_bind H.
  assert (Hv' : Forall unique_keys (values ++ [fst a])).
  { apply Forall_app. split; [exact Hv|].
    constructor; [eapply scan_unique; eassumption|constructor]. }
  destruct (skip_ws (snd a)) as [|c r]; [discriminate|].
  destruct (c =? 93)%N; [now injection H as <-|].
  destruct (negb (c =? 44)%N); [discriminate|].
  eapply IH; [exact H|exact Hv'].
Qed.

Lemma JSONArray_unique (n : nat) (s : pystr) (p : list json * pystr) :
  JSONArray scan n s = Ok p -> unique_keys (JList (fst p)).
Proof.
  unfold JSONArray. intros H. apply unique_keys_list.
  destruct (skip_ws s) as [|c r].
  - eapply array_loop_unique; [exact H|constructor].
  - destruct (c =? 93)%N.
    + injection H as <-. constructor.
    + eapply array_loop_unique; [exact H|constructor].
Qed.

Lemma object_loop_unique (n : nat) :
  forall s pairs p,
    object_loop scan n s pairs = Ok p ->
    Forall (fun kv => unique_keys (snd kv)) pairs ->
    Forall (fun kv => unique_keys (snd kv)) (fst p).
Proof.
  induction n as [|n IH]; intros s pairs p H Hv; [discriminate|].
  cbn [object_loop] in H. inv_bind H.
  destruct (skip_ws (snd a)) as [|colon r]; [discriminate|].
  destruct (negb (colon =? 58)%N); [discriminate|].
  inv_bind H.
  assert (Hv' : Forall (fun kv => unique_keys (snd kv))
                       (pairs ++ [(fst a, fst a0)])).
  { apply Forall_app. split; [exact Hv|].
    constructor; [eapply scan_unique; eassumption|constructor]. }
  destruct (skip_ws (snd a0)) as [|c r']; [discriminate|].
  destruct (c =? 125)%N; [now injection H as <-|].
  destruct (negb (c =? 44)%N); [discriminate|].
  destruct (skip_ws r') as [|q r'']; [discriminate|].
  destruct (q =? 34)%N; [|discriminate].
  eapply IH; [exact H|exact Hv'].
Qed.

Lemma JSONObject_unique (n : nat) (s : pystr) (p : dict * pystr) :
  JSONObject scan n s = Ok p -> unique_keys (JDict (fst p)).
Proof.
  unfold JSONObject. intros H.
  destruct (skip_ws s) as [|c r]; [discriminate|].
  destruct (c =? 125)%N.
  - injection H as <-. apply unique_keys_dict. split; constructor.
  - destruct (c =? 34)%N; [|discriminate]. inv_bind H.
    injection H as <-. cbn [fst].
    apply unique_keys_dict_of_pairs.
    eapply object_loop_unique; [exact E|constructor].
Qed.
End DecoderUnique.

Lemma scan_once_unique (fuel : nat) :
  forall s p, scan_once fuel s = Ok p -> unique_keys (fst p).
Proof.
  induction fuel as [|fuel IH]; intros s p H; [discriminate|].
  cbn [scan_once] in H. destruct s as [|c r]; [discriminate|].
  destruct (c =? 34)%N.
  { inv_bind H. injection H as <-. exact I. }
  destruct (c =? 123)%N.
  { inv_bind H. injection H as <-. cbn [fst].
    eapply JSONObject_unique; [exact IH|exact E]. }
  destruct (c =? 91)%N.
  { inv_bind H. injection H as <-. cbn [fst].
    eapply JSONArray_unique; [exact IH|exact E]. }
  destruct (startswith (str "null") (c :: r)); [now injection H as <-|].
  destruct (startswith (str "true") (c :: r)); [now injection H as <-|].
  destruct (startswith (str "false") (c :: r)); [now injection H as <-|].
  destruct (match_number (c :: r)) as [[[i rest] [|]]|];
    try discriminate; [now injection H as <-|].
  destruct (_ || _); discriminate.
Qed.

Lemma json_loads_unique (s : pystr) (v : json) :
  json_loads s = Ok v -> unique_keys v.
Proof.
  unfold json_loads. destruct (startswith _ s); [discriminate|].
  intros H. inv_bind H.
  destruct (skip_ws (snd a)); [|discriminate]. injection H as <-.
  eapply scan_once_unique; exact E.
Qed.

Lemma unique_keys_dict_set (k : pystr) (v : json) (d : dict) :
  unique_keys (JDict d) -> unique_keys v ->
  unique_keys (JDict (dict_set k v d)).
Proof.
  intros Hd Hv. apply unique_keys_dict in Hd. destruct Hd as [Hn Hf].
  apply unique_keys_dict. split; [now apply NoDup_dict_set|].
  now apply Forall_dict_set.
Qed.

Lemma unique_keys_defaults (d : dict) :
  unique_keys (JDict d) -> unique_keys (JDict (d ++ missing_defaults d)).
Proof.
  intros Hd.
  assert (Hl : unique_keys (JList [])) by exact I.
  unfold missing_defaults.
  destruct (has_key ENTITIES d) eqn:He, (has_key RELATIONSHIPS d) eqn:Hr;
    cbn [app].
  - now rewrite app_nil_r.
  - rewrite <- (dict_set_absent _ (JList []) _ Hr).
    now apply unique_keys_dict_set.
  - rewrite <- (dict_set_absent _ (JList []) _ He).
    now apply unique_keys_dict_set.
  - change (d ++ [(ENTITIES, JList []); (RELATIONSHIPS, JList [])])
      with (d ++ [(ENTITIES, JList [])] ++ [(RELATIONSHIPS, JList [])]).
    rewrite app_assoc, <- (dict_set_absent _ (JList []) _ He).
    rewrite <- (dict_set_absent RELATIONSHIPS (JList [])).
    + now repeat apply unique_keys_dict_set.
    + rewrite (dict_set_absent _ (JList []) _ He), has_key_app, Hr.
      reflexivity.
Qed.

Lemma extract_parsed_unique (g g' : json) :
  unique_keys g -> extract_parsed g = Ok g' -> unique_keys g'.
Proof.
  intros Hu H. destruct g as [| | | | |d];
    try (rewrite extract_parsed_not_dict in H by reflexivity; discriminate).
  rewrite extract_parsed_dict in H. inv_bind H. injection H as <-.
  now apply unique_keys_defaults.
Qed.

Lemma extract_unique (self : detective) (srv : service)
    (input_file : list N) (evs : list event) (g : json) :
  extract_knowledge_graph self srv input_file = (evs, Ok g) ->
  unique_keys g.
Proof.
  unfold extract_knowledge_graph.
  destruct (read_text input_file) as [text|]; [|discriminate].
  destruct (_call_llm self srv _) as [evs' [[content|]|e]];
    try discriminate.
  intros H. injection H as _ H. inv_bind H.
  apply json_loads_unique in E. exact (@extract_parsed_unique _ _ E H).
Qed.

(** A graph with no repeated key and no lone surrogate is saved and read
    back as it was. *)
Lemma save_load_roundtrip (g : json) :
  unique_keys g -> all_strings no_surrogate g ->
  exists file, save_graph_json g = Ok file /\ load_graph_json file = Ok g.
Proof.
  intros Hu Hs.
  pose proof (text_char_iterencode g Hs 0) as Ht.
  destruct (utf8_roundtrip (no_surrogate_text Ht)) as [file [Hw Hr]].
  exists file. split; [exact Hw|].
  unfold load_graph_json, read_text. rewrite Hr. cbn [rbind].
  rewrite (universal_newlines_id Ht). now apply json_loads_dump.
Qed.



(** ** The command line *)

Lemma save_ok_load (g : json) (jf : list N) :
  unique_keys g -> save_graph_json g = Ok jf -> load_graph_json jf = Ok g.
Proof.
  intros Hu Hs.
  assert (Ha : all_strings no_surrogate g).
  { unfold save_graph_json in Hs. apply utf8_encode_ok in Hs.
    now apply encodable_iterencode_inv in Hs. }
  destruct (save_load_roundtrip g Hu Ha) as [file [Hw Hl]]. congruence.
Qed.

Lemma extract_events (self : detective) (srv : service)
    (input_file : list N) :
  fst (extract_knowledge_graph self srv input_file) = [] \/
  exists prompt,
    fst (extract_knowledge_graph self srv input_file) =
    fst (_call_llm self srv prompt).
Proof.
  unfold extract_knowledge_graph.
  destruct (read_text input_file) as [text|]; [|now left].
  right. exists (_build_extraction_prompt text).
  now destruct (_call_llm self srv _) as [evs [[content|]|e]].
Qed.

Section CommandLine.
Context {R : PyRuntime}.
Variable environ : pystr -> option pystr.
Variable srv : service.

Lemma main_outputs_ok (args : cli) (d : dict) (es rs : list json) :
  lookup ENTITIES d = Some (JList es) ->
  lookup RELATIONSHIPS d = Some (JList rs) ->
  Forall drawable_entity es ->
  Forall string_relationship rs ->
  unique_keys (JDict d) ->
  all_strings no_surrogate (JDict d) ->
  exists jf D mf,
    save_graph_json (JDict d) = Ok jf /\
    load_graph_json jf = Ok (JDict d) /\
    visualize_graph (JDict d) = Ok D /\
    generate_mermaid_chart (JDict d) = Ok mf /\
    main_outputs args (JDict d) =
    ({| json_file := Some jf;
        png_file := if arg_visualize args then Some D else None;
        mermaid_file := if arg_mermaid args then Some mf else None |},
     0%Z).
Proof.
  intros He Hr Hes Hrs Hu Ha.
  destruct (save_load_roundtrip (JDict d) Hu Ha) as [jf [Hs Hl]].
  assert (Hrs' : Forall renderable_relationship rs)
    by (apply (Forall_impl _ string_relationship_renderable Hrs)).
  destruct (visualize_graph_ok d He Hr Hes Hrs') as [D [HD _]].
  destruct (generate_mermaid_chart_ok d He Hr Hes Hrs Ha) as [mf Hm].
  exists jf, D, mf. repeat (split; [assumption|]).
  unfold main_outputs, report_counts. rewrite Hs, HD, Hm.
  cbn [getitem]. rewrite He, Hr. cbn [rbind py_len].
  now destruct (arg_visualize args), (arg_mermaid args).
Qed.

Lemma main_reaches_extraction (args : cli) (input_file : list N)
    (detector : detective) :
  existsb (streq (arg_provider args)) PROVIDERS = true ->
  arg_input args = Some input_file ->
  __init__ environ (arg_provider args) (arg_api_key args) = Ok detector ->
  main environ srv args =
  match extract_knowledge_graph detector srv input_file with
  | (evs, Raise _) => (evs, no_outputs, 1%Z)
  | (evs, Ok graph_data) =>
      let (written, status) := main_outputs args graph_data in
      (evs, written, status)
  end.
Proof.
  intros Hp Hi Hd. unfold main. now rewrite Hp, Hi, Hd.
Qed.

Lemma main_outputs_inv (args : cli) (g : json) :
  unique_keys g ->
  let (outs, status) := main_outputs args g in
  (status = 0%Z \/ status = 1%Z) /\
  (forall jf, json_file outs = Some jf ->
              save_graph_json g = Ok jf /\ load_graph_json jf = Ok g) /\
  (forall D, png_file outs = Some D ->
             arg_visualize args = true /\ visualize_graph g = Ok D /\
             json_file outs <> None) /\
  (forall mf, mermaid_file outs = Some mf ->
              arg_mermaid args = true /\
              generate_mermaid_chart g = Ok mf /\
              json_file outs <> None) /\
  (status = 0%Z ->
   json_file outs <> None /\
   (arg_visualize args = true -> png_file outs <> None) /\
   (arg_mermaid args = true -> mermaid_file outs <> None)).
Proof.
  intros Hu. unfold main_outputs.
  destruct (save_graph_json g) as [jf|] eqn:Hs.
  2:{ cbn. repeat split; auto; try discriminate. }
  pose proof (@save_ok_load g jf Hu Hs) as Hl.
  destruct (arg_visualize args);
    [destruct (visualize_graph g) as [D|] eqn:HD; cbn [rbind]|];
    (destruct (arg_mermaid args);
     [destruct (generate_mermaid_chart g) as [mf|] eqn:Hm; cbn [rbind]|]);
    try destruct (report_counts g);
    cbn [json_file png_file mermaid_file];
    repeat split; auto; try discriminate;
      try (intros ? [= <-]; auto); try (intros [= <-]; auto);
      try congruence.
Qed.
End CommandLine.


(** X15. When none of the three attempts gets a usable answer, [main] ends
    with status 1 after exactly three requests and writes no file, whether
    the last attempt was rate-limited (the call returns nothing and parsing
    it raises) or failed otherwise (the call raises). *)
Theorem main_fails_without_answer :
  forall (R : PyRuntime) (environ : pystr -> option pystr) (srv : service)
         (args : cli) (input_file : list N) (text : pystr)
         (detector : detective),
    existsb (streq (arg_provider args)) PROVIDERS = true ->
    arg_input args = Some input_file ->
    read_text input_file = Ok text ->
    __init__ environ (arg_provider args) (arg_api_key args) = Ok detector ->
    (forall a, a < 3 -> attempt_success srv a = None) ->
    exists evs,
      main environ srv args = (evs, no_outputs, 1%Z) /\ posts evs = 3.
Proof.
  intros R environ srv args input_file text detector Hp Hi Hrd Hd Hn.
  destruct (init_ok _ _ _ Hd) as [_ [Hm _]].
  rewrite (@main_reaches_extraction R environ srv args input_file detector
             Hp Hi Hd).
  unfold extract_knowledge_graph. rewrite Hrd.
  destruct (call_llm_cases detector srv (_build_extraction_prompt text))
    as [[k [c [Hk [Hc _]]]]|[[_ [_ ->]]|[e [_ [_ ->]]]]].
  - rewrite Hm in Hk. rewrite (Hn k Hk) in Hc. discriminate.
  - eexists. split; [reflexivity|]. rewrite Hm.
    now destruct (retried_observed srv 3).
  - eexists. split; [reflexivity|]. rewrite Hm, posts_app.
    destruct (retried_observed srv (3 - 1)) as [-> _]. reflexivity.
Qed.


Lemma string_relationships_two_companies :
  Forall string_relationship [relationship "c1" "c2" "OWNS"].
Proof.
  repeat constructor. unfold relationship.
  do 4 eexists; repeat split; reflexivity.
Qed.


Lemma main_fails_without_answer_witness :
  exists evs,
    @main example_runtime groq_environ always_429 example_args =
    (evs, no_outputs, 1%Z) /\ posts evs = 3.
Proof.
  apply (@main_fails_without_answer example_runtime groq_environ always_429
           example_args (str "Reliance Retail owns Hamleys.")
           (str "Reliance Retail owns Hamleys.")
           {| api_provider := str "groq"; api_key := str "gsk_test";
              api_url := GROQ_URL; model := GROQ_MODEL; max_retries := 3 |}).
  - reflexivity.
  - reflexivity.
  - reflexivity.
  - reflexivity.
  - intros a Ha. reflexivity.
Defined.

(** ** The example script *)

Lemma example_provider_choice (environ : pystr -> option pystr) :
  existsb (streq (example_provider environ)) PROVIDERS = true.
Proof.
  unfold example_provider.
  now destruct (key_given (environ (str "GROQ_API_KEY"))).
Qed.

Lemma main_outputs_both {R : PyRuntime} (args : cli) (g : json) :
  arg_visualize args = true -> arg_mermaid args = true ->
  fst (main_outputs args g) =
  match save_graph_json g with
  | Raise _ => no_outputs
  | Ok jf =>
      match visualize_graph g with
      | Raise _ => {| json_file := Some jf; png_file := None;
                      mermaid_file := None |}
      | Ok D =>
          match generate_mermaid_chart g with
          | Raise _ => {| json_file := Some jf; png_file := Some D;
                          mermaid_file := None |}
          | Ok mf => {| json_file := Some jf; png_file := Some D;
                        mermaid_file := Some mf |}
          end
      end
  end.
Proof.
  intros Hv Hm. unfold main_outputs. rewrite Hv, Hm.
  destruct (save_graph_json g); [|reflexivity].
  destruct (visualize_graph g); cbn [rbind]; [|reflexivity].
  destruct (generate_mermaid_chart g); cbn [rbind]; [|reflexivity].
  now destruct (report_counts g).
Qed.

(** X17. The example script is the command line in disguise: whatever the
    environment, the sample file and the service, it sends the requests and
    writes the files that [main] sends and writes when it is given the key
    and the provider the script picks from the environment and both
    renderings are asked for. With a key in the environment the constructor
    never raises in the script, so its handler for that is never entered;
    and the key it hands over is the Groq key exactly when the provider it
    names is groq. *)
Theorem run_example_is_main :
  forall (R : PyRuntime) (environ : pystr -> option pystr) (srv : service)
         (sample : option (list N)),
    run_example environ srv sample =
    (run_events (main environ srv (example_cli environ sample)),
     run_outputs (main environ srv (example_cli environ sample))) /\
    (key_given (example_key environ) = true ->
     exists detector,
       __init__ environ (example_provider environ) (example_key environ) =
       Ok detector /\
       Some (api_key detector) = example_key environ) /\
    ((example_provider environ = str "groq" /\
      example_key environ = environ (str "GROQ_API_KEY")) \/
     (example_provider environ = str "openai" /\
      example_key environ = environ (str "OPENAI_API_KEY"))).
Proof.
  intros R environ srv sample. split; [|split].
  - unfold run_example, main, run_events, run_outputs.
    cbn [arg_provider arg_input arg_api_key example_cli].
    rewrite example_provider_choice. cbn [negb].
    destruct (key_given (example_key environ)) eqn:Hk; cbn [negb].
    + destruct (__init__ environ (example_provider environ)
                  (example_key environ)) as [detector|];
        [|now destruct sample].
      destruct sample as [input_file|]; [|reflexivity].
      destruct (extract_knowledge_graph detector srv input_file)
        as [evs [g|e]]; [|reflexivity].
      pose proof (@main_outputs_both R (example_cli environ
                                          (Some input_file)) g
                    eq_refl eq_refl) as Ho.
      destruct (main_outputs (example_cli environ (Some input_file)) g)
        as [outs st].
      cbn [fst snd] in *. rewrite Ho.
      destruct (save_graph_json g); [|reflexivity].
      destruct (visualize_graph g); [|reflexivity].
      now destruct (generate_mermaid_chart g).
    + destruct sample as [input_file|]; [|reflexivity].
      destruct (__init__ environ (example_provider environ)
                  (example_key environ)) as [detector|] eqn:Hd;
        [|reflexivity].
      destruct (init_ok _ _ _ Hd) as [_ [_ [Hne [Hkey _]]]].
      rewrite Hk in Hkey. destruct Hkey as [var [Hvar Henv]].
      exfalso. unfold key_variable in Hvar.
      unfold example_key, py_or in Hk.
      destruct (key_given (environ (str "GROQ_API_KEY"))) eqn:Hg;
        [congruence|].
      destruct (streq (py_lower (example_provider environ)) (str "groq")).
      * injection Hvar as <-. rewrite Henv in Hg.
        destruct (api_key detector); [contradiction|discriminate].
      * destruct (streq (py_lower (example_provider environ))
                        (str "openai")); [|discriminate].
        injection Hvar as <-. rewrite Henv in Hk.
        destruct (api_key detector); [contradiction|discriminate].
  - intros Hk. apply key_given_spec in Hk. destruct Hk as [c [k Hk]].
    rewrite Hk, init_key_given. eexists. split; reflexivity.
  - unfold example_provider, example_key, py_or.
    destruct (key_given (environ (str "GROQ_API_KEY"))); auto.
Qed.

(** ** How the diagram fails on a graph that passed the schema check *)

Section DiagramFailures.
Context {R : PyRuntime}.

Lemma visualize_entity_raise (st : list (json * json) * digraph)
    (e : json) (x : exn) :
  spec_entity e -> visualize_entity st e = Raise x -> diagram_error x.
Proof.
  intros [[d [i [-> Hi]]] [[d1 [t [E1 [Ht _]]]] [d2 [n [E2 Hn]]]]].
  injection E1 as <-. injection E2 as <-.
  destruct st as [m G]. unfold visualize_entity, diagram_error.
  cbn [getitem py_get]. rewrite Hi, Hn, Ht. cbn [rbind].
  destruct (hashable i); cbn [rbind]; [|intros [= <-]; now left].
  destruct (truthy _).
  - destruct n; cbn [iadd_str rbind]; try (intros [= <-]; now left);
      destruct i; cbn [add_node rbind]; try discriminate;
        intros [= <-]; now right.
  - cbn [rbind]. destruct i; cbn [add_node rbind]; try discriminate.
    intros [= <-]. now right.
Qed.

Lemma visualize_relationship_raise (m : list (json * json)) (G : digraph)
    (r : json) (x : exn) :
  spec_relationship r ->
  visualize_relationship m G r = Raise x -> diagram_error x.
Proof.
  intros [[d [s [-> Hs]]] [[d' [t [E Ht]]] [d'' [ty [E' Hty]]]]].
  injection E as <-. injection E' as <-.
  unfold visualize_relationship, member, diagram_error.
  cbn [getitem]. rewrite Hs, Ht, Hty. cbn [rbind].
  destruct (hashable s); cbn [rbind]; [|intros [= <-]; now left].
  destruct (kmem s m); cbn [rbind andb]; [|discriminate].
  destruct (hashable t); cbn [rbind]; [|intros [= <-]; now left].
  destruct (kmem t m); discriminate.
Qed.

Lemma node_labels_raise (ns : list (json * node_attrs)) (x : exn) :
  node_labels ns = Raise x -> x = TypeError.
Proof.
  induction ns as [|[k a] ns IH]; [discriminate|]. cbn [node_labels].
  destruct (first20 (n_name a)) eqn:E; cbn [rbind].
  - destruct (node_labels ns); cbn [rbind]; [discriminate|].
    intros [= <-]. now apply IH.
  - intros [= <-]. destruct (n_name a); cbn in E; congruence.
Qed.

Lemma visualize_graph_raise (g : json) (x : exn) :
  spec_valid g -> visualize_graph g = Raise x -> diagram_error x.
Proof.
  intros [d [es [rs [-> [He [Hr [Ves Vrs]]]]]]] H.
  unfold visualize_graph, build_graph in H. cbn [getitem] in H.
  rewrite He, Hr in H. cbn [rbind py_iter] in H.
  destruct (for_each visualize_entity es _) as [[m G1]|] eqn:E1;
    cbn [rbind] in H.
  - destruct (for_each (visualize_relationship m) rs G1) as [G|] eqn:E2;
      cbn [rbind] in H.
    + destruct (node_labels (nodes G)) eqn:E3; cbn [rbind] in H;
        [discriminate|]. injection H as <-.
      left. now apply node_labels_raise in E3.
    + injection H as <-.
      eapply (@for_each_raise _ _ (visualize_relationship m)
                spec_relationship diagram_error); [|exact Vrs|exact E2].
      intros s r e'. apply visualize_relationship_raise.
  - injection H as <-.
    eapply (@for_each_raise _ _ visualize_entity spec_entity
              diagram_error); [|exact Ves|exact E1].
    intros s r e'. apply visualize_entity_raise.
Qed.
End DiagramFailures.


Lemma null_id_graph_valid : spec_valid null_id_graph.
Proof.
  destruct (validate_total null_id_graph) as [b [Hb Hv]].
  apply Hv. vm_compute in Hb. congruence.
Qed.

